(** * qtrader: the reconciliation and persistence engine

    A shallow embedding of [qtrader/core/engine.py]: the balance and
    position reconcilers ([sync_broker_balance], [sync_broker_position]),
    the ledger getters ([get_db_balance], [get_db_position]) and the two
    persistence steps ([persist_account_balance], [persist_position]).

    Conventions of the embedding:
    - Python numbers (cash, power, prices, quantities) are exact rationals
      [Qc] in the engine as a whole, where sums and differences are
      therefore exact.  Python computes them on floats: the module
      [Binary64] repeats the balance reconciler on IEEE 754 binary64
      numbers, with their rounding, and the statements on what the amounts
      of the ledger add up to are made there.
    - Row and account identifiers are Python integers, [Z].
    - A [datetime] is a time stamp in microseconds, the resolution of
      Python's [datetime]; the stamp of a position row is read back through
      [strptime], which keeps its whole seconds.
    - A method is a function in the monad [M]: it takes the engine, and
      either returns a value with the new engine or raises a Python
      exception, leaving the engine as it was at the raise. *)

From stdpp Require Import base numbers list strings option countable gmap.
From Stdlib Require Import QArith Qcanon Floats.

Local Open Scope string_scope.
Local Open Scope list_scope.
Local Open Scope Z_scope.
Local Open Scope Qc_scope.

(** ** Data model *)

(** A time stamp, counted in microseconds. *)
Definition datetime := Z.
Bind Scope Z_scope with datetime.

(** A stamp without a fraction of a second. *)
Definition whole_second (t : datetime) : Prop := (t mod 1000000 = 0)%Z.

Global Instance whole_second_dec t : Decision (whole_second t).
Proof. unfold whole_second. apply _. Defined.

Inductive Direction := LONG | SHORT | NET.

(** [Direction.name] *)
Definition Direction_name (d : Direction) : string :=
  match d with LONG => "LONG" | SHORT => "SHORT" | NET => "NET" end.

(** Modelled from the spec: [qtrader.core.security.Stock] is not part of
    the sources; the engine builds it as [Stock(code=, stock_name=)] and
    reads exactly these two attributes. *)
Record Stock := mkStock { code : string; stock_name : string }.

(** Modelled from the spec: [qtrader.core.position.PositionData] with the
    fields [{security, direction, holding_price, quantity, update_time}]. *)
Record PositionData := mkPositionData {
  security : Stock;
  direction : Direction;
  holding_price : Qc;
  quantity : Qc;
  update_time : datetime
}.

(** Modelled from the spec: [qtrader.core.balance.AccountBalance] with the
    fields [{cash, power, max_power_short, net_cash_power}]. *)
Record AccountBalance := mkAccountBalance {
  cash : Qc;
  power : Qc;
  max_power_short : Qc;
  net_cash_power : Qc
}.

Global Instance Direction_eq_dec : EqDecision Direction.
Proof. solve_decision. Defined.
Global Instance Stock_eq_dec : EqDecision Stock.
Proof. solve_decision. Defined.
Global Instance PositionData_eq_dec : EqDecision PositionData.
Proof. solve_decision. Defined.
Global Instance AccountBalance_eq_dec : EqDecision AccountBalance.
Proof. solve_decision. Defined.

Global Instance Direction_countable : Countable Direction.
Proof.
  refine (inj_countable'
    (λ d, match d with LONG => 0%nat | SHORT => 1%nat | NET => 2%nat end)
    (λ n, match n with 0%nat => LONG | 1%nat => SHORT | _ => NET end) _).
  by intros [].
Defined.
Global Instance Stock_countable : Countable Stock.
Proof.
  refine (inj_countable' (λ s, (code s, stock_name s))
                         (λ p, mkStock p.1 p.2) _).
  by intros [].
Defined.

(** Modelled from the spec: [qtrader.core.position.Position] is a mapping
    from [(security, direction)] to [PositionData] with unique keys. *)
Abbreviation Position := (gmap (Stock * Direction) PositionData).

(** The entries of a well-formed table sit under their own key. *)
Definition keyed (pos : Position) : Prop :=
  ∀ k pd, pos !! k = Some pd → k = (security pd, direction pd).

(** [Position.get_all_positions] *)
Definition get_all_positions (pos : Position) : list PositionData :=
  (map_to_list pos).*2.

(** Modelled from the spec: [qtrader.core.portfolio.Portfolio] owns one
    account balance and one position table.  [account_balance] is [None]
    after [get_db_balance] found no row. *)
Record Portfolio := mkPortfolio {
  account_balance : option AccountBalance;
  position : Position
}.

(** ** The ledger *)

(** A row of the table [balance]. *)
Module BalanceRow.
Record t := mk {
  id : Z;
  broker_name : string;
  broker_environment : string;
  broker_account : string;
  broker_account_id : Z;
  strategy_account : string;
  strategy_account_id : Z;
  strategy_version : string;
  strategy_version_desc : string;
  strategy_status : string;
  cash : Qc;
  power : Qc;
  max_power_short : Qc;
  net_cash_power : Qc;
  update_time : datetime;
  remark : string
}.
Global Instance eq_dec : EqDecision t.
Proof. solve_decision. Defined.
End BalanceRow.

(** A row of the table [position]. *)
Module PositionRow.
Record t := mk {
  id : Z;
  balance_id : Z;
  security_code : string;
  security_name : string;
  direction : string;
  holding_price : Qc;
  quantity : Qc;
  update_time : datetime
}.
Global Instance eq_dec : EqDecision t.
Proof. solve_decision. Defined.
End PositionRow.

(** The numeric columns of [balance] the engine reads with [getattr] and
    writes through [update_records(columns=...)]. *)
Inductive field := Cash | Power | MaxPowerShort | NetCashPower.

Global Instance field_eq_dec : EqDecision field.
Proof. solve_decision. Defined.

(** [getattr(account_balance, field)] *)
Definition getattr (a : AccountBalance) (f : field) : Qc :=
  match f with
  | Cash => cash a
  | Power => power a
  | MaxPowerShort => max_power_short a
  | NetCashPower => net_cash_power a
  end.

(** [row[field]] *)
Definition column (f : field) (r : BalanceRow.t) : Qc :=
  match f with
  | Cash => BalanceRow.cash r
  | Power => BalanceRow.power r
  | MaxPowerShort => BalanceRow.max_power_short r
  | NetCashPower => BalanceRow.net_cash_power r
  end.

Definition set_column (f : field) (v : Qc) (r : BalanceRow.t) : BalanceRow.t :=
  let c := match f with Cash => v | _ => BalanceRow.cash r end in
  let p := match f with Power => v | _ => BalanceRow.power r end in
  let m := match f with MaxPowerShort => v | _ => BalanceRow.max_power_short r end in
  let n := match f with NetCashPower => v | _ => BalanceRow.net_cash_power r end in
  BalanceRow.mk (BalanceRow.id r) (BalanceRow.broker_name r)
    (BalanceRow.broker_environment r) (BalanceRow.broker_account r)
    (BalanceRow.broker_account_id r) (BalanceRow.strategy_account r)
    (BalanceRow.strategy_account_id r) (BalanceRow.strategy_version r)
    (BalanceRow.strategy_version_desc r) (BalanceRow.strategy_status r)
    c p m n (BalanceRow.update_time r) (BalanceRow.remark r).

(** The [columns] dictionary of an update, applied to one row. *)
Definition set_columns (columns : list (field * Qc)) (r : BalanceRow.t) : BalanceRow.t :=
  foldl (λ r' fv, set_column fv.1 fv.2 r') r columns.

(** A write reaching the ledger, by table name. *)
Inductive write :=
  | Insert (table_name : string)
  | Update (table_name : string)
  | Delete (table_name : string).

Global Instance write_eq_dec : EqDecision write.
Proof. solve_decision. Defined.

(** Modelled from the spec: the ledger (the [DB] class of the sqlite3
    plugin is not part of the sources).  Two tables with select by filter,
    insert, update by filter and delete by filter, each synchronous and
    atomic on its own; [writes] records the writes performed, most recent
    first. *)
Record DB := mkDB {
  balance_table : list BalanceRow.t;
  position_table : list PositionRow.t;
  writes : list write
}.

Global Instance DB_eq_dec : EqDecision DB.
Proof. solve_decision. Defined.

(** Python's [max] on a non-empty list. *)
Definition max_of (l : list Z) : Z :=
  match l with
  | [] => 0%Z
  | x :: l' => foldl Z.max x l'
  end.

(** Modelled from the spec: [insert] returns the id of the new row; the
    primary key of a new row is one more than the largest one in the
    table, and 1 in an empty table. *)
Definition fresh_id (ids : list Z) : Z :=
  match ids with
  | [] => 1%Z
  | _ => (max_of ids + 1)%Z
  end.

(** Python's [sum]: starts at 0 and adds from the left. *)
Definition sum (l : list Qc) : Qc := foldl Qcplus 0 l.

(** ** The engine and its monad *)

(** The part of [Engine] the reconcilers and the persistence steps read
    and write: the identity configuration, the portfolio and the ledger
    handle. *)
Record Engine := mkEngine {
  gateway_broker_name : string;      (* GATEWAY["broker_name"] *)
  trade_mode_name : string;          (* self.market.trade_mode.name *)
  gateway_broker_account : string;   (* GATEWAY["broker_account"] *)
  strategy_account : string;
  strategy_version : string;
  portfolio : Portfolio;
  db : option DB                     (* has_db() is [is_Some] of it *)
}.

Definition set_db (d : DB) (e : Engine) : Engine :=
  mkEngine (gateway_broker_name e) (trade_mode_name e)
    (gateway_broker_account e) (strategy_account e) (strategy_version e)
    (portfolio e) (Some d).

Definition set_portfolio (p : Portfolio) (e : Engine) : Engine :=
  mkEngine (gateway_broker_name e) (trade_mode_name e)
    (gateway_broker_account e) (strategy_account e) (strategy_version e)
    p (db e).

(** The Python exceptions the engine can end in. *)
Inductive exn := AssertionError | ValueError | IndexError | AttributeError.

(** A call either returns [a] or raises [x]; either way it leaves an
    engine behind, with whatever it wrote to the ledger before. *)
Inductive outcome (A : Type) :=
  | Done (a : A) (e : Engine)
  | Raised (x : exn) (e : Engine).
Arguments Done {A} a e.
Arguments Raised {A} x e.

Definition M (A : Type) : Type := Engine → outcome A.

Global Instance M_ret : MRet M := λ A a e, Done a e.
Global Instance M_bind : MBind M := λ A B k m e,
  match m e with
  | Done a e' => k a e'
  | Raised x e' => Raised x e'
  end.

Definition raise {A} (x : exn) : M A := λ e, Raised x e.
Definition get : M Engine := λ e, Done e e.

(** [assert cond] *)
Definition assert (P : Prop) `{Decision P} : M unit :=
  if decide P then mret () else raise AssertionError.

(** [for x in xs: body(x)] *)
Fixpoint for_each {A} (xs : list A) (body : A → M unit) : M unit :=
  match xs with
  | [] => mret ()
  | x :: xs' => body x ;; for_each xs' body
  end.

(** The engine state an outcome ends in. *)
Definition final {A} (o : outcome A) : Engine :=
  match o with Done _ e => e | Raised _ e => e end.

(** [self.portfolio.account_balance = v] *)
Definition assign_account_balance (v : option AccountBalance) : M unit :=
  λ e, Done () (set_portfolio (mkPortfolio v (position (portfolio e))) e).

(** [self.portfolio.position = v] *)
Definition assign_position (v : Position) : M unit :=
  λ e, Done () (set_portfolio (mkPortfolio (account_balance (portfolio e)) v) e).

(** [self.db]: an [AttributeError] when the engine has no [db]. *)
Definition the_db : M DB :=
  λ e, match db e with Some d => Done d e | None => Raised AttributeError e end.

(** The ledger after a write. *)
Definition put_db (d : DB) : M unit := λ e, Done () (set_db d e).

(** *** Ledger operations *)

(** [db.select_records(table_name="balance", **filters)] *)
Definition select_balance (P : BalanceRow.t → Prop) `{∀ r, Decision (P r)}
  : M (list BalanceRow.t) :=
  d ← the_db; mret (filter P (balance_table d)).

(** [db.select_records(table_name="position", ...)] *)
Definition select_position (P : PositionRow.t → Prop) `{∀ r, Decision (P r)}
  : M (list PositionRow.t) :=
  d ← the_db; mret (filter P (position_table d)).

(** [db.insert_records(table_name="balance", ...)]: [mk_row] is the row
    without its primary key. *)
Definition insert_balance (mk_row : Z → BalanceRow.t) : M unit :=
  d ← the_db;
  let r := mk_row (fresh_id (BalanceRow.id <$> balance_table d)) in
  put_db (mkDB (balance_table d ++ [r]) (position_table d)
               (Insert "balance" :: writes d)).

(** [db.insert_records(table_name="position", ...)] *)
Definition insert_position (mk_row : Z → PositionRow.t) : M unit :=
  d ← the_db;
  let r := mk_row (fresh_id (PositionRow.id <$> position_table d)) in
  put_db (mkDB (balance_table d) (position_table d ++ [r])
               (Insert "position" :: writes d)).

(** [db.update_records(table_name="balance", columns=..., **filters)] *)
Definition update_balance (columns : list (field * Qc))
    (P : BalanceRow.t → Prop) `{∀ r, Decision (P r)} : M unit :=
  d ← the_db;
  let rows := (λ r, if decide (P r) then set_columns columns r else r)
                <$> balance_table d in
  put_db (mkDB rows (position_table d) (Update "balance" :: writes d)).

(** [db.delete_records(table_name="position", **filters)] *)
Definition delete_position (P : PositionRow.t → Prop) `{∀ r, Decision (P r)}
  : M unit :=
  d ← the_db;
  put_db (mkDB (balance_table d) (filter (λ r, ¬ P r) (position_table d))
               (Delete "position" :: writes d)).

(** The filter [broker_name=..., broker_environment=..., broker_account=...]
    shared by the balance queries. *)
Definition of_broker_account (e : Engine) (r : BalanceRow.t) : Prop :=
  BalanceRow.broker_name r = gateway_broker_name e ∧
  BalanceRow.broker_environment r = trade_mode_name e ∧
  BalanceRow.broker_account r = gateway_broker_account e.

Global Instance of_broker_account_dec e r : Decision (of_broker_account e r).
Proof. unfold of_broker_account. apply _. Defined.

(** ** engine.py *)

(** [Engine.get_db_balance] *)
Definition get_db_balance (strategy_account strategy_version : string)
  : M (option AccountBalance) :=
  e ← get;
  balance_df ← select_balance (λ r,
    of_broker_account e r ∧
    BalanceRow.strategy_account r = strategy_account ∧
    BalanceRow.strategy_version r = strategy_version);
  match balance_df with
  | [] => mret None
  | r :: rest =>
    assert (length balance_df = 1%nat);;
    mret (Some (mkAccountBalance (BalanceRow.cash r) (BalanceRow.power r)
                  (BalanceRow.max_power_short r) (BalanceRow.net_cash_power r)))
  end.

(** The first-time branch of [sync_broker_balance]: lines 138-186. *)
Definition sync_broker_balance_first_time (broker_balance : AccountBalance)
    (now1 now2 : datetime) : M unit :=
  e ← get;
  account_ids ← select_balance (λ _, True);
  let broker_account_id :=
    match account_ids with
    | [] => 1%Z
    | _ => (max_of (BalanceRow.broker_account_id <$> account_ids) + 1)%Z
    end in
  let strategy_account_id :=
    match account_ids with
    | [] => 1%Z
    | _ => (max_of (BalanceRow.strategy_account_id <$> account_ids) + 1)%Z
    end in
  match account_balance (portfolio e) with
  | None => raise AttributeError
  | Some local =>
    let cash' := cash broker_balance - cash local in
    let power' := power broker_balance - power local in
    assert (0 ≤ cash');;
    assert (0 ≤ power');;
    insert_balance (λ id, BalanceRow.mk id
      (gateway_broker_name e) (trade_mode_name e) (gateway_broker_account e)
      broker_account_id "default" strategy_account_id (strategy_version e)
      "manual trading" "active" cash' power' (-1) (-1) now1 "N/A");;
    insert_balance (λ id, BalanceRow.mk id
      (gateway_broker_name e) (trade_mode_name e) (gateway_broker_account e)
      broker_account_id (strategy_account e) (strategy_account_id + 1)%Z
      (strategy_version e) "" "active" (cash local) (power local)
      (-1) (-1) now2 "N/A")
  end.

(** The subsequent-times branch of [sync_broker_balance]: lines 188-204.
    [balance_df] is the selection made before the loop; it is not read
    again between the two fields. *)
Definition sync_broker_balance_subsequent (broker_balance : AccountBalance)
    (balance_df : list BalanceRow.t) : M unit :=
  match filter (λ r, BalanceRow.strategy_account r = "default") balance_df with
  | [] => raise IndexError
  | default_row :: _ =>
    let id_ := BalanceRow.id default_row in
    for_each [Cash; Power] (λ field,
      let delta_val :=
        getattr broker_balance field - sum (column field <$> balance_df) in
      let current_val := column field default_row in
      assert (0 ≤ current_val + delta_val);;
      if decide (delta_val ≠ 0) then
        update_balance [(field, current_val + delta_val)]
                       (λ r, BalanceRow.id r = id_)
      else mret ())
  end.

(** [Engine.sync_broker_balance].  [broker_balance] is what
    [get_broker_balance()] returned; [now1] and [now2] are the two
    readings of [datetime.now()] of the first-time branch. *)
Definition sync_broker_balance (broker_balance : option AccountBalance)
    (now1 now2 : datetime) : M unit :=
  match broker_balance with
  | None => mret ()
  | Some broker_balance =>
    e ← get;
    match db e with
    | None => assign_account_balance (Some broker_balance)
    | Some _ =>
      balance_df ← select_balance (of_broker_account e);
      match balance_df with
      | [] => sync_broker_balance_first_time broker_balance now1 now2
      | _ => sync_broker_balance_subsequent broker_balance balance_df
      end;;
      account_balance ← get_db_balance (strategy_account e) (strategy_version e);
      assign_account_balance account_balance
    end
  end.

(** [convert_direction_db2qt] *)
Definition convert_direction_db2qt (direction : string) : M Direction :=
  if decide (direction = "LONG") then mret LONG
  else if decide (direction = "SHORT") then mret SHORT
  else if decide (direction = "NET") then mret NET
  else raise ValueError.

(** Modelled from the spec: [Position.update(position_data, Offset.OPEN)]
    is an upsert under the key of [position_data].  A key not yet held
    takes [position_data] as it is; for a key already held the spec leaves
    open whether the entry is added to or overwritten, so the combination
    is the parameter [open_existing old new]. *)
Class PositionUpdate := open_existing : PositionData → PositionData → PositionData.

Definition Position_update_OPEN `{PositionUpdate}
    (position : Position) (position_data : PositionData) : Position :=
  let key := (security position_data, direction position_data) in
  match position !! key with
  | None => <[key := position_data]> position
  | Some old => <[key := open_existing old position_data]> position
  end.

(** [for x in xs: acc = body(acc, x)], for a loop that rebinds or mutates a
    local. *)
Fixpoint fold_each {A B} (xs : list A) (acc : B) (body : B → A → M B) : M B :=
  match xs with
  | [] => mret acc
  | x :: xs' => acc' ← body acc x; fold_each xs' acc' body
  end.

(** [df[...].values[0]] *)
Definition values_0 {A} (values : list A) : M A :=
  match values with
  | [] => raise IndexError
  | v :: _ => mret v
  end.

(** [datetime.strptime(row["update_time"], "%Y-%m-%d %H:%M:%S")] of lines
    117, 284 and 307, on the stamp [t] the row was inserted with.  The
    format ends at the second, so the stamp read back never has a fraction
    of a second.  Modelled from the spec: the text kept for [t] is written
    by the sqlite3 plugin, which is not part of the sources; it is taken to
    be one the format parses, the whole seconds of [t]. *)
Definition strptime (t : datetime) : datetime := (t - t mod 1000000)%Z.

(** The [PositionData] a ledger row is read back as (lines 110-118 and
    277-285). *)
Definition position_data_of_row (row : PositionRow.t) : M PositionData :=
  let security := mkStock (PositionRow.security_code row)
                          (PositionRow.security_name row) in
  direction ← convert_direction_db2qt (PositionRow.direction row);
  mret (mkPositionData security direction (PositionRow.holding_price row)
          (PositionRow.quantity row) (strptime (PositionRow.update_time row))).

(** The keyword arguments of [insert_records(table_name="position", ...)]
    for one [PositionData]. *)
Definition position_row (balance_id : Z) (p : PositionData) (id : Z)
  : PositionRow.t :=
  PositionRow.mk id balance_id (code (security p)) (stock_name (security p))
    (Direction_name (direction p)) (holding_price p) (quantity p)
    (update_time p).

(** [Engine.get_db_position] *)
Definition get_db_position `{PositionUpdate} (balance_id : Z)
  : M (option Position) :=
  position_df ← select_position (λ r, PositionRow.balance_id r = balance_id);
  match position_df with
  | [] => mret None
  | _ =>
    position ← fold_each position_df (∅ : Position) (λ position row,
      position_data ← position_data_of_row row;
      mret (Position_update_OPEN position position_data));
    mret (Some position)
  end.

(** [self.portfolio.position.update(position_data, Offset.OPEN)] *)
Definition update_portfolio_position `{PositionUpdate}
    (position_data : PositionData) : M unit :=
  e ← get;
  assign_position (Position_update_OPEN (position (portfolio e)) position_data).

(** Lines 293-308: what is left of [brk_pos] once [db_pos] is taken out of
    it; the caller has matched them on [(security, direction)]. *)
Definition remainder (brk_pos db_pos : PositionData) : M PositionData :=
  let quantity' := quantity brk_pos - quantity db_pos in
  holding_price' ←
    (if decide (0 < quantity') then
       mret ((holding_price brk_pos * quantity brk_pos
              - holding_price db_pos * quantity db_pos) / quantity')
     else if decide (quantity' = 0) then mret (-1)
     else raise ValueError);
  mret (mkPositionData (security db_pos) (direction db_pos) holding_price'
          quantity' (update_time db_pos)).

(** Lines 290-308: the loop over [enumerate(all_broker_positions)] for one
    ledger position; the list is updated in place at [idx]. *)
Definition deduct (db_pos : PositionData)
    (all_broker_positions : list PositionData) : M (list PositionData) :=
  fold_each (seq 0 (length all_broker_positions)) all_broker_positions
    (λ all_broker_positions idx,
      match all_broker_positions !! idx with
      | None => mret all_broker_positions
      | Some brk_pos =>
        if decide (security brk_pos ≠ security db_pos ∨
                   direction brk_pos ≠ direction db_pos)
        then mret all_broker_positions
        else
          new_pos ← remainder brk_pos db_pos;
          mret (<[idx := new_pos]> all_broker_positions)
      end).

(** [Engine.sync_broker_position].  [all_broker_positions] is what
    [get_all_broker_positions()] returned.  The local [strat_positions] of
    lines 275 and 288 is never read and is left out. *)
Definition sync_broker_position `{PositionUpdate}
    (all_broker_positions : option (list PositionData)) : M unit :=
  match all_broker_positions with
  | None => mret ()
  | Some all_broker_positions =>
    e ← get;
    match db e with
    | None => for_each all_broker_positions update_portfolio_position
    | Some _ =>
      balance_df ← select_balance (of_broker_account e);
      assert (balance_df ≠ []);;
      strat_balance_id ← values_0 (BalanceRow.id <$> filter (λ r,
        BalanceRow.strategy_account r = strategy_account e ∧
        BalanceRow.strategy_version r = strategy_version e) balance_df);
      let balance_ids := BalanceRow.id <$> balance_df in
      position_df ← select_position (λ r, PositionRow.balance_id r ∈ balance_ids);
      let default_balance_df := filter (λ r,
        BalanceRow.strategy_account r = "default" ∧
        BalanceRow.strategy_version r = "1.0") balance_df in
      assert (length default_balance_df = 1%nat);;
      default_balance_id ← values_0 (BalanceRow.id <$> default_balance_df);
      match position_df with
      | [] =>
        for_each all_broker_positions (λ broker_position,
          insert_position (position_row default_balance_id broker_position));;
        assign_position ∅
      | _ =>
        let nondefault_position_df := filter (λ r,
          PositionRow.balance_id r ≠ default_balance_id) position_df in
        all_broker_positions ←
          fold_each nondefault_position_df all_broker_positions
            (λ all_broker_positions row,
              db_pos ← position_data_of_row row;
              deduct db_pos all_broker_positions);
        delete_position (λ r, PositionRow.balance_id r = default_balance_id);;
        for_each all_broker_positions (λ broker_position,
          if decide (0 < quantity broker_position) then
            insert_position (position_row default_balance_id broker_position)
          else mret ());;
        position ← get_db_position strat_balance_id;
        assign_position (default ∅ position)
      end
    end
  end.

(** [persist_account_balance] *)
Definition persist_account_balance : M unit :=
  e ← get;
  db_balance ← get_db_balance (strategy_account e) (strategy_version e);
  match db_balance with
  | None => mret ()
  | Some db_balance =>
    match account_balance (portfolio e) with
    | None => raise AttributeError
    | Some account_balance =>
      let updates :=
        omap (λ field,
          if decide (getattr account_balance field ≠ getattr db_balance field)
          then Some (field, getattr account_balance field) else None)
          [Cash; Power; MaxPowerShort; NetCashPower] in
      if decide (updates ≠ []) then
        update_balance updates (λ r,
          BalanceRow.strategy_account r = strategy_account e ∧
          BalanceRow.strategy_version r = strategy_version e)
      else mret ()
    end
  end.

(** [persist_position].  [if db_position:] holds exactly when
    [get_db_position] returned a [Position]. *)
Definition persist_position `{PositionUpdate} : M unit :=
  e ← get;
  balance_df ← select_balance (λ r,
    of_broker_account e r ∧
    BalanceRow.strategy_account r = strategy_account e ∧
    BalanceRow.strategy_version r = strategy_version e);
  match balance_df with
  | [] => mret ()
  | r :: _ =>
    assert (length balance_df = 1%nat);;
    let balance_id := BalanceRow.id r in
    db_position ← get_db_position balance_id;
    (if db_position is Some _ then
       delete_position (λ r, PositionRow.balance_id r = balance_id)
     else mret ());;
    for_each (get_all_positions (position (portfolio e))) (λ position_data,
      insert_position (position_row balance_id position_data))
  end.

(** One turn of the loop of [persist_data], without the logging and the
    sleep. *)
Definition persist_step `{PositionUpdate} : M unit :=
  persist_account_balance;; persist_position.

Global Instance Portfolio_eq_dec : EqDecision Portfolio.
Proof. solve_decision. Defined.
Global Instance Engine_eq_dec : EqDecision Engine.
Proof. solve_decision. Defined.
Global Instance exn_eq_dec : EqDecision exn.
Proof. solve_decision. Defined.
Global Instance outcome_eq_dec `{EqDecision A} : EqDecision (outcome A).
Proof. solve_decision. Defined.

(** ** Vocabulary of the statements

    Pure descriptions of what the engine does to the ledger.  Each one is
    related to the engine's own code by an evaluation lemma below
    ([first_time_eval], [subsequent_eval], [deduct_eval], ...). *)

(** *** Balance reconciliation *)

(** [balance_df]: the rows of the engine's broker account. *)
Definition account_rows (e : Engine) (d : DB) : list BalanceRow.t :=
  filter (of_broker_account e) (balance_table d).

(** The sum of one column over the rows of the engine's broker account. *)
Definition account_total (f : field) (e : Engine) (d : DB) : Qc :=
  sum (column f <$> account_rows e d).

(** The test [balance_df["strategy_account"]=="default"] of lines 189
    and 193. *)
Definition is_default (r : BalanceRow.t) : Prop :=
  BalanceRow.strategy_account r = "default".

Global Instance is_default_dec r : Decision (is_default r).
Proof. unfold is_default. apply _. Defined.

(** The rows [get_db_balance] selects. *)
Definition strategy_rows (e : Engine) (sa sv : string) (d : DB)
  : list BalanceRow.t :=
  filter (λ r, of_broker_account e r ∧
               BalanceRow.strategy_account r = sa ∧
               BalanceRow.strategy_version r = sv) (balance_table d).

(** The [AccountBalance] [get_db_balance] builds from a row. *)
Definition balance_of_row (r : BalanceRow.t) : AccountBalance :=
  mkAccountBalance (BalanceRow.cash r) (BalanceRow.power r)
    (BalanceRow.max_power_short r) (BalanceRow.net_cash_power r).

(** [delta_val] of line 192. *)
Definition delta (f : field) (bb : AccountBalance)
    (balance_df : list BalanceRow.t) : Qc :=
  getattr bb f - sum (column f <$> balance_df).

(** One row under [update_records(columns={f: v}, id=id_)]. *)
Definition amend (f : field) (id_ : Z) (v : Qc) (r : BalanceRow.t) : BalanceRow.t :=
  if decide (BalanceRow.id r = id_) then set_columns [(f, v)] r else r.

(** The ledger after [update_records(columns={f: v}, id=id_)]. *)
Definition write_field (f : field) (id_ : Z) (v : Qc) (d : DB) : DB :=
  mkDB ((λ r, if decide (BalanceRow.id r = id_) then set_columns [(f, v)] r else r)
          <$> balance_table d)
       (position_table d) (Update "balance" :: writes d).

(** The ledger after one turn of the loop of lines 191-204 whose assertion
    passed: the write happens only for a non-zero [delta_val]. *)
Definition reconcile (f : field) (bb : AccountBalance)
    (balance_df : list BalanceRow.t) (default_row : BalanceRow.t) (d : DB) : DB :=
  if decide (delta f bb balance_df ≠ 0) then
    write_field f (BalanceRow.id default_row)
      (column f default_row + delta f bb balance_df) d
  else d.

(** What [reconcile] does to one row. *)
Definition adjust (f : field) (bb : AccountBalance)
    (balance_df : list BalanceRow.t) (default_row : BalanceRow.t)
  : BalanceRow.t → BalanceRow.t :=
  if decide (delta f bb balance_df ≠ 0) then
    amend f (BalanceRow.id default_row)
      (column f default_row + delta f bb balance_df)
  else λ r, r.

(** Two rows that agree on everything but the numeric columns and the
    descriptive texts. *)
Definition same_header (r r' : BalanceRow.t) : Prop :=
  BalanceRow.id r' = BalanceRow.id r ∧
  BalanceRow.broker_name r' = BalanceRow.broker_name r ∧
  BalanceRow.broker_environment r' = BalanceRow.broker_environment r ∧
  BalanceRow.broker_account r' = BalanceRow.broker_account r ∧
  BalanceRow.broker_account_id r' = BalanceRow.broker_account_id r ∧
  BalanceRow.strategy_account r' = BalanceRow.strategy_account r ∧
  BalanceRow.strategy_version r' = BalanceRow.strategy_version r.

(** Lines 139-144: the account id a first-time sync allocates. *)
Definition next_account_id (proj : BalanceRow.t → Z)
    (account_ids : list BalanceRow.t) : Z :=
  match account_ids with
  | [] => 1%Z
  | _ => (max_of (proj <$> account_ids) + 1)%Z
  end.

(** The row inserted by lines 150-167. *)
Definition default_row_of (e : Engine) (bb local : AccountBalance)
    (now1 : datetime) (d : DB) : BalanceRow.t :=
  BalanceRow.mk (fresh_id (BalanceRow.id <$> balance_table d))
    (gateway_broker_name e) (trade_mode_name e) (gateway_broker_account e)
    (next_account_id BalanceRow.broker_account_id (balance_table d))
    "default"
    (next_account_id BalanceRow.strategy_account_id (balance_table d))
    (strategy_version e) "manual trading" "active"
    (cash bb - cash local) (power bb - power local) (-1) (-1) now1 "N/A".

(** The row inserted by lines 169-186. *)
Definition strategy_row_of (e : Engine) (bb local : AccountBalance)
    (now1 now2 : datetime) (d : DB) : BalanceRow.t :=
  BalanceRow.mk
    (fresh_id (BalanceRow.id <$>
                 (balance_table d ++ [default_row_of e bb local now1 d])))
    (gateway_broker_name e) (trade_mode_name e) (gateway_broker_account e)
    (next_account_id BalanceRow.broker_account_id (balance_table d))
    (strategy_account e)
    (next_account_id BalanceRow.strategy_account_id (balance_table d) + 1)%Z
    (strategy_version e) "" "active"
    (cash local) (power local) (-1) (-1) now2 "N/A".

(** The ledger after the first-time branch. *)
Definition bootstrap (e : Engine) (bb local : AccountBalance)
    (now1 now2 : datetime) (d : DB) : DB :=
  mkDB (balance_table d ++ [default_row_of e bb local now1 d;
                            strategy_row_of e bb local now1 now2 d])
       (position_table d)
       (Insert "balance" :: Insert "balance" :: writes d).

(** A ledger [sync_broker_balance] has just reconciled with the snapshot
    [bb]: primary keys are unique, the broker account has a default row
    with non-negative cash and power, and its rows add up to [bb]. *)
Definition settled (bb : AccountBalance) (e : Engine) (d : DB) : Prop :=
  NoDup (BalanceRow.id <$> balance_table d) ∧
  (∃ r0 rest, filter is_default (account_rows e d) = r0 :: rest ∧
              0 ≤ column Cash r0 ∧ 0 ≤ column Power r0) ∧
  account_total Cash e d = cash bb ∧
  account_total Power e d = power bb.

(** The rows of the engine's broker account are exactly the rows that
    share their [broker_account_id]. *)
Definition grouped (e : Engine) (d : DB) : Prop :=
  ∀ r1 r2, r1 ∈ balance_table d → r2 ∈ balance_table d →
    of_broker_account e r1 →
    (of_broker_account e r2 ↔
     BalanceRow.broker_account_id r2 = BalanceRow.broker_account_id r1).

(** A configured ledger with unique primary keys and [grouped] broker
    accounts; the empty ledger is one. *)
Definition ledger_wf (e : Engine) : Prop :=
  ∃ d, db e = Some d ∧ NoDup (BalanceRow.id <$> balance_table d) ∧ grouped e d.

(** The conservation law: over the rows sharing the [broker_account_id] of
    the engine's broker account, cash and power add up to the snapshot. *)
Definition conserved (bb : AccountBalance) (e : Engine) : Prop :=
  ∃ d r rest,
    db e = Some d ∧
    filter (of_broker_account e) (balance_table d) = r :: rest ∧
    let rows := filter (λ r', BalanceRow.broker_account_id r' =
                              BalanceRow.broker_account_id r) (balance_table d) in
    sum (BalanceRow.cash <$> rows) = cash bb ∧
    sum (BalanceRow.power <$> rows) = power bb.

(** A sequence of calls of [sync_broker_balance], each with the snapshot
    the broker returned and its two clock readings. *)
Definition sync_sequence (calls : list (AccountBalance * (datetime * datetime)))
  : M unit :=
  for_each calls (λ call,
    sync_broker_balance (Some call.1) call.2.1 call.2.2).

(** The writes the ledger has received so far. *)
Definition ledger_writes (e : Engine) : list write :=
  default [] (writes <$> db e).

(** *** Position reconciliation *)

(** The test of line 291, negated. *)
Definition matches (db_pos brk_pos : PositionData) : Prop :=
  security brk_pos = security db_pos ∧ direction brk_pos = direction db_pos.

Global Instance matches_dec db_pos brk_pos : Decision (matches db_pos brk_pos).
Proof. unfold matches. apply _. Defined.

(** The [PositionData] of lines 302-308 when no error is raised. *)
Definition remainder_of (brk_pos db_pos : PositionData) : PositionData :=
  let q := quantity brk_pos - quantity db_pos in
  mkPositionData (security db_pos) (direction db_pos)
    (if decide (0 < q) then
       (holding_price brk_pos * quantity brk_pos
        - holding_price db_pos * quantity db_pos) / q
     else -1)
    q (update_time db_pos).

(** A broker position after one ledger position went through the loop. *)
Definition deducted (db_pos brk_pos : PositionData) : PositionData :=
  if decide (matches db_pos brk_pos) then remainder_of brk_pos db_pos
  else brk_pos.

(** The broker holds at least what the ledger position claims. *)
Definition covers (db_pos brk_pos : PositionData) : Prop :=
  matches db_pos brk_pos → 0 ≤ quantity brk_pos - quantity db_pos.

Global Instance covers_dec db_pos brk_pos : Decision (covers db_pos brk_pos).
Proof. unfold covers. apply _. Defined.

(** *** Persistence *)

(** A position as it is read back from the row written for it: the time
    stamp went through [strptime]. *)
Definition reloaded (p : PositionData) : PositionData :=
  mkPositionData (security p) (direction p) (holding_price p) (quantity p)
    (strptime (update_time p)).

(** A direction [convert_direction_db2qt] accepts. *)
Definition valid_direction (row : PositionRow.t) : Prop :=
  PositionRow.direction row ∈ ["LONG"; "SHORT"; "NET"].

(** The body of the loop of [get_db_position]. *)
Definition read_row `{PositionUpdate} (position : Position)
    (row : PositionRow.t) : M Position :=
  position_data ← position_data_of_row row;
  mret (Position_update_OPEN position position_data).

(** The rows [get_db_position] selects. *)
Definition rows_of (balance_id : Z) (d : DB) : list PositionRow.t :=
  filter (λ r, PositionRow.balance_id r = balance_id) (position_table d).

(** The dictionary [updates] of [persist_account_balance]. *)
Definition updates_of (account_balance db_balance : AccountBalance)
  : list (field * Qc) :=
  omap (λ field,
    if decide (getattr account_balance field ≠ getattr db_balance field)
    then Some (field, getattr account_balance field) else None)
    [Cash; Power; MaxPowerShort; NetCashPower].

(** The filter of the update of [persist_account_balance]. *)
Definition of_strategy (e : Engine) (r : BalanceRow.t) : Prop :=
  BalanceRow.strategy_account r = strategy_account e ∧
  BalanceRow.strategy_version r = strategy_version e.

Global Instance of_strategy_dec e r : Decision (of_strategy e r).
Proof. unfold of_strategy. apply _. Defined.

(** One row under the update of [persist_account_balance], [r] being the
    row [get_db_balance] read. *)
Definition store_balance (e : Engine) (ab : AccountBalance) (r : BalanceRow.t)
  : BalanceRow.t → BalanceRow.t :=
  λ r', if decide (of_strategy e r') then
          set_columns (updates_of ab (balance_of_row r)) r'
        else r'.

(** The ledger after [persist_account_balance]. *)
Definition stored_balance (e : Engine) (ab : AccountBalance) (r : BalanceRow.t)
    (d : DB) : DB :=
  if decide (updates_of ab (balance_of_row r) ≠ []) then
    mkDB (store_balance e ab r <$> balance_table d) (position_table d)
         (Update "balance" :: writes d)
  else d.

(** *** Further vocabulary *)

(** Two rows that agree on everything but the four numeric columns. *)
Definition same_but_amounts (r r' : BalanceRow.t) : Prop :=
  same_header r r' ∧
  BalanceRow.strategy_account_id r' = BalanceRow.strategy_account_id r ∧
  BalanceRow.strategy_version_desc r' = BalanceRow.strategy_version_desc r ∧
  BalanceRow.strategy_status r' = BalanceRow.strategy_status r ∧
  BalanceRow.update_time r' = BalanceRow.update_time r ∧
  BalanceRow.remark r' = BalanceRow.remark r.

(** [m] relates every engine it is run on to the engine it leaves, whether
    it returns or raises. *)
Definition keeps (R : Engine → Engine → Prop) {A} (m : M A) : Prop :=
  ∀ e, R e (final (m e)).

(** The identity, the in-memory account balance and the balance table. *)
Definition same_balances (e e' : Engine) : Prop :=
  gateway_broker_name e' = gateway_broker_name e ∧
  trade_mode_name e' = trade_mode_name e ∧
  gateway_broker_account e' = gateway_broker_account e ∧
  strategy_account e' = strategy_account e ∧
  strategy_version e' = strategy_version e ∧
  account_balance (portfolio e') = account_balance (portfolio e) ∧
  balance_table <$> db e' = balance_table <$> db e.

(** The identity, the in-memory position table and the position table. *)
Definition same_positions (e e' : Engine) : Prop :=
  gateway_broker_name e' = gateway_broker_name e ∧
  trade_mode_name e' = trade_mode_name e ∧
  gateway_broker_account e' = gateway_broker_account e ∧
  strategy_account e' = strategy_account e ∧
  strategy_version e' = strategy_version e ∧
  position (portfolio e') = position (portfolio e) ∧
  position_table <$> db e' = position_table <$> db e.

(** The decoded row, when its direction is one of the three names. *)
Definition row_data (row : PositionRow.t) : option PositionData :=
  let security := mkStock (PositionRow.security_code row)
                          (PositionRow.security_name row) in
  if decide (PositionRow.direction row = "LONG") then
    Some (mkPositionData security LONG (PositionRow.holding_price row)
            (PositionRow.quantity row) (strptime (PositionRow.update_time row)))
  else if decide (PositionRow.direction row = "SHORT") then
    Some (mkPositionData security SHORT (PositionRow.holding_price row)
            (PositionRow.quantity row) (strptime (PositionRow.update_time row)))
  else if decide (PositionRow.direction row = "NET") then
    Some (mkPositionData security NET (PositionRow.holding_price row)
            (PositionRow.quantity row) (strptime (PositionRow.update_time row)))
  else None.

(** The key a position is held under. *)
Definition key_of (pd : PositionData) : Stock * Direction :=
  (security pd, direction pd).

(** The test of lines 242-244: the default row [sync_broker_position]
    looks for. *)
Definition is_default_1_0 (r : BalanceRow.t) : Prop :=
  BalanceRow.strategy_account r = "default" ∧
  BalanceRow.strategy_version r = "1.0".

Global Instance is_default_1_0_dec r : Decision (is_default_1_0 r).
Proof. unfold is_default_1_0. apply _. Defined.

(** [position_df] of line 236: the position rows of the engine's broker
    account. *)
Definition account_positions (e : Engine) (d : DB) : list PositionRow.t :=
  filter (λ row, PositionRow.balance_id row ∈ BalanceRow.id <$> account_rows e d)
         (position_table d).

(** Lines 252-329 of [sync_broker_position]: what follows the look-ups in
    the table [balance]. *)
Definition sync_positions `{PositionUpdate} (abp : list PositionData)
    (position_df : list PositionRow.t) (strat_balance_id default_balance_id : Z)
  : M unit :=
  match position_df with
  | [] =>
    for_each abp (λ broker_position,
      insert_position (position_row default_balance_id broker_position));;
    assign_position ∅
  | _ =>
    all_broker_positions ←
      fold_each (filter (λ r, PositionRow.balance_id r ≠ default_balance_id)
                        position_df) abp
        (λ all_broker_positions row,
           db_pos ← position_data_of_row row;
           deduct db_pos all_broker_positions);
    delete_position (λ r, PositionRow.balance_id r = default_balance_id);;
    for_each all_broker_positions (λ broker_position,
      if decide (0 < quantity broker_position) then
        insert_position (position_row default_balance_id broker_position)
      else mret ());;
    position ← get_db_position strat_balance_id;
    assign_position (default ∅ position)
  end.

(** A position row without its primary key. *)
Definition forget_id (row : PositionRow.t) : PositionRow.t :=
  PositionRow.mk 0 (PositionRow.balance_id row) (PositionRow.security_code row)
    (PositionRow.security_name row) (PositionRow.direction row)
    (PositionRow.holding_price row) (PositionRow.quantity row)
    (PositionRow.update_time row).

(** The broker positions after the ledger positions [pds] went through the
    loop of lines 276-308 one after the other: each takes its [remainder_of]
    out of the broker positions that match it; [None] when one of them is
    not covered by what is left for it. *)
Fixpoint deducted_all (pds all_broker_positions : list PositionData)
  : option (list PositionData) :=
  match pds with
  | [] => Some all_broker_positions
  | db_pos :: pds' =>
    if decide (Forall (covers db_pos) all_broker_positions) then
      deducted_all pds' (deducted db_pos <$> all_broker_positions)
    else None
  end.

(** The ledger after [delete_records(table_name="position", balance_id=id)]. *)
Definition without_rows_of (balance_id : Z) (d : DB) : DB :=
  mkDB (balance_table d)
       (filter (λ r, ¬ PositionRow.balance_id r = balance_id) (position_table d))
       (Delete "position" :: writes d).

(** ** The balance reconciler on binary64

    Python computes the amounts of [sync_broker_balance] on floats:
    [init_strategy_cash:float] (line 60), the subtractions of lines 146,
    147 and 192, the [sum] of line 192 and the addition of lines 194 and
    202.  This module repeats the balance reconciler with the amounts as
    IEEE 754 binary64 numbers and their rounding; the position table and
    the in-memory positions, which the balance reconciler never reads or
    writes, are left out. *)

Local Set Warnings "-inexact-float".

Module Binary64.

(** Equality of floats as values of the program: bit for bit, so [-0.0] is
    not [0.0] and a NaN is itself. *)
Global Instance float_eq_dec : EqDecision float.
Proof.
  intros x y. destruct (PrimFloat.Leibniz.eqb x y) eqn:E.
  - left. by apply FloatAxioms.Leibniz.eqb_spec.
  - right. intros Heq. apply FloatAxioms.Leibniz.eqb_spec in Heq. congruence.
Defined.

(** [AccountBalance], its four amounts as floats. *)
Record AccountBalance := mkAccountBalance {
  cash : float;
  power : float;
  max_power_short : float;
  net_cash_power : float
}.

Global Instance AccountBalance_eq_dec : EqDecision AccountBalance.
Proof. solve_decision. Defined.

(** A row of the table [balance]. *)
Module BalanceRow.
Record t := mk {
  id : Z;
  broker_name : string;
  broker_environment : string;
  broker_account : string;
  broker_account_id : Z;
  strategy_account : string;
  strategy_account_id : Z;
  strategy_version : string;
  strategy_version_desc : string;
  strategy_status : string;
  cash : float;
  power : float;
  max_power_short : float;
  net_cash_power : float;
  update_time : datetime;
  remark : string
}.
Global Instance eq_dec : EqDecision t.
Proof. solve_decision. Defined.
End BalanceRow.

(** [getattr(account_balance, field)] *)
Definition getattr (a : AccountBalance) (f : field) : float :=
  match f with
  | Cash => cash a
  | Power => power a
  | MaxPowerShort => max_power_short a
  | NetCashPower => net_cash_power a
  end.

(** [row[field]] *)
Definition column (f : field) (r : BalanceRow.t) : float :=
  match f with
  | Cash => BalanceRow.cash r
  | Power => BalanceRow.power r
  | MaxPowerShort => BalanceRow.max_power_short r
  | NetCashPower => BalanceRow.net_cash_power r
  end.

Definition set_column (f : field) (v : float) (r : BalanceRow.t) : BalanceRow.t :=
  let c := match f with Cash => v | _ => BalanceRow.cash r end in
  let p := match f with Power => v | _ => BalanceRow.power r end in
  let m := match f with MaxPowerShort => v | _ => BalanceRow.max_power_short r end in
  let n := match f with NetCashPower => v | _ => BalanceRow.net_cash_power r end in
  BalanceRow.mk (BalanceRow.id r) (BalanceRow.broker_name r)
    (BalanceRow.broker_environment r) (BalanceRow.broker_account r)
    (BalanceRow.broker_account_id r) (BalanceRow.strategy_account r)
    (BalanceRow.strategy_account_id r) (BalanceRow.strategy_version r)
    (BalanceRow.strategy_version_desc r) (BalanceRow.strategy_status r)
    c p m n (BalanceRow.update_time r) (BalanceRow.remark r).

(** Modelled from the spec: the ledger, as [DB] above, with the table
    [balance] only. *)
Record DB := mkDB {
  balance_table : list BalanceRow.t;
  writes : list write
}.

Global Instance DB_eq_dec : EqDecision DB.
Proof. solve_decision. Defined.

(** Python's [sum] on floats: starts at 0 and adds from the left, rounding
    after each addition. *)
Definition sum (l : list float) : float := foldl PrimFloat.add 0%float l.

(** The part of [Engine] the balance reconciler reads and writes. *)
Record Engine := mkEngine {
  gateway_broker_name : string;
  trade_mode_name : string;
  gateway_broker_account : string;
  strategy_account : string;
  strategy_version : string;
  account_balance : option AccountBalance;  (* self.portfolio.account_balance *)
  db : option DB
}.

Global Instance Engine_eq_dec : EqDecision Engine.
Proof. solve_decision. Defined.

Definition set_db (d : DB) (e : Engine) : Engine :=
  mkEngine (gateway_broker_name e) (trade_mode_name e)
    (gateway_broker_account e) (strategy_account e) (strategy_version e)
    (account_balance e) (Some d).

Inductive outcome (A : Type) :=
  | Done (a : A) (e : Engine)
  | Raised (x : exn) (e : Engine).
Arguments Done {A} a e.
Arguments Raised {A} x e.

Global Instance outcome_eq_dec `{EqDecision A} : EqDecision (outcome A).
Proof. solve_decision. Defined.

Definition M (A : Type) : Type := Engine → outcome A.

Global Instance M_ret : MRet M := λ A a e, Done a e.
Global Instance M_bind : MBind M := λ A B k m e,
  match m e with
  | Done a e' => k a e'
  | Raised x e' => Raised x e'
  end.

Definition raise {A} (x : exn) : M A := λ e, Raised x e.
Definition get : M Engine := λ e, Done e e.

(** [assert cond], the condition being a comparison of floats. *)
Definition assert (cond : bool) : M unit :=
  if cond then mret () else raise AssertionError.

Fixpoint for_each {A} (xs : list A) (body : A → M unit) : M unit :=
  match xs with
  | [] => mret ()
  | x :: xs' => body x ;; for_each xs' body
  end.

Definition final {A} (o : outcome A) : Engine :=
  match o with Done _ e => e | Raised _ e => e end.

(** [self.portfolio.account_balance = v] *)
Definition assign_account_balance (v : option AccountBalance) : M unit :=
  λ e, Done () (mkEngine (gateway_broker_name e) (trade_mode_name e)
                  (gateway_broker_account e) (strategy_account e)
                  (strategy_version e) v (db e)).

Definition the_db : M DB :=
  λ e, match db e with Some d => Done d e | None => Raised AttributeError e end.

Definition put_db (d : DB) : M unit := λ e, Done () (set_db d e).

Definition select_balance (P : BalanceRow.t → Prop) `{∀ r, Decision (P r)}
  : M (list BalanceRow.t) :=
  d ← the_db; mret (filter P (balance_table d)).

Definition insert_balance (mk_row : Z → BalanceRow.t) : M unit :=
  d ← the_db;
  let r := mk_row (fresh_id (BalanceRow.id <$> balance_table d)) in
  put_db (mkDB (balance_table d ++ [r]) (Insert "balance" :: writes d)).

(** [db.update_records(table_name="balance", columns={field: value}, id=id_)] *)
Definition update_balance (f : field) (v : float) (id_ : Z) : M unit :=
  d ← the_db;
  let rows := (λ r, if decide (BalanceRow.id r = id_) then set_column f v r else r)
                <$> balance_table d in
  put_db (mkDB rows (Update "balance" :: writes d)).

Definition of_broker_account (e : Engine) (r : BalanceRow.t) : Prop :=
  BalanceRow.broker_name r = gateway_broker_name e ∧
  BalanceRow.broker_environment r = trade_mode_name e ∧
  BalanceRow.broker_account r = gateway_broker_account e.

Global Instance of_broker_account_dec e r : Decision (of_broker_account e r).
Proof. unfold of_broker_account. apply _. Defined.

(** [Engine.get_db_balance] *)
Definition get_db_balance (strategy_account strategy_version : string)
  : M (option AccountBalance) :=
  e ← get;
  balance_df ← select_balance (λ r,
    of_broker_account e r ∧
    BalanceRow.strategy_account r = strategy_account ∧
    BalanceRow.strategy_version r = strategy_version);
  match balance_df with
  | [] => mret None
  | r :: rest =>
    assert (bool_decide (length balance_df = 1%nat));;
    mret (Some (mkAccountBalance (BalanceRow.cash r) (BalanceRow.power r)
                  (BalanceRow.max_power_short r) (BalanceRow.net_cash_power r)))
  end.

(** The first-time branch of [sync_broker_balance]: lines 138-186.  The
    subtractions of lines 146 and 147 round; [cash >= 0] is the comparison
    of floats. *)
Definition sync_broker_balance_first_time (broker_balance : AccountBalance)
    (now1 now2 : datetime) : M unit :=
  e ← get;
  account_ids ← select_balance (λ _, True);
  let broker_account_id :=
    match account_ids with
    | [] => 1%Z
    | _ => (max_of (BalanceRow.broker_account_id <$> account_ids) + 1)%Z
    end in
  let strategy_account_id :=
    match account_ids with
    | [] => 1%Z
    | _ => (max_of (BalanceRow.strategy_account_id <$> account_ids) + 1)%Z
    end in
  match account_balance e with
  | None => raise AttributeError
  | Some local =>
    let cash' := PrimFloat.sub (cash broker_balance) (cash local) in
    let power' := PrimFloat.sub (power broker_balance) (power local) in
    assert (PrimFloat.leb 0 cash');;
    assert (PrimFloat.leb 0 power');;
    insert_balance (λ id, BalanceRow.mk id
      (gateway_broker_name e) (trade_mode_name e) (gateway_broker_account e)
      broker_account_id "default" strategy_account_id (strategy_version e)
      "manual trading" "active" cash' power' (-1) (-1) now1 "N/A");;
    insert_balance (λ id, BalanceRow.mk id
      (gateway_broker_name e) (trade_mode_name e) (gateway_broker_account e)
      broker_account_id (strategy_account e) (strategy_account_id + 1)%Z
      (strategy_version e) "" "active" (cash local) (power local)
      (-1) (-1) now2 "N/A")
  end.

(** The subsequent-times branch of [sync_broker_balance]: lines 188-204.
    [delta_val != 0] is the comparison of floats. *)
Definition sync_broker_balance_subsequent (broker_balance : AccountBalance)
    (balance_df : list BalanceRow.t) : M unit :=
  match filter (λ r, BalanceRow.strategy_account r = "default") balance_df with
  | [] => raise IndexError
  | default_row :: _ =>
    let id_ := BalanceRow.id default_row in
    for_each [Cash; Power] (λ field,
      let delta_val :=
        PrimFloat.sub (getattr broker_balance field)
                      (sum (column field <$> balance_df)) in
      let current_val := column field default_row in
      assert (PrimFloat.leb 0 (PrimFloat.add current_val delta_val));;
      if negb (PrimFloat.eqb delta_val 0) then
        update_balance field (PrimFloat.add current_val delta_val) id_
      else mret ())
  end.

(** [Engine.sync_broker_balance] *)
Definition sync_broker_balance (broker_balance : option AccountBalance)
    (now1 now2 : datetime) : M unit :=
  match broker_balance with
  | None => mret ()
  | Some broker_balance =>
    e ← get;
    match db e with
    | None => assign_account_balance (Some broker_balance)
    | Some _ =>
      balance_df ← select_balance (of_broker_account e);
      match balance_df with
      | [] => sync_broker_balance_first_time broker_balance now1 now2
      | _ => sync_broker_balance_subsequent broker_balance balance_df
      end;;
      account_balance ← get_db_balance (strategy_account e) (strategy_version e);
      assign_account_balance account_balance
    end
  end.

(** A sequence of calls of [sync_broker_balance]. *)
Definition sync_sequence (calls : list (AccountBalance * (datetime * datetime)))
  : M unit :=
  for_each calls (λ call,
    sync_broker_balance (Some call.1) call.2.1 call.2.2).

(** *** What the reconciler leaves in the ledger *)

Definition account_rows (e : Engine) (d : DB) : list BalanceRow.t :=
  filter (of_broker_account e) (balance_table d).

Definition is_default (r : BalanceRow.t) : Prop :=
  BalanceRow.strategy_account r = "default".

Global Instance is_default_dec r : Decision (is_default r).
Proof. unfold is_default. apply _. Defined.

Definition strategy_rows (e : Engine) (sa sv : string) (d : DB)
  : list BalanceRow.t :=
  filter (λ r, of_broker_account e r ∧
               BalanceRow.strategy_account r = sa ∧
               BalanceRow.strategy_version r = sv) (balance_table d).

Definition balance_of_row (r : BalanceRow.t) : AccountBalance :=
  mkAccountBalance (BalanceRow.cash r) (BalanceRow.power r)
    (BalanceRow.max_power_short r) (BalanceRow.net_cash_power r).

(** [delta_val] of line 192, rounded twice: in the sum and in the
    difference. *)
Definition delta (f : field) (bb : AccountBalance)
    (balance_df : list BalanceRow.t) : float :=
  PrimFloat.sub (getattr bb f) (sum (column f <$> balance_df)).

(** One row under [update_records(columns={f: v}, id=id_)]. *)
Definition amend (f : field) (id_ : Z) (v : float) (r : BalanceRow.t)
  : BalanceRow.t :=
  if decide (BalanceRow.id r = id_) then set_column f v r else r.

(** The ledger after one turn of the loop of lines 191-204 whose assertion
    passed. *)
Definition reconcile (f : field) (bb : AccountBalance)
    (balance_df : list BalanceRow.t) (default_row : BalanceRow.t) (d : DB) : DB :=
  if negb (PrimFloat.eqb (delta f bb balance_df) 0) then
    mkDB (amend f (BalanceRow.id default_row)
            (PrimFloat.add (column f default_row) (delta f bb balance_df))
          <$> balance_table d)
         (Update "balance" :: writes d)
  else d.

Definition next_account_id (proj : BalanceRow.t → Z)
    (account_ids : list BalanceRow.t) : Z :=
  match account_ids with
  | [] => 1%Z
  | _ => (max_of (proj <$> account_ids) + 1)%Z
  end.

(** The row inserted by lines 150-167. *)
Definition default_row_of (e : Engine) (bb local : AccountBalance)
    (now1 : datetime) (d : DB) : BalanceRow.t :=
  BalanceRow.mk (fresh_id (BalanceRow.id <$> balance_table d))
    (gateway_broker_name e) (trade_mode_name e) (gateway_broker_account e)
    (next_account_id BalanceRow.broker_account_id (balance_table d))
    "default"
    (next_account_id BalanceRow.strategy_account_id (balance_table d))
    (strategy_version e) "manual trading" "active"
    (PrimFloat.sub (cash bb) (cash local))
    (PrimFloat.sub (power bb) (power local)) (-1) (-1) now1 "N/A".

(** The row inserted by lines 169-186. *)
Definition strategy_row_of (e : Engine) (bb local : AccountBalance)
    (now1 now2 : datetime) (d : DB) : BalanceRow.t :=
  BalanceRow.mk
    (fresh_id (BalanceRow.id <$>
                 (balance_table d ++ [default_row_of e bb local now1 d])))
    (gateway_broker_name e) (trade_mode_name e) (gateway_broker_account e)
    (next_account_id BalanceRow.broker_account_id (balance_table d))
    (strategy_account e)
    (next_account_id BalanceRow.strategy_account_id (balance_table d) + 1)%Z
    (strategy_version e) "" "active"
    (cash local) (power local) (-1) (-1) now2 "N/A".

(** The ledger after the first-time branch. *)
Definition bootstrap (e : Engine) (bb local : AccountBalance)
    (now1 now2 : datetime) (d : DB) : DB :=
  mkDB (balance_table d ++ [default_row_of e bb local now1 d;
                            strategy_row_of e bb local now1 now2 d])
       (Insert "balance" :: Insert "balance" :: writes d).

(** The writes the ledger has received so far. *)
Definition ledger_writes (e : Engine) : list write :=
  default [] (writes <$> db e).

End Binary64.

(** ** Floats and the rationals they stand for *)

(** A float that is a number: neither an infinity nor a NaN. *)
Definition finite (x : float) : Prop :=
  match Prim2SF x with
  | S754_zero _ | S754_finite _ _ _ => True
  | _ => False
  end.

Global Instance finite_dec x : Decision (finite x).
Proof. unfold finite. destruct (Prim2SF x); apply _. Defined.

(** The mantissa with its sign. *)
Definition signed (s : bool) (m : positive) : Z :=
  if s then Z.neg m else Z.pos m.

(** The rational a finite float stands for, [signed s m * 2 ^ e]; 0 for
    the others. *)
Definition value (x : float) : Qc :=
  match Prim2SF x with
  | S754_finite s m e =>
    Q2Qc match e with
         | Z0 => Qmake (signed s m) 1
         | Z.pos p => Qmake (signed s (m * 2 ^ p)) 1
         | Z.neg p => Qmake (signed s m) (2 ^ p)
         end
  | _ => 0
  end.

(** [a - b] and [a + b] without rounding: the result is a number, the
    difference or the sum of the two rationals. *)
Definition exact_sub (a b : float) : Prop :=
  finite (PrimFloat.sub a b) ∧ value (PrimFloat.sub a b) = value a - value b.

Definition exact_add (a b : float) : Prop :=
  finite (PrimFloat.add a b) ∧ value (PrimFloat.add a b) = value a + value b.

Global Instance exact_sub_dec a b : Decision (exact_sub a b).
Proof. unfold exact_sub. apply _. Defined.
Global Instance exact_add_dec a b : Decision (exact_add a b).
Proof. unfold exact_add. apply _. Defined.

(** Python's [sum] without rounding: each of its additions is exact. *)
Fixpoint exact_adds (acc : float) (l : list float) : Prop :=
  match l with
  | [] => True
  | x :: l' => exact_add acc x ∧ exact_adds (PrimFloat.add acc x) l'
  end.

Global Instance exact_adds_dec acc l : Decision (exact_adds acc l).
Proof. revert acc. induction l; intros acc; simpl; apply _. Defined.

Definition exact_sum (l : list float) : Prop := exact_adds 0%float l.

Global Instance exact_sum_dec l : Decision (exact_sum l).
Proof. unfold exact_sum. apply _. Defined.

(** *** The reconciler in exact arithmetic

    The engine of the first part computes on [Qc]: it is the binary64
    reconciler with every amount replaced by the rational it stands for,
    and describes a call of the binary64 reconciler whenever the
    additions and subtractions of that call do not round
    ([exact_sync_broker_balance]). *)

Definition exact_balance (a : Binary64.AccountBalance) : AccountBalance :=
  mkAccountBalance (value (Binary64.cash a)) (value (Binary64.power a))
    (value (Binary64.max_power_short a)) (value (Binary64.net_cash_power a)).

Definition exact_row (r : Binary64.BalanceRow.t) : BalanceRow.t :=
  BalanceRow.mk (Binary64.BalanceRow.id r) (Binary64.BalanceRow.broker_name r)
    (Binary64.BalanceRow.broker_environment r)
    (Binary64.BalanceRow.broker_account r)
    (Binary64.BalanceRow.broker_account_id r)
    (Binary64.BalanceRow.strategy_account r)
    (Binary64.BalanceRow.strategy_account_id r)
    (Binary64.BalanceRow.strategy_version r)
    (Binary64.BalanceRow.strategy_version_desc r)
    (Binary64.BalanceRow.strategy_status r)
    (value (Binary64.BalanceRow.cash r)) (value (Binary64.BalanceRow.power r))
    (value (Binary64.BalanceRow.max_power_short r))
    (value (Binary64.BalanceRow.net_cash_power r))
    (Binary64.BalanceRow.update_time r) (Binary64.BalanceRow.remark r).

Definition exact_db (d : Binary64.DB) : DB :=
  mkDB (exact_row <$> Binary64.balance_table d) [] (Binary64.writes d).

Definition exact_engine (e : Binary64.Engine) : Engine :=
  mkEngine (Binary64.gateway_broker_name e) (Binary64.trade_mode_name e)
    (Binary64.gateway_broker_account e) (Binary64.strategy_account e)
    (Binary64.strategy_version e)
    (mkPortfolio (exact_balance <$> Binary64.account_balance e) ∅)
    (exact_db <$> Binary64.db e).

Definition exact_outcome (o : Binary64.outcome unit) : outcome unit :=
  match o with
  | Binary64.Done a e => Done a (exact_engine e)
  | Binary64.Raised x e => Raised x (exact_engine e)
  end.

(** The additions and subtractions of one call of [sync_broker_balance]
    with the snapshot [bb], from the engine [e], do not round: those of
    lines 146 and 147 in the first-time branch; in the other branch, for
    cash and for power, the sum and the difference of line 192 and the
    addition of lines 194 and 202. *)
Definition exact_call (bb : Binary64.AccountBalance) (e : Binary64.Engine)
  : Prop :=
  match Binary64.db e with
  | None => True
  | Some d =>
    match Binary64.account_rows e d with
    | [] =>
      match Binary64.account_balance e with
      | None => True
      | Some local =>
        exact_sub (Binary64.cash bb) (Binary64.cash local) ∧
        exact_sub (Binary64.power bb) (Binary64.power local)
      end
    | balance_df =>
      match filter Binary64.is_default balance_df with
      | [] => True
      | default_row :: _ =>
        Forall (λ f,
          exact_sum (Binary64.column f <$> balance_df) ∧
          exact_sub (Binary64.getattr bb f)
                    (Binary64.sum (Binary64.column f <$> balance_df)) ∧
          exact_add (Binary64.column f default_row)
                    (Binary64.delta f bb balance_df)) [Cash; Power]
      end
    end
  end.

Global Instance exact_call_dec bb e : Decision (exact_call bb e).
Proof. unfold exact_call. repeat case_match; apply _. Defined.

(** ** Concrete ledgers and snapshots *)

(** An integer amount. *)
Notation "# z" := (Qc_of_Z z%Z) (at level 9, format "# z").

(** An instance of [PositionUpdate] for running the engine: an OPEN update
    of a key already held overwrites the entry. *)
Definition overwrite : PositionUpdate := λ old new, new.

Module Examples.

Definition tencent : Stock := mkStock "HK.00700" "Tencent".
Definition hsbc : Stock := mkStock "HK.00005" "HSBC".

(** A long position in Tencent, stamped 0. *)
Definition long_tencent (price qty : Qc) : PositionData :=
  mkPositionData tencent LONG price qty 0.

(** The strategy "strat" on the simulated account "acc-1" at Futu, running
    version [sv], holding [pos], with the ledger [d]. *)
Definition engine (sv : string) (pos : Position) (d : DB) : Engine :=
  mkEngine "Futu" "SIMULATE" "acc-1" "strat" sv
    (mkPortfolio (Some (mkAccountBalance #300 #500 (-1) (-1))) pos) (Some d).

(** The same strategy without a ledger. *)
Definition engine_without_db : Engine :=
  mkEngine "Futu" "SIMULATE" "acc-1" "strat" "1.0"
    (mkPortfolio (Some (mkAccountBalance #300 #500 (-1) (-1))) ∅) None.

Definition empty_ledger : DB := mkDB [] [] [].

(** The broker reports 1000 cash and 2000 power. *)
Definition broker_balance : AccountBalance := mkAccountBalance #1000 #2000 0 0.


(** The two balance rows a first-time sync leaves for a strategy of
    version [sv], at the clock readings 5 and 6. *)
Definition default_row (sv : string) (c p : Qc) : BalanceRow.t :=
  BalanceRow.mk 1 "Futu" "SIMULATE" "acc-1" 1 "default" 1 sv
    "manual trading" "active" c p (-1) (-1) 5 "N/A".

Definition strategy_row (sv : string) : BalanceRow.t :=
  BalanceRow.mk 2 "Futu" "SIMULATE" "acc-1" 1 "strat" 2 sv
    "" "active" #300 #500 (-1) (-1) 6 "N/A".

Definition balances (sv : string) : list BalanceRow.t :=
  [default_row sv #700 #1500; strategy_row sv].

Definition bootstrapped (sv : string) : DB :=
  mkDB (balances sv) [] [Insert "balance"; Insert "balance"].

(** 40 Tencent at 8, attributed to the strategy (balance row 2). *)
Definition strategy_position_row : PositionRow.t :=
  PositionRow.mk 1 2 "HK.00700" "Tencent" "LONG" #8 #40 0.

(** 100 Tencent at 10 in the default bucket (balance row 1). *)
Definition default_position_row : PositionRow.t :=
  PositionRow.mk 1 1 "HK.00700" "Tencent" "LONG" #10 #100 0.

(** The strategy's in-memory table holding 40 Tencent at 8. *)
Definition strategy_position : Position :=
  {[ (tencent, LONG) := long_tencent #8 #40 ]}.

End Examples.

(** Further ledgers and engines. *)
Module Cases.
Import Examples.

(** A second strategy, "other", on the same broker account. *)
Definition other_engine (v : option AccountBalance) (d : DB) : Engine :=
  mkEngine "Futu" "SIMULATE" "acc-1" "other" "1.0" (mkPortfolio v ∅) (Some d).

(** The strategy "strat" with the in-memory balance [ab]. *)
Definition engine_with (ab : AccountBalance) (pos : Position) (d : DB) : Engine :=
  mkEngine "Futu" "SIMULATE" "acc-1" "strat" "1.0"
    (mkPortfolio (Some ab) pos) (Some d).

(** The strategy spent 50 of its 300 cash. *)
Definition spent : AccountBalance := mkAccountBalance #250 #500 (-1) (-1).

(** A position row of the strategy whose direction is no name of
    [Direction]. *)
Definition broken_position_row : PositionRow.t :=
  PositionRow.mk 2 2 "HK.00005" "HSBC" "FLAT" #5 #50 0.

(** A ledger with the strategy's 40 Tencent. *)
Definition ledger_with_position : DB :=
  mkDB (balances "1.0") [strategy_position_row] [].

(** The broker reports less cash, 100, than the strategy holds. *)
Definition poor : AccountBalance := mkAccountBalance #100 #2000 0 0.

(** The broker reports 200 more cash than the ledger holds. *)
Definition more_cash : AccountBalance := mkAccountBalance #1200 #2000 0 0.

(** The strategy's balance row once the 250 cash are persisted. *)
Definition spent_row : BalanceRow.t :=
  BalanceRow.mk 2 "Futu" "SIMULATE" "acc-1" 1 "strat" 2 "1.0"
    "" "active" #250 #500 (-1) (-1) 6 "N/A".

(** A ledger whose second position row cannot be decoded. *)
Definition broken_ledger : DB :=
  mkDB (balances "1.0") [strategy_position_row; broken_position_row] [].

(** 50 HSBC at 5, long. *)
Definition long_hsbc : PositionData := mkPositionData hsbc LONG #5 #50 0.

(** 40 Tencent at 8, stamped a second and a half. *)
Definition ticking : PositionData := mkPositionData tencent LONG #8 #40 1500000.

(** 50 HSBC at 5, stamped at the third second. *)
Definition hsbc_at_3s : PositionData := mkPositionData hsbc LONG #5 #50 3000000.

(** 50 HSBC at 5 in the default bucket (balance row 1). *)
Definition default_hsbc_row : PositionRow.t :=
  PositionRow.mk 2 1 "HK.00005" "HSBC" "LONG" #5 #50 0.

(** A ledger with the strategy's 40 Tencent and the default bucket's 50
    HSBC. *)
Definition ledger_with_both : DB :=
  mkDB (balances "1.0") [strategy_position_row; default_hsbc_row] [].

End Cases.

(** Engines and snapshots on binary64. *)
Module Rounding.

(** The strategy "strat" on the simulated account "acc-1" at Futu, with
    the in-memory balance [local] and the ledger [d]. *)
Definition engine (local : Binary64.AccountBalance) (d : Binary64.DB)
  : Binary64.Engine :=
  Binary64.mkEngine "Futu" "SIMULATE" "acc-1" "strat" "1.0" (Some local) (Some d).

Definition empty_ledger : Binary64.DB := Binary64.mkDB [] [].

(** Whole amounts: the strategy holds 300 and 500, the broker reports 1000
    and 2000, later 1200 and 2000. *)
Definition whole_local : Binary64.AccountBalance :=
  Binary64.mkAccountBalance 300 500 (-1) (-1).
Definition whole_broker : Binary64.AccountBalance :=
  Binary64.mkAccountBalance 1000 2000 0 0.
Definition more_cash : Binary64.AccountBalance :=
  Binary64.mkAccountBalance 1200 2000 0 0.

(** Amounts with cents: the strategy holds 300.7 cash, the broker reports
    1000.1; each literal is the binary64 number nearest to it, as in
    Python. *)
Definition cents_local : Binary64.AccountBalance :=
  Binary64.mkAccountBalance 300.7 500 (-1) (-1).
Definition cents_broker : Binary64.AccountBalance :=
  Binary64.mkAccountBalance 1000.1 2000 0 0.

(** The two balance rows of a first-time sync at the clock readings 5 and
    6, the default row holding [c] and [p], the strategy row [local]. *)
Definition default_row (c p : float) : Binary64.BalanceRow.t :=
  Binary64.BalanceRow.mk 1 "Futu" "SIMULATE" "acc-1" 1 "default" 1 "1.0"
    "manual trading" "active" c p (-1) (-1) 5 "N/A".

Definition strategy_row (local : Binary64.AccountBalance)
  : Binary64.BalanceRow.t :=
  Binary64.BalanceRow.mk 2 "Futu" "SIMULATE" "acc-1" 1 "strat" 2 "1.0"
    "" "active" (Binary64.cash local) (Binary64.power local) (-1) (-1) 6 "N/A".

(** The ledger after the first sync of the whole amounts, and after the
    second, with 1200 cash at the broker. *)
Definition whole_ledger : Binary64.DB :=
  Binary64.mkDB [default_row 700 1500; strategy_row whole_local]
    [Insert "balance"; Insert "balance"].
Definition whole_ledger_2 : Binary64.DB :=
  Binary64.mkDB [default_row 900 1500; strategy_row whole_local]
    [Update "balance"; Insert "balance"; Insert "balance"].

(** The ledger after the first sync of the amounts with cents: the default
    row holds the rounded difference, 699.4000000000001. *)
Definition cents_ledger : Binary64.DB :=
  Binary64.mkDB [default_row (PrimFloat.sub 1000.1 300.7) 1500;
                 strategy_row cents_local]
    [Insert "balance"; Insert "balance"].

End Rounding.

(** ** Properties *)

(** A closed equation between outcomes, by running the engine. *)
Ltac by_evaluation :=
  apply (bool_decide_eq_true_1 _); vm_compute; reflexivity.

(** A closed comparison of amounts. *)
Ltac by_comparison :=
  apply (bool_decide_unpack _); vm_compute; exact I.

(** *** The two branches of [sync_broker_balance], evaluated *)

Lemma set_db_same e d : db e = Some d → set_db d e = e.
Proof. destruct e; simpl; by intros ->. Qed.

Lemma subsequent_eval bb df r0 rest d e :
  db e = Some d →
  filter is_default df = r0 :: rest →
  sync_broker_balance_subsequent bb df e =
    if decide (0 ≤ column Cash r0 + delta Cash bb df) then
      if decide (0 ≤ column Power r0 + delta Power bb df) then
        Done () (set_db (reconcile Power bb df r0 (reconcile Cash bb df r0 d)) e)
      else Raised AssertionError (set_db (reconcile Cash bb df r0 d) e)
    else Raised AssertionError e.
Proof.
  intros Hdb Hdef. unfold sync_broker_balance_subsequent.
  change (filter _ df) with (filter is_default df). rewrite Hdef.
  destruct e as [bn env acct sa sv pf dbo]; simpl in Hdb; subst dbo.
  unfold reconcile, delta.
  cbn [for_each]. unfold mbind, M_bind, assert, mret, M_ret, raise.
  repeat case_decide; try done.
Qed.

(** *** Sums of a column under an update by primary key *)

Lemma foldl_Qcplus a l : foldl Qcplus a l = a + sum l.
Proof.
  revert a. induction l as [|x l IH]; intros a; unfold sum; simpl.
  - ring.
  - rewrite IH, (IH (0 + x)). ring.
Qed.

Lemma sum_cons x l : sum (x :: l) = x + sum l.
Proof. unfold sum at 1. simpl. rewrite foldl_Qcplus. ring. Qed.

Lemma column_set_column f v r : column f (set_column f v r) = v.
Proof. by destruct f. Qed.

Lemma column_set_column_ne f f' v r :
  f' ≠ f → column f' (set_column f v r) = column f' r.
Proof. by destruct f, f'. Qed.

Lemma column_amend f f' i v r :
  column f' (amend f i v r) =
    if decide (BalanceRow.id r = i ∧ f' = f) then v else column f' r.
Proof.
  unfold amend, set_columns. simpl.
  destruct (decide (BalanceRow.id r = i)) as [Hi|Hi].
  - destruct (decide (f' = f)) as [->|Hf].
    + rewrite decide_True by done. apply column_set_column.
    + rewrite decide_False by (by intros [_ ?]). by apply column_set_column_ne.
  - rewrite decide_False by (by intros [? _]). done.
Qed.

Lemma filter_fmap_stable {A} (P : A → Prop) `{∀ x, Decision (P x)} (g : A → A) (l : list A) :
  (∀ x, P (g x) ↔ P x) → filter P (g <$> l) = g <$> filter P l.
Proof.
  intros Hg. induction l as [|x l IH]; [done|].
  rewrite fmap_cons, !filter_cons. rewrite IH.
  destruct (decide (P (g x))) as [Hgx|Hgx], (decide (P x)) as [Hx|Hx];
    [done| | |done].
  - destruct Hx. by apply Hg.
  - destruct Hgx. by apply Hg.
Qed.

Lemma sum_column_amend_ne f f' i v (rows : list BalanceRow.t) :
  f' ≠ f → column f' <$> (amend f i v <$> rows) = column f' <$> rows.
Proof.
  intros Hne. rewrite <-list_fmap_compose. apply list_fmap_ext.
  intros k r _. simpl. rewrite column_amend.
  by rewrite decide_False by (by intros [_ ?]).
Qed.

Lemma sum_column_amend_absent f i v (rows : list BalanceRow.t) :
  i ∉ BalanceRow.id <$> rows →
  column f <$> (amend f i v <$> rows) = column f <$> rows.
Proof.
  intros Hi. rewrite <-list_fmap_compose. apply list_fmap_ext.
  intros k r Hr. simpl. rewrite column_amend. case_decide; [|done].
  destruct_and!. subst. exfalso. apply Hi.
  apply list_elem_of_fmap. exists r. split; [done|].
  by eapply list_elem_of_lookup_2.
Qed.

Lemma sum_column_amend f v r (rows : list BalanceRow.t) :
  NoDup (BalanceRow.id <$> rows) → r ∈ rows →
  sum (column f <$> (amend f (BalanceRow.id r) v <$> rows)) =
    sum (column f <$> rows) - column f r + v.
Proof.
  induction rows as [|x rows IH]; intros Hnd Hin.
  - by apply elem_of_nil in Hin.
  - rewrite fmap_cons in Hnd. apply NoDup_cons in Hnd as [Hx Hnd].
    rewrite !fmap_cons, !sum_cons.
    apply elem_of_cons in Hin as [->|Hin].
    + rewrite sum_column_amend_absent by done.
      rewrite column_amend. rewrite decide_True by done. ring.
    + rewrite IH by done. rewrite column_amend.
      rewrite decide_False; [ring|].
      intros [Hid _]. apply Hx. rewrite Hid.
      apply list_elem_of_fmap. by exists r.
Qed.

(** *** The first-time branch *)

Lemma filter_True_id {A} (l : list A) : filter (λ _, True) l = l.
Proof. induction l as [|x l IH]; [done|]. by rewrite filter_cons_True, IH. Qed.

Lemma first_time_eval bb n1 n2 e d local :
  db e = Some d → account_balance (portfolio e) = Some local →
  sync_broker_balance_first_time bb n1 n2 e =
    if decide (0 ≤ cash bb - cash local) then
      if decide (0 ≤ power bb - power local) then
        Done () (set_db (bootstrap e bb local n1 n2 d) e)
      else Raised AssertionError e
    else Raised AssertionError e.
Proof.
  intros Hdb Hloc.
  destruct e as [bn env acct sa sv [ab pos] dbo]; simpl in Hdb, Hloc; subst.
  unfold sync_broker_balance_first_time, select_balance, insert_balance,
    bootstrap, default_row_of, strategy_row_of, next_account_id.
  unfold mbind, M_bind, mret, M_ret, get, the_db, put_db, assert, raise.
  cbn [db portfolio account_balance]. rewrite filter_True_id.
  repeat case_decide; try done.
  cbn. rewrite <-app_assoc. done.
Qed.

(** *** The subsequent-times branch *)

Lemma balance_table_reconcile f bb df r0 d :
  balance_table (reconcile f bb df r0 d) = adjust f bb df r0 <$> balance_table d.
Proof.
  unfold reconcile, adjust. case_decide; [done|].
  by rewrite list_fmap_id.
Qed.

Lemma same_header_set_column f v r : same_header r (set_column f v r).
Proof. by destruct r. Qed.

Lemma same_header_amend f i v r : same_header r (amend f i v r).
Proof.
  unfold amend, set_columns. case_decide; [apply same_header_set_column|].
  by destruct r.
Qed.

Lemma same_header_adjust f bb df r0 r : same_header r (adjust f bb df r0 r).
Proof.
  unfold adjust. case_decide; [apply same_header_amend|]. by destruct r.
Qed.

Lemma column_adjust f f' bb df r0 r :
  column f' (adjust f bb df r0 r) =
    if decide (BalanceRow.id r = BalanceRow.id r0 ∧ f' = f ∧ delta f bb df ≠ 0)
    then column f r0 + delta f bb df else column f' r.
Proof.
  unfold adjust. destruct (decide (delta f bb df ≠ 0)) as [Hd|Hd].
  - rewrite column_amend.
    destruct (decide (BalanceRow.id r = BalanceRow.id r0 ∧ f' = f)) as [[??]|Hn].
    + by rewrite decide_True.
    + rewrite decide_False; [done|]. intros (?&?&?). by apply Hn.
  - rewrite decide_False; [done|]. by intros (?&?&?).
Qed.

Lemma ids_adjust f bb df r0 (rows : list BalanceRow.t) :
  BalanceRow.id <$> (adjust f bb df r0 <$> rows) = BalanceRow.id <$> rows.
Proof.
  rewrite <-list_fmap_compose. apply list_fmap_ext. intros k r _. simpl.
  apply same_header_adjust.
Qed.

Lemma filter_adjust (P : BalanceRow.t → Prop) `{∀ r, Decision (P r)}
    f bb df r0 (rows : list BalanceRow.t) :
  (∀ r r', same_header r r' → P r' ↔ P r) →
  filter P (adjust f bb df r0 <$> rows) = adjust f bb df r0 <$> filter P rows.
Proof.
  intros HP. apply filter_fmap_stable. intros r. apply HP, same_header_adjust.
Qed.

Lemma of_broker_account_header e r r' :
  same_header r r' → of_broker_account e r' ↔ of_broker_account e r.
Proof. unfold of_broker_account. intros (_&->&->&->&_). done. Qed.

Lemma is_default_header r r' : same_header r r' → is_default r' ↔ is_default r.
Proof. unfold is_default. intros (_&_&_&_&_&->&_). done. Qed.

Lemma sum_column_adjust_ne f f' bb df r0 (rows : list BalanceRow.t) :
  f' ≠ f → column f' <$> (adjust f bb df r0 <$> rows) = column f' <$> rows.
Proof.
  intros Hne. rewrite <-list_fmap_compose. apply list_fmap_ext.
  intros k r _. simpl. rewrite column_adjust.
  rewrite decide_False; [done|]. by intros (_&?&_).
Qed.

Lemma sum_column_adjust f bb df r0 r (rows : list BalanceRow.t) :
  NoDup (BalanceRow.id <$> rows) → r ∈ rows →
  BalanceRow.id r = BalanceRow.id r0 → column f r = column f r0 →
  sum (column f <$> (adjust f bb df r0 <$> rows)) =
    sum (column f <$> rows) + delta f bb df.
Proof.
  intros Hnd Hin Hid Hcol. unfold adjust.
  destruct (decide (delta f bb df ≠ 0)) as [Hd|Hd].
  - rewrite <-Hid, sum_column_amend by done. rewrite Hcol. ring.
  - apply dec_stable in Hd. rewrite Hd, list_fmap_id. ring.
Qed.

(** *** Fresh identifiers and the rows of a first-time sync *)

Lemma foldl_max_le a (l : list Z) :
  (a ≤ foldl Z.max a l)%Z ∧ ∀ y, y ∈ l → (y ≤ foldl Z.max a l)%Z.
Proof.
  revert a. induction l as [|x l IH]; intros a; simpl.
  - split; [lia|]. intros y Hy. by apply elem_of_nil in Hy.
  - destruct (IH (a `max` x)%Z) as [H1 H2]. split; [lia|].
    intros y [->|Hy]%elem_of_cons; [lia|by apply H2].
Qed.

Lemma max_of_le x (l : list Z) : x ∈ l → (x ≤ max_of l)%Z.
Proof.
  destruct l as [|a l]; [by intros ?%elem_of_nil|]. simpl.
  destruct (foldl_max_le a l) as [H1 H2].
  intros [->|Hx]%elem_of_cons; [done|by apply H2].
Qed.

Lemma fresh_id_fresh (ids : list Z) : fresh_id ids ∉ ids.
Proof.
  intros Hin. pose proof (max_of_le _ _ Hin) as Hle.
  unfold fresh_id in Hle. destruct ids; [by apply elem_of_nil in Hin|]. lia.
Qed.

Lemma next_account_id_fresh proj (rows : list BalanceRow.t) r :
  r ∈ rows → proj r ≠ next_account_id proj rows.
Proof.
  intros Hin Heq. assert (proj r ∈ proj <$> rows) as Hp.
  { apply list_elem_of_fmap. by exists r. }
  apply max_of_le in Hp. unfold next_account_id in Heq.
  destruct rows; [by apply elem_of_nil in Hin|]. lia.
Qed.

Lemma of_broker_account_default_row e bb local n1 d :
  of_broker_account e (default_row_of e bb local n1 d).
Proof. done. Qed.

Lemma of_broker_account_strategy_row e bb local n1 n2 d :
  of_broker_account e (strategy_row_of e bb local n1 n2 d).
Proof. done. Qed.

Lemma account_rows_bootstrap e bb local n1 n2 d :
  account_rows e d = [] →
  account_rows e (bootstrap e bb local n1 n2 d) =
    [default_row_of e bb local n1 d; strategy_row_of e bb local n1 n2 d].
Proof.
  unfold account_rows, bootstrap. cbn [balance_table]. intros Hnone.
  rewrite filter_app, Hnone.
  rewrite filter_cons_True by apply of_broker_account_default_row.
  rewrite filter_cons_True by apply of_broker_account_strategy_row.
  done.
Qed.

Lemma bootstrap_settled e bb local n1 n2 d :
  account_rows e d = [] →
  NoDup (BalanceRow.id <$> balance_table d) →
  0 ≤ cash bb - cash local → 0 ≤ power bb - power local →
  settled bb e (bootstrap e bb local n1 n2 d).
Proof.
  intros Hnone Hnd Hc Hp. unfold settled, account_total.
  rewrite account_rows_bootstrap by done. repeat split.
  - unfold bootstrap. cbn [balance_table].
    change [default_row_of e bb local n1 d; strategy_row_of e bb local n1 n2 d]
      with ([default_row_of e bb local n1 d] ++ [strategy_row_of e bb local n1 n2 d]).
    rewrite app_assoc, fmap_app. apply NoDup_app. split_and!.
    + rewrite fmap_app. apply NoDup_app. split_and!; [done| |apply NoDup_singleton].
      intros x Hx [->|[]%elem_of_nil]%elem_of_cons. revert Hx. apply fresh_id_fresh.
    + intros x Hx [->|[]%elem_of_nil]%elem_of_cons. revert Hx. apply fresh_id_fresh.
    + apply NoDup_singleton.
  - eexists _, _. split.
    { rewrite filter_cons_True by done. reflexivity. }
    split; [exact Hc|exact Hp].
  - simpl. rewrite !sum_cons. unfold sum. simpl. ring.
  - simpl. rewrite !sum_cons. unfold sum. simpl. ring.
Qed.

Lemma bootstrap_grouped e bb local n1 n2 d :
  account_rows e d = [] → grouped e (bootstrap e bb local n1 n2 d).
Proof.
  intros Hnone r1 r2 H1 H2 Hacc. unfold bootstrap in H1, H2. cbn [balance_table] in *.
  assert (∀ r, r ∈ balance_table d → ¬ of_broker_account e r) as Hold.
  { intros r Hr Hr'. eapply filter_nil_not_elem_of; [exact Hnone|exact Hr'|exact Hr]. }
  assert (∀ r, r ∈ balance_table d ++
      [default_row_of e bb local n1 d; strategy_row_of e bb local n1 n2 d] →
    (of_broker_account e r ∧ BalanceRow.broker_account_id r =
       next_account_id BalanceRow.broker_account_id (balance_table d)) ∨
    (¬ of_broker_account e r ∧ BalanceRow.broker_account_id r ≠
       next_account_id BalanceRow.broker_account_id (balance_table d))) as Hcase.
  { intros r [Hr|Hr]%elem_of_app.
    - right. split; [by apply Hold|]. by apply next_account_id_fresh.
    - left. apply elem_of_cons in Hr as [->|Hr]; [done|].
      apply elem_of_cons in Hr as [->|Hr]; [done|]. by apply elem_of_nil in Hr. }
  destruct (Hcase _ H1) as [[_ Hb1]|[Hn1 _]]; [|done].
  destruct (Hcase _ H2) as [[Ha2 Hb2]|[Hn2 Hb2]].
  - split; [congruence|done].
  - split; [done|congruence].
Qed.

(** *** A reconciled ledger is [settled] *)

Lemma NoDup_ids_filter (P : BalanceRow.t → Prop) `{∀ r, Decision (P r)}
    (rows : list BalanceRow.t) :
  NoDup (BalanceRow.id <$> rows) → NoDup (BalanceRow.id <$> filter P rows).
Proof.
  intros Hnd. eapply sublist_NoDup; [exact Hnd|].
  apply fmap_sublist, sublist_filter.
Qed.

Lemma account_rows_reconcile e bb (df : list BalanceRow.t) r0 d :
  account_rows e (reconcile Power bb df r0 (reconcile Cash bb df r0 d)) =
    adjust Power bb df r0 <$> (adjust Cash bb df r0 <$> account_rows e d).
Proof.
  unfold account_rows. rewrite !balance_table_reconcile.
  rewrite !filter_adjust by (intros; by apply of_broker_account_header).
  done.
Qed.

Lemma reconcile_settled e bb d r0 rest :
  NoDup (BalanceRow.id <$> balance_table d) →
  filter is_default (account_rows e d) = r0 :: rest →
  0 ≤ column Cash r0 + delta Cash bb (account_rows e d) →
  0 ≤ column Power r0 + delta Power bb (account_rows e d) →
  settled bb e (reconcile Power bb (account_rows e d) r0
                  (reconcile Cash bb (account_rows e d) r0 d)).
Proof.
  intros Hnd Hdef Hc Hp. set (df := account_rows e d) in *.
  assert (r0 ∈ df) as Hin.
  { assert (r0 ∈ filter is_default df) as Hr by (rewrite Hdef; left).
    by apply list_elem_of_filter in Hr as [_ ?]. }
  assert (NoDup (BalanceRow.id <$> df)) as Hnd' by by apply NoDup_ids_filter.
  unfold settled, account_total. rewrite account_rows_reconcile.
  fold df. repeat split.
  - by rewrite !balance_table_reconcile, !ids_adjust.
  - rewrite !filter_adjust by (intros; by apply is_default_header).
    rewrite Hdef, !fmap_cons. eexists _, _. split; [reflexivity|].
    rewrite !column_adjust. split.
    + rewrite decide_False by (by intros (_&?&_)).
      case_decide as Hd; [done|].
      destruct (decide (delta Cash bb df = 0)) as [H0|H0].
      * by rewrite H0, Qcplus_0_r in Hc.
      * destruct Hd. done.
    + case_decide as Hd; [done|].
      rewrite decide_False by (by intros (_&?&_)).
      destruct (decide (delta Power bb df = 0)) as [H0|H0].
      * by rewrite H0, Qcplus_0_r in Hp.
      * destruct Hd. split; [apply same_header_adjust|done].
  - rewrite sum_column_adjust_ne by done.
    rewrite (sum_column_adjust _ _ _ _ r0) by done.
    unfold delta. simpl. ring.
  - rewrite (sum_column_adjust _ _ _ _ (adjust Cash bb df r0 r0)).
    + rewrite sum_column_adjust_ne by done. unfold delta. simpl. ring.
    + by rewrite ids_adjust.
    + apply list_elem_of_fmap. by exists r0.
    + apply same_header_adjust.
    + rewrite column_adjust. by rewrite decide_False by (by intros (_&?&_)).
Qed.

Lemma reconcile_grouped e bb (df : list BalanceRow.t) r0 d :
  grouped e d →
  grouped e (reconcile Power bb df r0 (reconcile Cash bb df r0 d)).
Proof.
  intros Hg r1' r2'. rewrite !balance_table_reconcile.
  intros (r1m&->&(r1&->&H1)%list_elem_of_fmap)%list_elem_of_fmap.
  intros (r2m&->&(r2&->&H2)%list_elem_of_fmap)%list_elem_of_fmap.
  set (g r := adjust Power bb df r0 (adjust Cash bb df r0 r)).
  assert (∀ r, same_header r (g r)) as Hh.
  { intros r. unfold g.
    pose proof (same_header_adjust Cash bb df r0 r) as Ha.
    pose proof (same_header_adjust Power bb df r0 (adjust Cash bb df r0 r)) as Hb.
    unfold same_header in *. destruct_and!. split_and!; congruence. }
  fold (g r1) (g r2). intros Hacc.
  rewrite (of_broker_account_header e _ _ (Hh r1)) in Hacc.
  rewrite (of_broker_account_header e _ _ (Hh r2)).
  destruct (Hh r1) as (_&_&_&_&->&_). destruct (Hh r2) as (_&_&_&_&->&_).
  by apply Hg.
Qed.

(** *** The whole of [sync_broker_balance] *)

Lemma get_db_balance_eval sa sv e d :
  db e = Some d →
  get_db_balance sa sv e =
    match strategy_rows e sa sv d with
    | [] => Done None e
    | [r] => Done (Some (balance_of_row r)) e
    | _ => Raised AssertionError e
    end.
Proof.
  intros Hdb. destruct e as [bn env acct sa' sv' pf dbo]; simpl in Hdb; subst dbo.
  unfold get_db_balance, strategy_rows, select_balance.
  unfold mbind, M_bind, mret, M_ret, get, the_db. cbn [db].
  match goal with |- context [filter ?P ?l] => destruct (filter P l) as [|r [|r' l']] end;
    done.
Qed.

Lemma get_db_balance_set_portfolio sa sv e d v p :
  db e = Some d →
  get_db_balance sa sv e = Done v e →
  get_db_balance sa sv (set_portfolio p e) = Done v (set_portfolio p e).
Proof.
  intros Hdb. rewrite (get_db_balance_eval sa sv e d Hdb).
  rewrite (get_db_balance_eval sa sv (set_portfolio p e) d) by done.
  change (strategy_rows (set_portfolio p e) sa sv d) with (strategy_rows e sa sv d).
  destruct (strategy_rows e sa sv d) as [|r [|r' l']]; intros; simplify_eq; done.
Qed.

Lemma get_db_balance_Done sa sv e d v e' :
  db e = Some d → get_db_balance sa sv e = Done v e' → e' = e.
Proof.
  intros Hdb. rewrite (get_db_balance_eval sa sv e d Hdb).
  destruct (strategy_rows e sa sv d) as [|r [|r' l']]; intros; by simplify_eq.
Qed.

Lemma first_time_None bb n1 n2 e d :
  db e = Some d → account_balance (portfolio e) = None →
  sync_broker_balance_first_time bb n1 n2 e = Raised AttributeError e.
Proof.
  intros Hdb Hloc.
  destruct e as [bn env acct sa sv [ab pos] dbo]; simpl in Hdb, Hloc; subst.
  done.
Qed.

Lemma subsequent_no_default bb df e :
  filter is_default df = [] →
  sync_broker_balance_subsequent bb df e = Raised IndexError e.
Proof.
  intros Hdef. unfold sync_broker_balance_subsequent.
  change (filter _ df) with (filter is_default df). by rewrite Hdef.
Qed.

Lemma sync_broker_balance_eval bb n1 n2 e d :
  db e = Some d →
  sync_broker_balance (Some bb) n1 n2 e =
    match
      match account_rows e d with
      | [] => sync_broker_balance_first_time bb n1 n2 e
      | _ => sync_broker_balance_subsequent bb (account_rows e d) e
      end
    with
    | Done _ e1 =>
      match get_db_balance (strategy_account e) (strategy_version e) e1 with
      | Done v e2 =>
        Done () (set_portfolio (mkPortfolio v (position (portfolio e2))) e2)
      | Raised x e2 => Raised x e2
      end
    | Raised x e1 => Raised x e1
    end.
Proof.
  intros Hdb. destruct e as [bn env acct sa sv pf dbo]; simpl in Hdb; subst dbo.
  unfold sync_broker_balance, select_balance, account_rows.
  unfold mbind, M_bind, mret, M_ret, get, the_db. cbn [db].
  match goal with |- context [filter ?P ?l] => destruct (filter P l) end; done.
Qed.

Lemma sync_broker_balance_Done bb n1 n2 e d e' :
  db e = Some d →
  NoDup (BalanceRow.id <$> balance_table d) →
  sync_broker_balance (Some bb) n1 n2 e = Done () e' →
  ∃ d' v,
    settled bb e d' ∧ (grouped e d → grouped e d') ∧
    get_db_balance (strategy_account e) (strategy_version e) (set_db d' e)
      = Done v (set_db d' e) ∧
    e' = set_portfolio (mkPortfolio v (position (portfolio e))) (set_db d' e).
Proof.
  intros Hdb Hnd. rewrite (sync_broker_balance_eval _ _ _ _ _ Hdb).
  assert (∀ d' e1, e1 = set_db d' e →
    match get_db_balance (strategy_account e) (strategy_version e) e1 with
    | Done v e2 =>
      Done () (set_portfolio (mkPortfolio v (position (portfolio e2))) e2)
    | Raised x e2 => Raised x e2
    end = Done () e' →
    ∃ v, get_db_balance (strategy_account e) (strategy_version e) (set_db d' e)
           = Done v (set_db d' e) ∧
         e' = set_portfolio (mkPortfolio v (position (portfolio e))) (set_db d' e))
    as Hread.
  { intros d' e1 -> Hrun.
    destruct (get_db_balance _ _ (set_db d' e)) as [v e2|x e2] eqn:Hget; [|done].
    apply (get_db_balance_Done _ _ _ d') in Hget as He2; [|done]. subst e2.
    exists v. split; [done|]. by simplify_eq. }
  destruct (account_rows e d) as [|r df] eqn:Hrows.
  - destruct (account_balance (portfolio e)) as [local|] eqn:Hloc.
    + rewrite (first_time_eval _ _ _ _ _ _ Hdb Hloc).
      repeat case_decide; try done. intros Hrun.
      destruct (Hread _ _ eq_refl Hrun) as (v&Hget&->).
      eexists _, v. split_and!; [|by intros; apply bootstrap_grouped|done|done].
      by apply bootstrap_settled.
    + by rewrite (first_time_None _ _ _ _ _ Hdb Hloc).
  - rewrite <-Hrows.
    destruct (filter is_default (account_rows e d)) as [|r0 rest] eqn:Hdef.
    + by rewrite subsequent_no_default.
    + rewrite (subsequent_eval _ _ _ _ _ _ Hdb Hdef).
      repeat case_decide; try done. intros Hrun.
      destruct (Hread _ _ eq_refl Hrun) as (v&Hget&->).
      eexists _, v. split_and!; [|by apply reconcile_grouped|done|done].
      by eapply reconcile_settled.
Qed.

(** In exact arithmetic a call that succeeded, repeated with the same
    snapshot, returns and leaves the engine as it was: per field the delta
    is zero, so no write reaches the ledger. *)
Lemma sync_broker_balance_twice bb n1 n2 n1' n2' e d e1 :
  db e = Some d →
  NoDup (BalanceRow.id <$> balance_table d) →
  sync_broker_balance (Some bb) n1 n2 e = Done () e1 →
  sync_broker_balance (Some bb) n1' n2' e1 = Done () e1 ∧
  ledger_writes (final (sync_broker_balance (Some bb) n1' n2' e1)) = ledger_writes e1.
Proof.
  intros Hdb Hnd Hrun.
  destruct (sync_broker_balance_Done _ _ _ _ _ _ Hdb Hnd Hrun)
    as (d'&v&(Hnd'&(r0&rest&Hdef&Hc&Hp)&Htc&Htp)&_&Hget&->).
  set (e1 := set_portfolio _ _).
  assert (sync_broker_balance (Some bb) n1' n2' e1 = Done () e1) as Hsecond;
    [|by rewrite Hsecond].
  assert (db e1 = Some d') as Hdb1 by done.
  rewrite (sync_broker_balance_eval _ _ _ _ _ Hdb1).
  change (account_rows e1 d') with (account_rows e d').
  assert (delta Cash bb (account_rows e d') = 0) as Hdc.
  { unfold delta. fold (account_total Cash e d'). rewrite Htc. simpl. ring. }
  assert (delta Power bb (account_rows e d') = 0) as Hdp.
  { unfold delta. fold (account_total Power e d'). rewrite Htp. simpl. ring. }
  assert (account_rows e d' ≠ []) as Hrows.
  { intros Hnil. by rewrite Hnil in Hdef. }
  destruct (account_rows e d') as [|r df] eqn:Erows; [done|]. rewrite <-Erows in *.
  rewrite (subsequent_eval _ _ _ _ _ _ Hdb1 Hdef).
  unfold reconcile. rewrite Hdc, Hdp, !Qcplus_0_r.
  rewrite !decide_True by done. rewrite !decide_False by (by intros []).
  rewrite (set_db_same e1 d' Hdb1).
  change (strategy_account e1) with (strategy_account e).
  change (strategy_version e1) with (strategy_version e).
  subst e1.
  rewrite (get_db_balance_set_portfolio _ _ (set_db d' e) d' _ _ eq_refl Hget).
  by destruct e.
Qed.

Lemma filter_ext_in {A} (P Q : A → Prop) `{∀ x, Decision (P x)}
    `{∀ x, Decision (Q x)} (l : list A) :
  (∀ x, x ∈ l → P x ↔ Q x) → filter P l = filter Q l.
Proof.
  induction l as [|x l IH]; intros HPQ; [done|].
  rewrite !filter_cons, IH by (intros y Hy; apply HPQ; by right).
  destruct (decide (P x)) as [HP|HP], (decide (Q x)) as [HQ|HQ]; [done| | |done].
  - destruct HQ. apply HPQ; [by left|done].
  - destruct HP. apply HPQ; [by left|done].
Qed.

Lemma settled_conserved bb e p d :
  settled bb e d → grouped e d →
  conserved bb (set_portfolio p (set_db d e)).
Proof.
  intros (_&(r0&rest0&Hdef&_)&Htc&Htp) Hg.
  destruct (account_rows e d) as [|r rest] eqn:Hrows; [done|].
  assert (r ∈ balance_table d ∧ of_broker_account e r) as [Hr Hacc].
  { assert (r ∈ account_rows e d) as Hin by (rewrite Hrows; left).
    apply list_elem_of_filter in Hin as [? ?]. done. }
  exists d, r, rest. split; [done|]. split; [exact Hrows|]. cbn zeta.
  rewrite (filter_ext_in _ (of_broker_account e)).
  - split; [exact Htc|exact Htp].
  - intros r2 Hr2. symmetry. by apply Hg.
Qed.

Lemma sync_broker_balance_wf bb n1 n2 e e' :
  ledger_wf e →
  sync_broker_balance (Some bb) n1 n2 e = Done () e' →
  ledger_wf e' ∧ conserved bb e'.
Proof.
  intros (d&Hdb&Hnd&Hg) Hrun.
  destruct (sync_broker_balance_Done _ _ _ _ _ _ Hdb Hnd Hrun)
    as (d'&v&Hset&Hg'&_&->).
  split.
  - exists d'. split; [done|]. split; [apply Hset|]. by apply Hg'.
  - apply settled_conserved; [done|by apply Hg'].
Qed.

Lemma for_each_cons {A} (x : A) xs (body : A → M unit) e :
  for_each (x :: xs) body e =
    match body x e with
    | Done _ e1 => for_each xs body e1
    | Raised x e1 => Raised x e1
    end.
Proof. done. Qed.

(** What a call that returned did to the ledger: the first-time branch
    appended the default row, holding broker minus local, and the strategy
    row, holding local; the subsequent-times branch moved the default row
    by the delta of each field. *)
Lemma sync_broker_balance_ledger bb n1 n2 e d e1 :
  db e = Some d →
  sync_broker_balance (Some bb) n1 n2 e = Done () e1 →
  (account_rows e d = [] →
   ∃ local, account_balance (portfolio e) = Some local ∧
            db e1 = Some (bootstrap e bb local n1 n2 d)) ∧
  (account_rows e d ≠ [] →
   ∃ r0 rest, filter is_default (account_rows e d) = r0 :: rest ∧
              db e1 = Some (reconcile Power bb (account_rows e d) r0
                              (reconcile Cash bb (account_rows e d) r0 d))).
Proof.
  intros Hdb. rewrite (sync_broker_balance_eval _ _ _ _ _ Hdb).
  assert (∀ d' e0, e0 = set_db d' e →
    match get_db_balance (strategy_account e) (strategy_version e) e0 with
    | Done v e2 =>
      Done () (set_portfolio (mkPortfolio v (position (portfolio e2))) e2)
    | Raised x e2 => Raised x e2
    end = Done () e1 → db e1 = Some d') as Hread.
  { intros d' e0 -> Hrun.
    destruct (get_db_balance _ _ (set_db d' e)) as [v e2|x e2] eqn:Hget; [|done].
    apply (get_db_balance_Done _ _ _ d') in Hget as He2; [|done]. subst e2.
    by simplify_eq. }
  destruct (account_rows e d) as [|r df] eqn:Hrows.
  - intros Hrun. split; [intros _|done].
    destruct (account_balance (portfolio e)) as [local|] eqn:Hloc.
    + rewrite (first_time_eval _ _ _ _ _ _ Hdb Hloc) in Hrun.
      repeat case_decide; try done. exists local. split; [done|].
      by eapply Hread.
    + by rewrite (first_time_None _ _ _ _ _ Hdb Hloc) in Hrun.
  - rewrite <-Hrows. intros Hrun. split; [by rewrite Hrows|intros _].
    destruct (filter is_default (account_rows e d)) as [|r0 rest] eqn:Hdef.
    + by rewrite subsequent_no_default in Hrun.
    + rewrite (subsequent_eval _ _ _ _ _ _ Hdb Hdef) in Hrun.
      repeat case_decide; try done. exists r0, rest. split; [done|].
      by eapply Hread.
Qed.

Lemma Qc_by_value (x y : Qc) : bool_decide (x = y) = true → x = y.
Proof. apply bool_decide_eq_true_1. Qed.

(** C2.  On a ledger without balance rows, with the broker at
    [{cash: 1000, power: 2000}] and the local balance at
    [{cash: 300, power: 500}], [sync_broker_balance] inserts exactly two
    rows with the same [broker_account_id] 1 and the
    [strategy_account_id]s 1 and 2: the default row with 700 and 1500 and
    the strategy row with 300 and 500.  The call returns unless the
    strategy is itself named "default". *)
Theorem C2_bootstrap_scenario bn env acct sa sv mps ncp bmps bncp pos ptab log n1 n2 :
  let e := mkEngine bn env acct sa sv
             (mkPortfolio (Some (mkAccountBalance #300 #500 mps ncp)) pos)
             (Some (mkDB [] ptab log)) in
  let run := sync_broker_balance
               (Some (mkAccountBalance #1000 #2000 bmps bncp)) n1 n2 e in
  let default_row := BalanceRow.mk 1 bn env acct 1 "default" 1 sv
                       "manual trading" "active" #700 #1500 (-1) (-1) n1 "N/A" in
  let strategy_row := BalanceRow.mk 2 bn env acct 1 sa 2 sv
                        "" "active" #300 #500 (-1) (-1) n2 "N/A" in
  let d' := mkDB [default_row; strategy_row] ptab
              (Insert "balance" :: Insert "balance" :: log) in
  db (final run) = Some d' ∧
  (sa ≠ "default" →
   run = Done () (set_portfolio
                    (mkPortfolio (Some (mkAccountBalance #300 #500 (-1) (-1))) pos)
                    (set_db d' e))).
Proof.
  intros e run default_row strategy_row d'.
  assert (bootstrap e (mkAccountBalance #1000 #2000 bmps bncp)
            (mkAccountBalance #300 #500 mps ncp) n1 n2 (mkDB [] ptab log) = d') as Hboot.
  { unfold bootstrap, d', default_row, strategy_row, default_row_of, strategy_row_of.
    cbn -[Qcminus Qc_of_Z]. 
    assert (#1000 - #300 = #700) as -> by (apply Qc_by_value; vm_compute; reflexivity).
    assert (#2000 - #500 = #1500) as -> by (apply Qc_by_value; vm_compute; reflexivity).
    done. }
  assert (run = match get_db_balance sa sv (set_db d' e) with
                | Done v e2 =>
                  Done () (set_portfolio (mkPortfolio v (position (portfolio e2))) e2)
                | Raised x e2 => Raised x e2
                end) as Hrun.
  { unfold run. rewrite (sync_broker_balance_eval _ _ _ _ (mkDB [] ptab log)) by done.
    change (account_rows e (mkDB [] ptab log)) with (@nil BalanceRow.t).
    cbv match. 
    rewrite (first_time_eval _ _ _ _ (mkDB [] ptab log)
               (mkAccountBalance #300 #500 mps ncp)) by done.
    rewrite Hboot. cbn [cash power].
    rewrite !decide_True; [done| |]; apply (bool_decide_unpack _); vm_compute; exact I. }
  rewrite Hrun. rewrite (get_db_balance_eval sa sv (set_db d' e) d') by done.
  unfold strategy_rows, d'. cbn [balance_table].
  rewrite filter_cons.
  destruct (decide (sa = "default")) as [->|Hsa].
  - rewrite decide_True by done. rewrite filter_cons_True by done. done.
  - rewrite decide_False by (intros (_&?&_); by apply Hsa).
    rewrite filter_cons_True by done. done.
Qed.



(** *** Taking a ledger position out of the broker positions *)

Lemma remainder_eval brk_pos db_pos e :
  remainder brk_pos db_pos e =
    if decide (0 ≤ quantity brk_pos - quantity db_pos) then
      Done (remainder_of brk_pos db_pos) e
    else Raised ValueError e.
Proof.
  unfold remainder, remainder_of. unfold mbind, M_bind, mret, M_ret, raise.
  set (q := quantity brk_pos - quantity db_pos).
  destruct (decide (0 < q)) as [Hpos|Hpos].
  - rewrite decide_True by by apply Qclt_le_weak. done.
  - destruct (decide (q = 0)) as [H0|H0].
    + rewrite decide_True; [done|]. rewrite H0. apply Qcle_refl.
    + rewrite decide_False; [done|]. intros Hle.
      apply Qcle_lt_or_eq in Hle as [?|?]; [by apply Hpos|by apply H0].
Qed.

Lemma fold_each_cons {A B} (x : A) xs (acc : B) body e :
  fold_each (x :: xs) acc body e =
    match body acc x e with
    | Done acc' e' => fold_each xs acc' body e'
    | Raised x e' => Raised x e'
    end.
Proof. done. Qed.

Lemma deduct_loop db_pos (abp : list PositionData) e m k acc :
  (k + m)%nat = length abp →
  acc = (deducted db_pos <$> take k abp) ++ drop k abp →
  fold_each (seq k m) acc
    (λ all_broker_positions idx,
      match all_broker_positions !! idx with
      | None => mret all_broker_positions
      | Some brk_pos =>
        if decide (security brk_pos ≠ security db_pos ∨
                   direction brk_pos ≠ direction db_pos)
        then mret all_broker_positions
        else
          new_pos ← remainder brk_pos db_pos;
          mret (<[idx := new_pos]> all_broker_positions)
      end) e =
    if decide (Forall (covers db_pos) (drop k abp)) then
      Done (deducted db_pos <$> abp) e
    else Raised ValueError e.
Proof.
  revert k acc. induction m as [|m IH]; intros k acc Hlen ->.
  - rewrite Nat.add_0_r in Hlen. subst k. rewrite take_ge, drop_ge by done.
    rewrite app_nil_r. by rewrite decide_True by constructor.
  - assert (k < length abp)%nat as Hk by lia.
    destruct (lookup_lt_is_Some_2 abp k Hk) as [b Hb].
    rewrite (drop_S _ _ _ Hb). cbn [seq]. rewrite fold_each_cons.
    assert (length (deducted db_pos <$> take k abp) = k) as Hlk.
    { rewrite length_fmap, length_take. lia. }
    rewrite lookup_app_r by lia. rewrite Hlk, Nat.sub_diag. cbn [lookup list_lookup].
    assert (∀ x, <[k:=x]> ((deducted db_pos <$> take k abp) ++ b :: drop (S k) abp)
                 = (deducted db_pos <$> take k abp) ++ x :: drop (S k) abp) as Hins.
    { intros x. rewrite insert_app_r_alt by lia. by rewrite Hlk, Nat.sub_diag. }
    assert (∀ x, x = deducted db_pos b →
      (deducted db_pos <$> take k abp) ++ x :: drop (S k) abp =
      (deducted db_pos <$> take (S k) abp) ++ drop (S k) abp) as Hnext.
    { intros x ->. rewrite (take_S_r _ _ _ Hb), fmap_app, <-app_assoc. done. }
    destruct (decide (security b ≠ security db_pos ∨ direction b ≠ direction db_pos))
      as [Hne|Hm].
    + unfold mret, M_ret.
      assert (¬ matches db_pos b) as Hnm by (intros [??]; by destruct Hne).
      rewrite (IH (S k)); [|lia|].
      * destruct (decide (Forall (covers db_pos) (drop (S k) abp))) as [Hf|Hf].
        -- rewrite decide_True; [done|]. constructor; [by intros ?|done].
        -- rewrite decide_False; [done|]. by intros [_ ?]%Forall_cons.
      * apply Hnext. unfold deducted. by rewrite decide_False.
    + assert (matches db_pos b) as Hmatch.
      { split; apply dec_stable; intros ?; apply Hm; auto. }
      unfold mbind, M_bind. rewrite remainder_eval.
      destruct (decide (0 ≤ quantity b - quantity db_pos)) as [Hq|Hq].
      * unfold mret, M_ret. rewrite Hins. rewrite (IH (S k)); [|lia|].
        -- destruct (decide (Forall (covers db_pos) (drop (S k) abp))) as [Hf|Hf].
           ++ rewrite decide_True; [done|]. constructor; [by intros ?|done].
           ++ rewrite decide_False; [done|]. by intros [_ ?]%Forall_cons.
        -- apply Hnext. unfold deducted. by rewrite decide_True.
      * rewrite decide_False; [done|]. intros [Hc _]%Forall_cons. by apply Hq, Hc.
Qed.

Lemma deduct_eval db_pos (abp : list PositionData) e :
  deduct db_pos abp e =
    if decide (Forall (covers db_pos) abp) then
      Done (deducted db_pos <$> abp) e
    else Raised ValueError e.
Proof. unfold deduct. by rewrite (deduct_loop db_pos abp e (length abp) 0%nat). Qed.

(** *** Persisting and reloading *)

Lemma convert_direction_name d e :
  convert_direction_db2qt (Direction_name d) e = Done d e.
Proof. by destruct d. Qed.

Lemma position_data_of_position_row bid p id e :
  position_data_of_row (position_row bid p id) e = Done (reloaded p) e.
Proof.
  unfold position_data_of_row, position_row, mbind, M_bind.
  cbn [PositionRow.direction PositionRow.security_code PositionRow.security_name
       PositionRow.holding_price PositionRow.quantity PositionRow.update_time].
  rewrite convert_direction_name. by destruct p as [[] ? ? ? ?].
Qed.

Lemma reloaded_whole p : whole_second (update_time p) → reloaded p = p.
Proof.
  unfold whole_second, reloaded, strptime. intros ->. destruct p; simpl.
  f_equal. apply Z.sub_0_r.
Qed.

Lemma position_data_of_valid_row row e :
  valid_direction row → ∃ pd, position_data_of_row row e = Done pd e.
Proof.
  unfold valid_direction, position_data_of_row, mbind, M_bind.
  intros Hv. repeat (apply elem_of_cons in Hv as [->|Hv]; [by eexists|]).
  by apply elem_of_nil in Hv.
Qed.

Section position.
Context `{PositionUpdate}.

Lemma read_rows_total (rows : list PositionRow.t) acc e :
  Forall valid_direction rows →
  ∃ position, fold_each rows acc read_row e = Done position e.
Proof.
  revert acc. induction rows as [|row rows IH]; intros acc Hv; [by eexists|].
  apply Forall_cons in Hv as [Hrow Hv].
  destruct (position_data_of_valid_row row e Hrow) as [pd Hpd].
  cbn [fold_each]. unfold mbind, M_bind, read_row at 1, mbind, M_bind.
  rewrite Hpd. cbn. apply IH, Hv.
Qed.

Lemma read_rows_inserted bid (ps : list PositionData) (ids : list Z) acc e :
  length ids = length ps →
  fold_each (zip_with (position_row bid) ps ids) acc read_row e =
    Done (foldl Position_update_OPEN acc (reloaded <$> ps)) e.
Proof.
  revert ids acc. induction ps as [|p ps IH]; intros [|id ids] acc Hlen;
    try done.
  cbn [zip_with fold_each foldl]. unfold mbind, M_bind, read_row at 1, mbind, M_bind.
  rewrite position_data_of_position_row. cbn. apply IH. by simplify_eq/=.
Qed.

Lemma get_db_position_eval balance_id e d :
  db e = Some d →
  get_db_position balance_id e =
    match rows_of balance_id d with
    | [] => Done None e
    | _ =>
      match fold_each (rows_of balance_id d) (∅ : Position) read_row e with
      | Done position e' => Done (Some position) e'
      | Raised x e' => Raised x e'
      end
    end.
Proof.
  intros Hdb. destruct e as [bn env acct sa sv pf dbo]; simpl in Hdb; subst dbo.
  unfold get_db_position, select_position, rows_of, read_row.
  unfold mbind, M_bind, mret, M_ret, the_db. cbn [db].
  match goal with |- context [filter ?P ?l] => destruct (filter P l) end;
    reflexivity.
Qed.

Lemma foldl_update_fresh (l : list (Stock * Direction * PositionData))
    (acc : Position) :
  NoDup l.*1 →
  (∀ k pd, (k, pd) ∈ l → k = (security pd, direction pd) ∧ acc !! k = None) →
  ∀ k, foldl Position_update_OPEN acc l.*2 !! k =
         match (list_to_map l : Position) !! k with
         | Some pd => Some pd
         | None => acc !! k
         end.
Proof.
  revert acc. induction l as [|[k0 p0] l IH]; intros acc Hnd Hl k; [done|].
  rewrite fmap_cons in Hnd. apply NoDup_cons in Hnd as [Hk0 Hnd].
  destruct (Hl k0 p0) as [Hkey Hacc]; [left|].
  cbn [fmap list_fmap snd foldl list_to_map foldr]. 
  unfold Position_update_OPEN at 2. rewrite <-Hkey, Hacc.
  rewrite IH; [|done|].
  - destruct (decide (k = k0)) as [->|Hne].
    + rewrite lookup_insert_eq.
      rewrite (not_elem_of_list_to_map_1 l k0 Hk0). by rewrite lookup_insert_eq.
    + by rewrite !lookup_insert_ne.
  - intros k' pd Hin. destruct (Hl k' pd) as [Hkey' Hacc']; [by right|].
    split; [done|]. rewrite lookup_insert_ne; [done|].
    intros <-. apply Hk0. apply list_elem_of_fmap. by exists (k0, pd).
Qed.

Lemma foldl_update_all (pos : Position) :
  keyed pos →
  foldl Position_update_OPEN ∅ (reloaded <$> get_all_positions pos)
    = reloaded <$> pos.
Proof.
  intros Hk. apply map_eq. intros k. unfold get_all_positions.
  pose proof (foldl_update_fresh (prod_map id reloaded <$> map_to_list pos) ∅)
    as Hf.
  rewrite <-!list_fmap_compose in Hf.
  change (fst ∘ prod_map id reloaded) with (@fst (Stock * Direction) PositionData) in Hf.
  change (snd ∘ prod_map id reloaded) with (reloaded ∘ @snd (Stock * Direction) PositionData) in Hf.
  rewrite list_fmap_compose in Hf. rewrite Hf.
  - rewrite list_to_map_fmap, list_to_map_to_list.
    destruct ((reloaded <$> pos) !! k); [done|]. apply lookup_empty.
  - apply NoDup_fst_map_to_list.
  - intros k' pd Hin. apply list_elem_of_fmap in Hin as ([k1 p1]&Heq&Hin).
    apply elem_of_map_to_list in Hin. simpl in Heq. simplify_eq.
    split; [exact (Hk k1 p1 Hin)|apply lookup_empty].
Qed.
End position.

Lemma persist_account_balance_eval e d r ab :
  db e = Some d →
  strategy_rows e (strategy_account e) (strategy_version e) d = [r] →
  account_balance (portfolio e) = Some ab →
  persist_account_balance e = Done () (set_db (stored_balance e ab r d) e).
Proof.
  intros Hdb Hrow Hab. unfold persist_account_balance.
  unfold mbind at 1, M_bind at 1, get.
  unfold mbind at 1, M_bind at 1.
  rewrite (get_db_balance_eval _ _ _ _ Hdb), Hrow, Hab.
  fold (updates_of ab (balance_of_row r)). unfold stored_balance.
  destruct e as [bn env acct sa sv pf dbo]; simpl in Hdb; subst dbo.
  case_decide; done.
Qed.

Lemma same_header_set_columns cols r : same_header r (set_columns cols r).
Proof.
  unfold set_columns. revert r. induction cols as [|[f v] cols IH]; intros r.
  - by destruct r.
  - simpl. pose proof (IH (set_column f v r)) as H1.
    pose proof (same_header_set_column f v r) as H2.
    unfold same_header in *. destruct_and!. split_and!; congruence.
Qed.

Lemma balance_of_set_columns ab r :
  balance_of_row (set_columns (updates_of ab (balance_of_row r)) r) = ab.
Proof.
  destruct ab as [c p m n], r. unfold updates_of, balance_of_row, set_columns.
  simpl. repeat case_decide; simpl;
    repeat match goal with Hs : ¬ (_ ≠ _) |- _ => apply dec_stable in Hs end;
    by subst.
Qed.

Lemma strategy_rows_stored e ab r d :
  strategy_rows e (strategy_account e) (strategy_version e) d = [r] →
  ∃ r1, strategy_rows e (strategy_account e) (strategy_version e)
          (stored_balance e ab r d) = [r1] ∧
        balance_of_row r1 = ab ∧ BalanceRow.id r1 = BalanceRow.id r.
Proof.
  intros Hrow.
  assert (of_strategy e r) as Hr.
  { assert (r ∈ strategy_rows e (strategy_account e) (strategy_version e) d) as Hin
      by (rewrite Hrow; left).
    apply list_elem_of_filter in Hin as [(_&?&?) _]. by split. }
  exists (set_columns (updates_of ab (balance_of_row r)) r).
  split; [|split; [apply balance_of_set_columns|apply same_header_set_columns]].
  unfold stored_balance. case_decide as Hu.
  - unfold strategy_rows in *. cbn [balance_table].
    rewrite filter_fmap_stable, Hrow.
    + cbn [fmap list_fmap]. unfold store_balance. by rewrite decide_True.
    + intros r'. unfold store_balance. case_decide; [|done].
      pose proof (same_header_set_columns (updates_of ab (balance_of_row r)) r') as Hh.
      rewrite (of_broker_account_header _ _ _ Hh).
      destruct Hh as (_&_&_&_&_&->&->). done.
  - by rewrite Hu, Hrow.
Qed.

Lemma for_each_insert_position bid (ps : list PositionData) e d :
  db e = Some d →
  ∃ d' ids,
    for_each ps (λ p, insert_position (position_row bid p)) e
      = Done () (set_db d' e) ∧
    balance_table d' = balance_table d ∧
    length ids = length ps ∧
    position_table d' = position_table d ++ zip_with (position_row bid) ps ids.
Proof.
  revert e d. induction ps as [|p ps IH]; intros e d Hdb.
  - exists d, []. rewrite app_nil_r. by rewrite (set_db_same e d Hdb).
  - cbn [for_each]. unfold mbind at 1, M_bind at 1.
    unfold insert_position at 1, mbind, M_bind, the_db, put_db. rewrite Hdb.
    match goal with |- context [set_db ?d1 e] =>
      destruct (IH (set_db d1 e) d1 eq_refl) as (d'&ids&Hrun&Hbt&Hlen&Hpt);
      exists d', (fresh_id (PositionRow.id <$> position_table d) :: ids)
    end.
    rewrite Hrun, Hbt, Hpt. cbn [balance_table position_table length zip_with].
    rewrite <-app_assoc. split_and!; [by destruct e|done|by rewrite Hlen|done].
Qed.

Section persist.
Context `{PositionUpdate}.

Lemma get_db_position_total balance_id e d :
  db e = Some d →
  Forall valid_direction (rows_of balance_id d) →
  ∃ o, get_db_position balance_id e = Done o e ∧
       (o = None ↔ rows_of balance_id d = []).
Proof.
  intros Hdb Hv. rewrite (get_db_position_eval _ _ _ Hdb).
  destruct (rows_of balance_id d) as [|row rows] eqn:Hrows.
  - by exists None.
  - destruct (read_rows_total (row :: rows) ∅ e Hv) as [pos Hpos].
    rewrite Hpos. exists (Some pos). split; [done|]. split; done.
Qed.

Lemma rows_of_inserted bid (ps : list PositionData) (ids : list Z) :
  filter (λ r, PositionRow.balance_id r = bid) (zip_with (position_row bid) ps ids)
    = zip_with (position_row bid) ps ids.
Proof.
  revert ids. induction ps as [|p ps IH]; intros [|id ids]; try done.
  cbn [zip_with]. rewrite filter_cons_True by done. by rewrite IH.
Qed.

Lemma rows_of_deleted bid (rows : list PositionRow.t) :
  filter (λ r, PositionRow.balance_id r = bid)
         (filter (λ r, ¬ PositionRow.balance_id r = bid) rows) = [].
Proof.
  induction rows as [|r rows IH]; [done|]. rewrite filter_cons.
  case_decide; [|done]. by rewrite filter_cons_False by (by intros ?).
Qed.

Lemma persist_position_eval e d r :
  db e = Some d →
  strategy_rows e (strategy_account e) (strategy_version e) d = [r] →
  Forall valid_direction (rows_of (BalanceRow.id r) d) →
  ∃ d' ids,
    persist_position e = Done () (set_db d' e) ∧
    balance_table d' = balance_table d ∧
    length ids = length (get_all_positions (position (portfolio e))) ∧
    rows_of (BalanceRow.id r) d' =
      zip_with (position_row (BalanceRow.id r))
               (get_all_positions (position (portfolio e))) ids.
Proof.
  intros Hdb Hrow Hv.
  destruct (get_db_position_total _ _ _ Hdb Hv) as (o&Hget&Ho).
  unfold persist_position. unfold mbind at 1, M_bind at 1, get.
  unfold mbind at 1, M_bind at 1, select_balance, mbind at 1, M_bind at 1, the_db.
  rewrite Hdb. unfold mret at 1, M_ret at 1.
  change (filter _ (balance_table d))
    with (strategy_rows e (strategy_account e) (strategy_version e) d).
  rewrite Hrow. unfold mbind at 1, M_bind at 1, assert.
  rewrite decide_True by done. unfold mret at 1, M_ret at 1.
  unfold mbind at 1, M_bind at 1. rewrite Hget.
  unfold mbind at 1, M_bind at 1.
  set (ps := get_all_positions (position (portfolio e))).
  destruct o as [pos|].
  - unfold delete_position, mbind at 1, M_bind at 1, the_db, put_db. rewrite Hdb.
    match goal with |- context [set_db ?d1 e] =>
      destruct (for_each_insert_position (BalanceRow.id r) ps (set_db d1 e) d1 eq_refl)
        as (d'&ids&Hrun&Hbt&Hlen&Hpt)
    end.
    exists d', ids. rewrite Hrun. split_and!; [by destruct e|done|done|].
    unfold rows_of. rewrite Hpt. cbn [position_table].
    by rewrite filter_app, rows_of_deleted, rows_of_inserted.
  - unfold mret at 1, M_ret at 1.
    destruct (for_each_insert_position (BalanceRow.id r) ps e d Hdb)
      as (d'&ids&Hrun&Hbt&Hlen&Hpt).
    exists d', ids. rewrite Hrun. split_and!; [done..|].
    unfold rows_of. rewrite Hpt, filter_app, rows_of_inserted.
    destruct Ho as [Ho _]. unfold rows_of in Ho. by rewrite Ho.
Qed.
End persist.

Lemma position_table_stored e ab r d :
  position_table (stored_balance e ab r d) = position_table d.
Proof. unfold stored_balance. by case_decide. Qed.

Lemma get_all_positions_nil (pos : Position) :
  get_all_positions pos = [] ↔ pos = ∅.
Proof.
  unfold get_all_positions. split.
  - intros Hnil%fmap_nil_inv. by apply map_to_list_empty_iff.
  - intros ->. by rewrite map_to_list_empty.
Qed.

(** ** The engine on concrete ledgers *)

Import Examples.

(** C3.  For a strategy of version "2.0" the default row of the first-time
    branch of [sync_broker_balance] carries the version "2.0", and the
    lookup of the default row by [sync_broker_position] then fails its
    assertion. *)
Theorem C3_default_row_takes_strategy_version `{PositionUpdate} :
  sync_broker_balance (Some broker_balance) 5 6 (engine "2.0" ∅ empty_ledger)
    = Done () (engine "2.0" ∅ (bootstrapped "2.0")) ∧
  BalanceRow.strategy_version <$>
    filter is_default (balance_table (bootstrapped "2.0")) = ["2.0"] ∧
  sync_broker_position (Some [long_tencent #10 #100])
      (engine "2.0" ∅ (bootstrapped "2.0"))
    = Raised AssertionError (engine "2.0" ∅ (bootstrapped "2.0")).
Proof. split_and!; by_evaluation. Qed.

(** With the strategy at version "1.0" the same two calls go through. *)
Lemma default_row_found_for_version_1 `{PositionUpdate} :
  sync_broker_balance (Some broker_balance) 5 6 (engine "1.0" ∅ empty_ledger)
    = Done () (engine "1.0" ∅ (bootstrapped "1.0")) ∧
  sync_broker_position (Some [long_tencent #10 #100])
      (engine "1.0" ∅ (bootstrapped "1.0"))
    = Done () (engine "1.0" ∅
        (mkDB (balances "1.0") [default_position_row]
              [Insert "position"; Insert "balance"; Insert "balance"])).
Proof. split; by_evaluation. Qed.

(** The scenario of C5 through the whole of [sync_broker_position]: the
    strategy keeps its 40 at 8, the default bucket receives 60 at 680/60. *)
Lemma position_remainder_scenario `{PositionUpdate} :
  sync_broker_position (Some [long_tencent #10 #100])
      (engine "1.0" ∅ (mkDB (balances "1.0") [strategy_position_row] []))
    = Done () (engine "1.0" strategy_position
        (mkDB (balances "1.0")
              [strategy_position_row;
               PositionRow.mk 2 1 "HK.00700" "Tencent" "LONG" (#680 / #60) #60 0]
              [Insert "position"; Delete "position"])).
Proof. by_evaluation. Qed.

(** C6.  The strategy's ledger row holds 40 Tencent while the broker
    snapshot holds HSBC only: [sync_broker_position] returns, the Tencent
    row stays in the ledger and is loaded as the strategy's position. *)
Theorem C6_ledger_position_absent_from_broker `{PositionUpdate} :
  sync_broker_position (Some [mkPositionData hsbc LONG #5 #50 0])
      (engine "1.0" ∅ (mkDB (balances "1.0") [strategy_position_row] []))
    = Done () (engine "1.0" strategy_position
        (mkDB (balances "1.0")
              [strategy_position_row;
               PositionRow.mk 2 1 "HK.00005" "HSBC" "LONG" #5 #50 0]
              [Insert "position"; Delete "position"])).
Proof. by_evaluation. Qed.

(** C7.  On a ledger without position rows, a broker position of quantity
    0 is written to the ledger by the first-time branch of
    [sync_broker_position]. *)
Theorem C7_zero_quantity_persisted `{PositionUpdate} :
  sync_broker_position (Some [long_tencent #10 0])
      (engine "1.0" ∅ (mkDB (balances "1.0") [] []))
    = Done () (engine "1.0" ∅
        (mkDB (balances "1.0")
              [PositionRow.mk 1 1 "HK.00700" "Tencent" "LONG" #10 0 0]
              [Insert "position"])).
Proof. by_evaluation. Qed.

(** The subsequent-times branch does skip such an entry: the same snapshot
    against a ledger with a position row leaves no row of quantity 0. *)
Lemma zero_quantity_skipped_on_reinsert `{PositionUpdate} :
  sync_broker_position (Some [long_tencent #10 0])
      (engine "1.0" ∅ (mkDB (balances "1.0") [default_position_row] []))
    = Done () (engine "1.0" ∅
        (mkDB (balances "1.0") [] [Delete "position"])).
Proof. by_evaluation. Qed.

(** [persist_position] writes whatever the in-memory table holds, an entry
    of quantity 0 included. *)
Lemma persist_position_writes_zero_quantity `{PositionUpdate} :
  persist_position
      (engine "1.0" {[ (tencent, LONG) := long_tencent #10 0 ]}
         (mkDB (balances "1.0") [] []))
    = Done () (engine "1.0" {[ (tencent, LONG) := long_tencent #10 0 ]}
        (mkDB (balances "1.0")
              [PositionRow.mk 1 2 "HK.00700" "Tencent" "LONG" #10 0 0]
              [Insert "position"])).
Proof. by_evaluation. Qed.

(** ** Instances and counterexamples *)

(** C2 for the strategy "strat". *)
Lemma C2_witness :
  sync_broker_balance (Some broker_balance) 5 6 (engine "1.0" ∅ empty_ledger)
    = Done () (set_portfolio
                 (mkPortfolio (Some (mkAccountBalance #300 #500 (-1) (-1))) ∅)
                 (set_db (bootstrapped "1.0") (engine "1.0" ∅ empty_ledger))).
Proof.
  apply (C2_bootstrap_scenario "Futu" "SIMULATE" "acc-1" "strat" "1.0"
           (-1) (-1) 0 0 ∅ [] [] 5%Z 6%Z).
  vm_compute. discriminate.
Defined.



(** Against C8 as the specification has it: with a ledger, an empty list
    is taken as a broker holding nothing, and the default bucket's row is
    deleted. *)
Lemma C8_counterexample :
  @sync_broker_position overwrite (Some [])
      (engine "1.0" ∅ (mkDB (balances "1.0") [default_position_row] []))
    = Done () (engine "1.0" ∅ (mkDB (balances "1.0") [] [Delete "position"])) ∧
  @sync_broker_position overwrite (Some [])
      (engine "1.0" ∅ (mkDB (balances "1.0") [default_position_row] []))
    ≠ Done () (engine "1.0" ∅ (mkDB (balances "1.0") [default_position_row] [])).
Proof. split; [by_evaluation|by_comparison]. Qed.

(** ** Further properties of the engine *)

Global Instance same_balances_refl : Reflexive same_balances.
Proof. intros e. by repeat split. Qed.
Global Instance same_balances_trans : Transitive same_balances.
Proof.
  intros e1 e2 e3 H12 H23. unfold same_balances in *.
  destruct_and!. split_and!; congruence.
Qed.
Global Instance same_positions_refl : Reflexive same_positions.
Proof. intros e. by repeat split. Qed.
Global Instance same_positions_trans : Transitive same_positions.
Proof.
  intros e1 e2 e3 H12 H23. unfold same_positions in *.
  destruct_and!. split_and!; congruence.
Qed.

Section keeps.
Context (R : Engine → Engine → Prop) `{!Reflexive R} `{!Transitive R}.

Lemma keeps_ret {A} (a : A) : keeps R (mret a).
Proof. intros e. apply reflexivity. Qed.

Lemma keeps_raise {A} x : keeps R (raise x : M A).
Proof. intros e. apply reflexivity. Qed.

Lemma keeps_get : keeps R get.
Proof. intros e. apply reflexivity. Qed.

Lemma keeps_bind {A B} (m : M A) (k : A → M B) :
  keeps R m → (∀ a, keeps R (k a)) → keeps R (m ≫= k).
Proof.
  intros Hm Hk e. specialize (Hm e). unfold mbind, M_bind.
  destruct (m e) as [a e'|x e']; [|done].
  etrans; [exact Hm|apply Hk].
Qed.

Lemma keeps_assert (P : Prop) `{Decision P} : keeps R (assert P).
Proof. unfold assert. case_decide; [apply keeps_ret|apply keeps_raise]. Qed.

Lemma keeps_values_0 {A} (l : list A) : keeps R (values_0 l).
Proof. destruct l; [apply keeps_raise|apply keeps_ret]. Qed.

Lemma keeps_for_each {A} (xs : list A) (body : A → M unit) :
  (∀ x, keeps R (body x)) → keeps R (for_each xs body).
Proof.
  intros Hbody. induction xs as [|x xs IH]; [apply keeps_ret|].
  cbn [for_each]. apply keeps_bind; [apply Hbody|by intros _].
Qed.

Lemma keeps_fold_each {A B} (xs : list A) (acc : B) (body : B → A → M B) :
  (∀ acc x, keeps R (body acc x)) → keeps R (fold_each xs acc body).
Proof.
  intros Hbody. revert acc. induction xs as [|x xs IH]; intros acc;
    [apply keeps_ret|].
  cbn [fold_each]. apply keeps_bind; [apply Hbody|intros acc'; apply IH].
Qed.

Lemma keeps_the_db : keeps R the_db.
Proof. intros e. unfold the_db. destruct (db e); apply reflexivity. Qed.

Lemma keeps_select_balance (P : BalanceRow.t → Prop) `{∀ r, Decision (P r)} :
  keeps R (select_balance P).
Proof.
  unfold select_balance. apply keeps_bind; [apply keeps_the_db|].
  intros d. apply keeps_ret.
Qed.

Lemma keeps_select_position (P : PositionRow.t → Prop) `{∀ r, Decision (P r)} :
  keeps R (select_position P).
Proof.
  unfold select_position. apply keeps_bind; [apply keeps_the_db|].
  intros d. apply keeps_ret.
Qed.

Lemma keeps_convert_direction s : keeps R (convert_direction_db2qt s).
Proof.
  unfold convert_direction_db2qt.
  repeat case_decide; first [apply keeps_ret|apply keeps_raise].
Qed.

Lemma keeps_position_data_of_row row : keeps R (position_data_of_row row).
Proof.
  unfold position_data_of_row. apply keeps_bind; [apply keeps_convert_direction|].
  intros d. apply keeps_ret.
Qed.

Lemma keeps_get_db_balance sa sv : keeps R (get_db_balance sa sv).
Proof.
  unfold get_db_balance. apply keeps_bind; [apply keeps_get|]. intros e.
  apply keeps_bind; [apply keeps_select_balance|]. intros [|r rest];
    [apply keeps_ret|].
  apply keeps_bind; [apply keeps_assert|]. intros _. apply keeps_ret.
Qed.

Lemma keeps_get_db_position `{PositionUpdate} balance_id :
  keeps R (get_db_position balance_id).
Proof.
  unfold get_db_position. apply keeps_bind; [apply keeps_select_position|].
  intros [|r rest]; [apply keeps_ret|].
  apply keeps_bind; [|intros; apply keeps_ret].
  apply keeps_fold_each. intros acc row.
  apply keeps_bind; [apply keeps_position_data_of_row|]. intros; apply keeps_ret.
Qed.

Lemma keeps_remainder brk_pos db_pos : keeps R (remainder brk_pos db_pos).
Proof.
  unfold remainder. apply keeps_bind; [|intros; apply keeps_ret].
  repeat case_decide; first [apply keeps_ret|apply keeps_raise].
Qed.

Lemma keeps_deduct db_pos abp : keeps R (deduct db_pos abp).
Proof.
  unfold deduct. apply keeps_fold_each. intros acc idx.
  destruct (acc !! idx); [|apply keeps_ret].
  case_decide; [apply keeps_ret|].
  apply keeps_bind; [apply keeps_remainder|]. intros; apply keeps_ret.
Qed.
End keeps.

(** *** Writes that stay within one table *)

Lemma same_balances_put_position e d pt w :
  db e = Some d → same_balances e (set_db (mkDB (balance_table d) pt w) e).
Proof. intros Hdb. unfold same_balances. destruct e; simpl in *. by subst. Qed.

Lemma same_positions_put_balance e d bt w :
  db e = Some d → same_positions e (set_db (mkDB bt (position_table d) w) e).
Proof. intros Hdb. unfold same_positions. destruct e; simpl in *. by subst. Qed.

Lemma keeps_insert_position mk_row : keeps same_balances (insert_position mk_row).
Proof.
  intros e. unfold insert_position, mbind, M_bind, the_db, put_db.
  destruct (db e) as [d|] eqn:Hdb; [|done]. by apply same_balances_put_position.
Qed.

Lemma keeps_delete_position (P : PositionRow.t → Prop) `{∀ r, Decision (P r)} :
  keeps same_balances (delete_position P).
Proof.
  intros e. unfold delete_position, mbind, M_bind, the_db, put_db.
  destruct (db e) as [d|] eqn:Hdb; [|done]. by apply same_balances_put_position.
Qed.

Lemma keeps_assign_position v : keeps same_balances (assign_position v).
Proof. intros e. unfold same_balances. by destruct e. Qed.

Lemma keeps_insert_balance mk_row : keeps same_positions (insert_balance mk_row).
Proof.
  intros e. unfold insert_balance, mbind, M_bind, the_db, put_db.
  destruct (db e) as [d|] eqn:Hdb; [|done]. by apply same_positions_put_balance.
Qed.

Lemma keeps_update_balance cols (P : BalanceRow.t → Prop) `{∀ r, Decision (P r)} :
  keeps same_positions (update_balance cols P).
Proof.
  intros e. unfold update_balance, mbind, M_bind, the_db, put_db.
  destruct (db e) as [d|] eqn:Hdb; [|done]. by apply same_positions_put_balance.
Qed.

Lemma keeps_assign_account_balance v :
  keeps same_positions (assign_account_balance v).
Proof. intros e. unfold same_positions. by destruct e. Qed.

(** One step of a proof that a monadic program keeps a relation. *)
Ltac keeps_step :=
  first
    [ apply keeps_ret; apply _
    | apply keeps_raise; apply _
    | apply keeps_get; apply _
    | apply keeps_assert; apply _
    | apply keeps_values_0; apply _
    | apply keeps_select_balance; apply _
    | apply keeps_select_position; apply _
    | apply keeps_get_db_balance; apply _
    | apply keeps_get_db_position; apply _
    | apply keeps_position_data_of_row; apply _
    | apply keeps_deduct; apply _
    | apply keeps_insert_position
    | apply keeps_delete_position
    | apply keeps_assign_position
    | apply keeps_insert_balance
    | apply keeps_update_balance
    | apply keeps_assign_account_balance
    | apply keeps_bind; try apply _; [|intros ?]
    | apply keeps_for_each; try apply _; intros ?
    | apply keeps_fold_each; try apply _; intros ? ? ].

Ltac keeps_auto :=
  repeat first
    [ keeps_step
    | match goal with
      | |- keeps _ (match ?x with _ => _ end) => destruct x
      end ].

(** X1.  [sync_broker_position] never writes to the table [balance] and never
    touches the in-memory account balance. *)
Theorem sync_broker_position_keeps_balances `{PositionUpdate} o :
  keeps same_balances (sync_broker_position o).
Proof.
  unfold sync_broker_position, update_portfolio_position. keeps_auto.
Qed.

(** X2.  [sync_broker_balance] never writes to the table [position] and never
    touches the in-memory position table. *)
Theorem sync_broker_balance_keeps_positions o n1 n2 :
  keeps same_positions (sync_broker_balance o n1 n2).
Proof.
  unfold sync_broker_balance, sync_broker_balance_first_time,
    sync_broker_balance_subsequent.
  keeps_auto.
Qed.

(** X3.  The two persistence steps stay in their own table:
    [persist_account_balance] never writes to the table [position] nor to
    the in-memory position table, [persist_position] never writes to the
    table [balance] nor to the in-memory account balance. *)
Theorem persist_steps_keep_apart `{PositionUpdate} :
  keeps same_positions persist_account_balance ∧
  keeps same_balances persist_position.
Proof.
  split.
  - unfold persist_account_balance. keeps_auto.
  - unfold persist_position. keeps_auto.
Qed.

(** X4.  [convert_direction_db2qt] inverts [Direction.name] and accepts nothing
    else. *)
Theorem convert_direction_db2qt_spec s e :
  (∀ d, convert_direction_db2qt s e = Done d e ↔ s = Direction_name d) ∧
  ((∀ d, s ≠ Direction_name d) → convert_direction_db2qt s e = Raised ValueError e).
Proof.
  unfold convert_direction_db2qt, mret, M_ret, raise. split.
  - intros d. repeat case_decide; subst; destruct d; split; intros Heq;
      simplify_eq/=; done.
  - intros Hno. repeat case_decide; subst; try done.
    + by destruct (Hno LONG).
    + by destruct (Hno SHORT).
    + by destruct (Hno NET).
Qed.

Lemma position_data_of_row_eval row e :
  position_data_of_row row e =
    match row_data row with
    | Some pd => Done pd e
    | None => Raised ValueError e
    end.
Proof.
  unfold position_data_of_row, row_data, convert_direction_db2qt, mbind, M_bind.
  repeat case_decide; done.
Qed.

Lemma row_data_valid row : valid_direction row ↔ is_Some (row_data row).
Proof.
  unfold valid_direction, row_data. split.
  - intros Hv. repeat (apply elem_of_cons in Hv as [->|Hv]; [by eexists|]).
    by apply elem_of_nil in Hv.
  - intros [pd Hpd].
    destruct (decide (PositionRow.direction row = "LONG")) as [HL|HL];
      [rewrite HL; by left|].
    destruct (decide (PositionRow.direction row = "SHORT")) as [HS|HS];
      [rewrite HS; right; by left|].
    destruct (decide (PositionRow.direction row = "NET")) as [HN|HN];
      [rewrite HN; do 2 right; by left|].
    done.
Qed.

Section load.
Context `{PositionUpdate}.

Lemma read_rows_decoded (rows : list PositionRow.t) (pds : list PositionData)
    acc e :
  Forall2 (λ row pd, position_data_of_row row e = Done pd e) rows pds →
  fold_each rows acc read_row e = Done (foldl Position_update_OPEN acc pds) e.
Proof.
  intros Hrows. revert acc.
  induction Hrows as [|row pd rows pds Hrow _ IH]; intros acc; [done|].
  cbn [fold_each foldl]. unfold mbind at 1, M_bind at 1, read_row at 1.
  unfold mbind, M_bind. rewrite Hrow. apply IH.
Qed.

Lemma read_rows_invalid (rows : list PositionRow.t) acc e :
  Exists (λ row, ¬ valid_direction row) rows →
  fold_each rows acc read_row e = Raised ValueError e.
Proof.
  intros Hex. revert acc. induction rows as [|row rows IH]; intros acc.
  - by apply Exists_nil in Hex.
  - cbn [fold_each]. unfold mbind at 1, M_bind at 1, read_row at 1.
    unfold mbind, M_bind. rewrite position_data_of_row_eval.
    destruct (row_data row) as [pd|] eqn:Hpd; [|done].
    apply Exists_cons in Hex as [Hbad|Hex]; [|by apply IH].
    destruct Hbad. apply row_data_valid. by eexists.
Qed.

Lemma foldl_update_distinct (pds : list PositionData) :
  NoDup (key_of <$> pds) →
  foldl Position_update_OPEN ∅ pds
    = list_to_map ((λ pd, (key_of pd, pd)) <$> pds).
Proof.
  intros Hnd. apply map_eq. intros k.
  pose proof (foldl_update_fresh ((λ pd, (key_of pd, pd)) <$> pds) ∅) as Hf.
  rewrite <-!list_fmap_compose in Hf.
  change (snd ∘ _) with (@id PositionData) in Hf.
  change (fst ∘ _) with key_of in Hf.
  rewrite list_fmap_id in Hf. rewrite Hf; [| done |].
  - by destruct (_ !! k).
  - intros k' pd (pd'&Heq&_)%list_elem_of_fmap. by simplify_eq.
Qed.

(** X5.  Rows of distinct keys are loaded one entry each: the table
    [get_db_position] returns holds exactly the decoded rows, each under
    its own [(security, direction)]. *)
Theorem get_db_position_distinct_keys balance_id e d pds :
  db e = Some d →
  Forall2 (λ row pd, position_data_of_row row e = Done pd e)
          (rows_of balance_id d) pds →
  pds ≠ [] →
  NoDup (key_of <$> pds) →
  ∃ pos, get_db_position balance_id e = Done (Some pos) e ∧
         size pos = length pds ∧
         ∀ k pd, pos !! k = Some pd ↔ pd ∈ pds ∧ k = key_of pd.
Proof.
  intros Hdb Hrows Hne Hnd. rewrite (get_db_position_eval _ _ _ Hdb).
  rewrite (read_rows_decoded _ pds) by done.
  destruct (rows_of balance_id d) as [|row rows].
  { apply Forall2_nil_inv_l in Hrows. done. }
  eexists. split; [reflexivity|]. rewrite foldl_update_distinct by done.
  assert (NoDup ((λ pd, (key_of pd, pd)) <$> pds).*1) as Hnd'.
  { rewrite <-list_fmap_compose. exact Hnd. }
  split.
  - rewrite map_size_list_to_map by done. by rewrite length_fmap.
  - intros k pd. rewrite <-elem_of_list_to_map by done.
    rewrite list_elem_of_fmap. split.
    + intros (pd'&Heq&Hin). by simplify_eq.
    + intros [Hin ->]. by exists pd.
Qed.

(** X6.  One row with an unknown direction makes the whole load fail: nothing
    is returned and the engine is as before. *)
Theorem get_db_position_invalid_direction balance_id e d :
  db e = Some d →
  Exists (λ row, ¬ valid_direction row) (rows_of balance_id d) →
  get_db_position balance_id e = Raised ValueError e.
Proof.
  intros Hdb Hex. rewrite (get_db_position_eval _ _ _ Hdb).
  rewrite read_rows_invalid by done.
  destruct (rows_of balance_id d); [by apply Exists_nil in Hex|done].
Qed.
End load.

Lemma Qcle_0_minus (a b : Qc) : 0 ≤ a - b ↔ b ≤ a.
Proof. unfold Qcminus. symmetry. apply Qcle_minus_iff. Qed.

(** X7.  In the first-time branch both assertions come before the first insert:
    a local balance above the broker's in cash or in power, or no local
    balance at all, ends the call with the engine and the ledger as they
    were. *)
Theorem sync_broker_balance_first_time_rejects bb n1 n2 e d :
  db e = Some d →
  account_rows e d = [] →
  (∀ local, account_balance (portfolio e) = Some local →
            cash bb < cash local ∨ power bb < power local →
            sync_broker_balance (Some bb) n1 n2 e = Raised AssertionError e) ∧
  (account_balance (portfolio e) = None →
   sync_broker_balance (Some bb) n1 n2 e = Raised AttributeError e).
Proof.
  intros Hdb Hrows. rewrite (sync_broker_balance_eval _ _ _ _ _ Hdb), Hrows.
  split.
  - intros local Hloc Hlt. rewrite (first_time_eval _ _ _ _ _ _ Hdb Hloc).
    destruct (decide (0 ≤ cash bb - cash local)) as [Hc|Hc]; [|reflexivity].
    destruct (decide (0 ≤ power bb - power local)) as [Hp|Hp]; [|reflexivity].
    apply (proj1 (Qcle_0_minus _ _)) in Hc. apply (proj1 (Qcle_0_minus _ _)) in Hp.
    destruct Hlt as [Hlt|Hlt]; apply Qclt_not_le in Hlt; by destruct Hlt.
  - intros Hloc. by rewrite (first_time_None _ _ _ _ _ Hdb Hloc).
Qed.

(** X8.  A broker account that has rows but no default row: the call ends in an
    [IndexError] before any write. *)
Theorem sync_broker_balance_no_default_row bb n1 n2 e d :
  db e = Some d →
  account_rows e d ≠ [] →
  filter is_default (account_rows e d) = [] →
  sync_broker_balance (Some bb) n1 n2 e = Raised IndexError e.
Proof.
  intros Hdb Hrows Hdef. rewrite (sync_broker_balance_eval _ _ _ _ _ Hdb).
  destruct (account_rows e d) eqn:Erows; [done|]. rewrite <-Erows in *.
  by rewrite subsequent_no_default.
Qed.

Lemma sync_broker_balance_reread bb n1 n2 e d e1 :
  db e = Some d →
  sync_broker_balance (Some bb) n1 n2 e = Done () e1 →
  ∃ d1 v, e1 = set_portfolio (mkPortfolio v (position (portfolio e))) (set_db d1 e) ∧
          get_db_balance (strategy_account e) (strategy_version e) (set_db d1 e)
            = Done v (set_db d1 e).
Proof.
  intros Hdb. rewrite (sync_broker_balance_eval _ _ _ _ _ Hdb).
  assert (∀ d' e0, e0 = set_db d' e →
    match get_db_balance (strategy_account e) (strategy_version e) e0 with
    | Done v e2 =>
      Done () (set_portfolio (mkPortfolio v (position (portfolio e2))) e2)
    | Raised x e2 => Raised x e2
    end = Done () e1 →
    ∃ d1 v, e1 = set_portfolio (mkPortfolio v (position (portfolio e))) (set_db d1 e) ∧
            get_db_balance (strategy_account e) (strategy_version e) (set_db d1 e)
              = Done v (set_db d1 e)) as Hread.
  { intros d' e0 -> Hrun.
    destruct (get_db_balance _ _ (set_db d' e)) as [v e2|x e2] eqn:Hget; [|done].
    apply (get_db_balance_Done _ _ _ d') in Hget as He2; [|done]. subst e2.
    exists d', v. split; [by simplify_eq|done]. }
  destruct (account_rows e d) as [|r df] eqn:Hrows.
  - destruct (account_balance (portfolio e)) as [local|] eqn:Hloc.
    + rewrite (first_time_eval _ _ _ _ _ _ Hdb Hloc).
      repeat case_decide; try done. by apply (Hread _ _ eq_refl).
    + by rewrite (first_time_None _ _ _ _ _ Hdb Hloc).
  - rewrite <-Hrows.
    destruct (filter is_default (account_rows e d)) as [|r0 rest] eqn:Hdef.
    + by rewrite subsequent_no_default.
    + rewrite (subsequent_eval _ _ _ _ _ _ Hdb Hdef).
      repeat case_decide; try done. by apply (Hread _ _ eq_refl).
Qed.

(** X9.  After a call that returned, the in-memory account balance is what the
    ledger holds for the strategy: [get_db_balance] returns it; without a
    ledger it is the broker's snapshot itself. *)
Theorem sync_broker_balance_reflects_ledger bb n1 n2 e e1 :
  sync_broker_balance (Some bb) n1 n2 e = Done () e1 →
  (db e = None → account_balance (portfolio e1) = Some bb ∧ db e1 = None) ∧
  (is_Some (db e) →
   get_db_balance (strategy_account e1) (strategy_version e1) e1
     = Done (account_balance (portfolio e1)) e1).
Proof.
  intros Hrun. split.
  - intros Hdb. destruct e as [bn env acct sa sv pf dbo]; simpl in Hdb; subst dbo.
    cbv in Hrun. by simplify_eq.
  - intros [d Hdb].
    destruct (sync_broker_balance_reread _ _ _ _ _ _ Hdb Hrun) as (d1&v&->&Hget).
    by apply (get_db_balance_set_portfolio _ _ (set_db d1 e) d1).
Qed.

Lemma strategy_rows_header e sa sv r r' :
  same_header r r' →
  (of_broker_account e r' ∧ BalanceRow.strategy_account r' = sa ∧
   BalanceRow.strategy_version r' = sv) ↔
  (of_broker_account e r ∧ BalanceRow.strategy_account r = sa ∧
   BalanceRow.strategy_version r = sv).
Proof.
  intros Hh. rewrite (of_broker_account_header e _ _ Hh).
  destruct Hh as (_&_&_&_&_&->&->). done.
Qed.

Lemma strategy_rows_reconcile e sa sv bb (df : list BalanceRow.t) r0 d :
  strategy_rows e sa sv (reconcile Power bb df r0 (reconcile Cash bb df r0 d)) =
    adjust Power bb df r0 <$> (adjust Cash bb df r0 <$> strategy_rows e sa sv d).
Proof.
  unfold strategy_rows. rewrite !balance_table_reconcile.
  rewrite !filter_adjust by (intros; by apply strategy_rows_header).
  done.
Qed.

(** X10.  A strategy joining a broker account that already has rows is given no
    row of its own: the call returns and leaves the in-memory account
    balance at [None]. *)
Theorem sync_broker_balance_second_strategy bb n1 n2 e d e1 :
  db e = Some d →
  account_rows e d ≠ [] →
  strategy_rows e (strategy_account e) (strategy_version e) d = [] →
  sync_broker_balance (Some bb) n1 n2 e = Done () e1 →
  account_balance (portfolio e1) = None ∧
  ∃ d1, db e1 = Some d1 ∧
        strategy_rows e (strategy_account e) (strategy_version e) d1 = [].
Proof.
  intros Hdb Hrows Hnone Hrun.
  destruct (sync_broker_balance_ledger _ _ _ _ _ _ Hdb Hrun) as [_ Hsub].
  destruct (Hsub Hrows) as (r0&rest&Hdef&Hdb1).
  destruct (sync_broker_balance_reread _ _ _ _ _ _ Hdb Hrun) as (d1&v&->&Hget).
  simpl in Hdb1. simplify_eq.
  match type of Hget with context [set_db ?dd e] =>
    rewrite (get_db_balance_eval _ _ (set_db dd e) dd eq_refl) in Hget;
    change (strategy_rows (set_db dd e)) with (strategy_rows e) in Hget
  end.
  rewrite strategy_rows_reconcile, Hnone in Hget. cbn in Hget. simplify_eq.
  split; [done|]. eexists. split; [done|].
  by rewrite strategy_rows_reconcile, Hnone.
Qed.

Lemma adjust_other_id f bb df r0 r :
  BalanceRow.id r ≠ BalanceRow.id r0 → adjust f bb df r0 r = r.
Proof.
  intros Hid. unfold adjust, amend. case_decide; [|done]. by rewrite decide_False.
Qed.

(** X11.  A call that returned has written to no balance row but a default
    row of the engine's broker account: every other row is where it was and
    as it was, and the table [position] is untouched. *)
Theorem sync_broker_balance_other_rows bb n1 n2 e d e1 :
  db e = Some d →
  NoDup (BalanceRow.id <$> balance_table d) →
  sync_broker_balance (Some bb) n1 n2 e = Done () e1 →
  ∃ d1, db e1 = Some d1 ∧
        position_table d1 = position_table d ∧
        ∀ i r, balance_table d !! i = Some r →
               ¬ (of_broker_account e r ∧ is_default r) →
               balance_table d1 !! i = Some r.
Proof.
  intros Hdb Hnd Hrun.
  destruct (sync_broker_balance_ledger _ _ _ _ _ _ Hdb Hrun) as [Hfirst Hsub].
  destruct (account_rows e d) as [|r' df] eqn:Hrows.
  - destruct (Hfirst eq_refl) as (local&_&Hdb1). eexists. split; [exact Hdb1|].
    split; [done|]. intros i r Hi _. cbn [bootstrap balance_table].
    by apply lookup_app_l_Some.
  - rewrite <-Hrows in *.
    destruct Hsub as (r0&rest&Hdef&Hdb1); [by rewrite Hrows|].
    eexists. split; [exact Hdb1|]. split.
    { unfold reconcile, write_field. by repeat case_decide. }
    intros i r Hi Hnot. rewrite !balance_table_reconcile, !list_lookup_fmap, Hi.
    cbn [fmap option_fmap option_map].
    assert (r0 ∈ balance_table d ∧ of_broker_account e r0 ∧ is_default r0)
      as (Hin0&Hacc0&Hd0).
    { assert (r0 ∈ filter is_default (account_rows e d)) as Hin
        by (rewrite Hdef; left).
      apply list_elem_of_filter in Hin as [? Hin].
      apply list_elem_of_filter in Hin as [? ?]. done. }
    assert (BalanceRow.id r ≠ BalanceRow.id r0) as Hid.
    { intros Hid. apply list_elem_of_lookup in Hin0 as [j Hj].
      assert (i = j) as ->.
      { eapply NoDup_lookup; [exact Hnd| |].
        - by rewrite list_lookup_fmap, Hi.
        - rewrite list_lookup_fmap, Hj. cbn. by rewrite Hid. }
      simplify_eq. by apply Hnot. }
    rewrite (adjust_other_id Cash) by done.
    by rewrite (adjust_other_id Power) by done.
Qed.

Lemma updates_of_same ab : updates_of ab ab = [].
Proof. unfold updates_of. cbn. by rewrite !decide_False by (by intros []). Qed.

Lemma persist_account_balance_in_sync e :
  get_db_balance (strategy_account e) (strategy_version e) e
    = Done (account_balance (portfolio e)) e →
  persist_account_balance e = Done () e.
Proof.
  intros Hget. unfold persist_account_balance.
  unfold mbind at 1, M_bind at 1, get. unfold mbind at 1, M_bind at 1.
  rewrite Hget. clear Hget.
  destruct (account_balance (portfolio e)) as [ab|]; [|reflexivity].
  fold (updates_of ab ab). rewrite updates_of_same.
  rewrite decide_False; [reflexivity|]. by intros [].
Qed.

(** X12.  Right after a [sync_broker_balance] that returned, with a ledger,
    [persist_account_balance] finds nothing to write. *)
Theorem persist_account_balance_after_sync bb n1 n2 e e1 :
  is_Some (db e) →
  sync_broker_balance (Some bb) n1 n2 e = Done () e1 →
  persist_account_balance e1 = Done () e1.
Proof.
  intros [d Hdb] Hrun. apply persist_account_balance_in_sync.
  destruct (sync_broker_balance_reread _ _ _ _ _ _ Hdb Hrun) as (d1&v&->&Hget).
  by apply (get_db_balance_set_portfolio _ _ (set_db d1 e) d1).
Qed.

(** X13.  [persist_account_balance] writes the difference only: once it has
    returned, a second call changes nothing, write log included. *)
Theorem persist_account_balance_idempotent e e1 :
  persist_account_balance e = Done () e1 →
  persist_account_balance e1 = Done () e1.
Proof.
  intros Hrun. destruct (db e) as [d|] eqn:Hdb.
  - pose proof (get_db_balance_eval (strategy_account e) (strategy_version e)
                  e d Hdb) as Hget.
    destruct (strategy_rows e (strategy_account e) (strategy_version e) d)
      as [|r [|r' rows]] eqn:Hrows.
    + assert (persist_account_balance e = Done () e) as Hnoop.
      { unfold persist_account_balance.
        unfold mbind at 1, M_bind at 1, get. unfold mbind at 1, M_bind at 1.
        by rewrite Hget. }
      rewrite Hnoop in Hrun. by simplify_eq.
    + destruct (account_balance (portfolio e)) as [ab|] eqn:Hab.
      * rewrite (persist_account_balance_eval _ _ _ _ Hdb Hrows Hab) in Hrun.
        simplify_eq.
        destruct (strategy_rows_stored e ab r d Hrows) as (r1&Hrow1&Hab1&_).
        apply persist_account_balance_in_sync.
        rewrite (get_db_balance_eval _ _ _ (stored_balance e ab r d)) by done.
        change (strategy_rows (set_db ?d' e) (strategy_account (set_db ?d' e))
                  (strategy_version (set_db ?d' e)))
          with (strategy_rows e (strategy_account e) (strategy_version e)).
        rewrite Hrow1, Hab1.
        change (account_balance (portfolio (set_db (stored_balance e ab r d) e)))
          with (account_balance (portfolio e)).
        by rewrite Hab.
      * revert Hrun. unfold persist_account_balance.
        unfold mbind at 1, M_bind at 1, get. unfold mbind at 1, M_bind at 1.
        by rewrite Hget, Hab.
    + revert Hrun. unfold persist_account_balance.
      unfold mbind at 1, M_bind at 1, get. unfold mbind at 1, M_bind at 1.
      by rewrite Hget.
  - revert Hrun. unfold persist_account_balance, get_db_balance, select_balance.
    unfold mbind, M_bind, get, the_db. by rewrite Hdb.
Qed.

Lemma column_set_columns_updates ab dbb r f :
  column f (set_columns (updates_of ab dbb) r) =
    if decide (getattr ab f ≠ getattr dbb f) then getattr ab f else column f r.
Proof.
  destruct ab as [c p m n], dbb as [c' p' m' n'].
  unfold updates_of, set_columns. simpl.
  destruct (decide (c ≠ c')), (decide (p ≠ p')), (decide (m ≠ m')),
    (decide (n ≠ n')), f; simpl; by rewrite ?decide_True, ?decide_False by done.
Qed.

Lemma updates_of_nil ab dbb : updates_of ab dbb = [] → ab = dbb.
Proof.
  destruct ab as [c p m n], dbb as [c' p' m' n'].
  unfold updates_of. simpl.
  destruct (decide (c ≠ c')), (decide (p ≠ p')), (decide (m ≠ m')),
    (decide (n ≠ n')); simpl; try done.
  intros _. f_equal; by apply dec_stable.
Qed.

Lemma same_but_amounts_set_columns cols r :
  same_but_amounts r (set_columns cols r).
Proof.
  unfold set_columns. revert r.
  induction cols as [|[f v] cols IH]; intros r.
  - by destruct r.
  - simpl. pose proof (IH (set_column f v r)) as H1.
    assert (same_but_amounts r (set_column f v r)) as H2 by (by destruct r, f).
    unfold same_but_amounts, same_header in *. destruct_and!.
    split_and!; congruence.
Qed.

(** X14.  What [persist_account_balance] writes when the in-memory balance
    differs from the strategy's ledger row: one update, which sets the
    fields that differ in every balance row carrying the strategy's account
    and version, those of other broker accounts included, and nothing
    else: every other column of every row, every other row, the number of
    rows and the table [position] are as they were. *)
Theorem persist_account_balance_writes e d r ab :
  db e = Some d →
  strategy_rows e (strategy_account e) (strategy_version e) d = [r] →
  account_balance (portfolio e) = Some ab →
  ab ≠ balance_of_row r →
  ∃ d1,
    persist_account_balance e = Done () (set_db d1 e) ∧
    writes d1 = Update "balance" :: writes d ∧
    position_table d1 = position_table d ∧
    length (balance_table d1) = length (balance_table d) ∧
    ∀ i r', balance_table d !! i = Some r' →
      ∃ r1, balance_table d1 !! i = Some r1 ∧ same_but_amounts r' r1 ∧
            ∀ f, column f r1 =
                   if decide (of_strategy e r' ∧ getattr ab f ≠ column f r)
                   then getattr ab f else column f r'.
Proof.
  intros Hdb Hrow Hab Hne. exists (stored_balance e ab r d).
  split; [by apply persist_account_balance_eval|].
  unfold stored_balance. rewrite decide_True.
  2:{ intros Hnil%updates_of_nil. done. }
  split; [done|]. split; [done|].
  split; [cbn [balance_table]; by rewrite length_fmap|].
  intros i r' Hi. cbn [balance_table].
  rewrite list_lookup_fmap, Hi. eexists. split; [reflexivity|].
  unfold store_balance. destruct (decide (of_strategy e r')) as [Hs|Hs].
  - split; [apply same_but_amounts_set_columns|]. intros f.
    rewrite column_set_columns_updates.
    change (getattr (balance_of_row r) f) with (column f r).
    destruct (decide (getattr ab f ≠ column f r)) as [Hf|Hf].
    + by rewrite decide_True.
    + rewrite decide_False; [done|]. by intros [_ ?].
  - split; [by destruct r'|]. intros f. rewrite decide_False; [done|]. by intros [? _].
Qed.

Lemma others_of_inserted bid (ps : list PositionData) (ids : list Z) :
  filter (λ r, PositionRow.balance_id r ≠ bid) (zip_with (position_row bid) ps ids)
    = [].
Proof.
  revert ids. induction ps as [|p ps IH]; intros [|id ids]; try done.
  cbn [zip_with]. rewrite filter_cons_False by (by intros []). apply IH.
Qed.

Lemma others_of_deleted bid (rows : list PositionRow.t) :
  filter (λ r, PositionRow.balance_id r ≠ bid)
         (filter (λ r, ¬ PositionRow.balance_id r = bid) rows)
    = filter (λ r, PositionRow.balance_id r ≠ bid) rows.
Proof.
  induction rows as [|r rows IH]; [done|]. rewrite !filter_cons.
  destruct (decide (PositionRow.balance_id r ≠ bid)) as [Hne|Heq].
  - rewrite filter_cons_True by done. by rewrite IH.
  - exact IH.
Qed.

Section persist_position.
Context `{PositionUpdate}.

(** X15.  [persist_position] replaces the position rows of the strategy's
    balance row and no others: the rows of every other balance row stay,
    in their order, and the table [balance] is not written. *)
Theorem persist_position_other_rows e d r :
  db e = Some d →
  strategy_rows e (strategy_account e) (strategy_version e) d = [r] →
  Forall valid_direction (rows_of (BalanceRow.id r) d) →
  ∃ d',
    persist_position e = Done () (set_db d' e) ∧
    balance_table d' = balance_table d ∧
    filter (λ row, PositionRow.balance_id row ≠ BalanceRow.id r) (position_table d')
      = filter (λ row, PositionRow.balance_id row ≠ BalanceRow.id r)
               (position_table d) ∧
    length (rows_of (BalanceRow.id r) d')
      = size (position (portfolio e)).
Proof.
  intros Hdb Hrow Hv.
  destruct (get_db_position_total _ _ _ Hdb Hv) as (o&Hget&Ho).
  unfold persist_position. unfold mbind at 1, M_bind at 1, get.
  unfold mbind at 1, M_bind at 1, select_balance, mbind at 1, M_bind at 1, the_db.
  rewrite Hdb. unfold mret at 1, M_ret at 1.
  change (filter _ (balance_table d))
    with (strategy_rows e (strategy_account e) (strategy_version e) d).
  rewrite Hrow. unfold mbind at 1, M_bind at 1, assert.
  rewrite decide_True by done. unfold mret at 1, M_ret at 1.
  unfold mbind at 1, M_bind at 1. rewrite Hget.
  unfold mbind at 1, M_bind at 1.
  set (ps := get_all_positions (position (portfolio e))).
  assert (length ps = size (position (portfolio e))) as Hsize.
  { unfold ps, get_all_positions. by rewrite length_fmap, length_map_to_list. }
  destruct o as [pos|].
  - unfold delete_position, mbind at 1, M_bind at 1, the_db, put_db. rewrite Hdb.
    match goal with |- context [set_db ?d1 e] =>
      destruct (for_each_insert_position (BalanceRow.id r) ps (set_db d1 e) d1 eq_refl)
        as (d'&ids&Hrun&Hbt&Hlen&Hpt)
    end.
    exists d'. rewrite Hrun. split_and!; [by destruct e|done| |].
    + rewrite Hpt. cbn [position_table].
      by rewrite filter_app, others_of_deleted, others_of_inserted, app_nil_r.
    + unfold rows_of. rewrite Hpt. cbn [position_table].
      rewrite filter_app, rows_of_deleted, rows_of_inserted. cbn [app].
      rewrite length_zip_with. lia.
  - unfold mret at 1, M_ret at 1.
    destruct (for_each_insert_position (BalanceRow.id r) ps e d Hdb)
      as (d'&ids&Hrun&Hbt&Hlen&Hpt).
    exists d'. rewrite Hrun. split_and!; [done..| |].
    + by rewrite Hpt, filter_app, others_of_inserted, app_nil_r.
    + unfold rows_of. rewrite Hpt, filter_app, rows_of_inserted.
      destruct Ho as [Ho _]. unfold rows_of in Ho. rewrite Ho by done.
      cbn [app]. rewrite length_zip_with. lia.
Qed.

(** X16.  Before the first balance sync there is no balance row for the
    strategy, and a turn of the persistence loop returns without a write:
    the engine is as before. *)
Theorem persist_step_without_balance_row e d :
  db e = Some d →
  strategy_rows e (strategy_account e) (strategy_version e) d = [] →
  persist_step e = Done () e.
Proof.
  intros Hdb Hnone.
  assert (persist_account_balance e = Done () e) as Hbal.
  { unfold persist_account_balance.
    unfold mbind at 1, M_bind at 1, get. unfold mbind at 1, M_bind at 1.
    by rewrite (get_db_balance_eval _ _ _ _ Hdb), Hnone. }
  unfold persist_step. unfold mbind at 1, M_bind at 1. rewrite Hbal.
  unfold persist_position. unfold mbind at 1, M_bind at 1, get.
  unfold mbind at 1, M_bind at 1, select_balance, mbind at 1, M_bind at 1, the_db.
  rewrite Hdb. unfold mret at 1, M_ret at 1.
  change (filter _ (balance_table d))
    with (strategy_rows e (strategy_account e) (strategy_version e) d).
  by rewrite Hnone.
Qed.
End persist_position.

Lemma for_each_insert_positive bid (ps : list PositionData) e d :
  db e = Some d →
  ∃ d' ids,
    for_each ps (λ p, if decide (0 < quantity p)
                      then insert_position (position_row bid p)
                      else mret ()) e
      = Done () (set_db d' e) ∧
    balance_table d' = balance_table d ∧
    length ids = length (filter (λ p, 0 < quantity p) ps) ∧
    position_table d' =
      position_table d ++
      zip_with (position_row bid) (filter (λ p, 0 < quantity p) ps) ids.
Proof.
  revert e d. induction ps as [|p ps IH]; intros e d Hdb.
  - exists d, []. rewrite app_nil_r. by rewrite (set_db_same e d Hdb).
  - cbn [for_each]. unfold mbind at 1, M_bind at 1. rewrite filter_cons.
    destruct (decide (0 < quantity p)) as [Hp|Hp].
    + unfold insert_position at 1, mbind, M_bind, the_db, put_db. rewrite Hdb.
      match goal with |- context [set_db ?d1 e] =>
        destruct (IH (set_db d1 e) d1 eq_refl) as (d'&ids&Hrun&Hbt&Hlen&Hpt);
        exists d', (fresh_id (PositionRow.id <$> position_table d) :: ids)
      end.
      rewrite Hrun, Hbt, Hpt. cbn [balance_table position_table length zip_with].
      rewrite <-app_assoc. split_and!; [by destruct e|done|by rewrite Hlen|done].
    + unfold mret at 1, M_ret at 1. apply IH, Hdb.
Qed.

Lemma keeps_eq_Done {A} (m : M A) e a e' :
  keeps eq m → m e = Done a e' → e' = e.
Proof. intros Hk Hm. specialize (Hk e). rewrite Hm in Hk. done. Qed.

Lemma keeps_eq_Raised {A} (m : M A) e x e' :
  keeps eq m → m e = Raised x e' → e' = e.
Proof. intros Hk Hm. specialize (Hk e). rewrite Hm in Hk. done. Qed.

Section sync_position.
Context `{PositionUpdate}.

Lemma sync_broker_position_checks abp e d :
  db e = Some d →
  sync_broker_position (Some abp) e =
    (assert (account_rows e d ≠ []);;
     strat_balance_id ← values_0 (BalanceRow.id <$>
                                    filter (of_strategy e) (account_rows e d));
     assert (length (filter is_default_1_0 (account_rows e d)) = 1%nat);;
     default_balance_id ← values_0 (BalanceRow.id <$>
                                      filter is_default_1_0 (account_rows e d));
     sync_positions abp (account_positions e d)
       strat_balance_id default_balance_id) e.
Proof.
  intros Hdb. destruct e as [bn env acct sa sv pf dbo]; simpl in Hdb; subst dbo.
  unfold sync_broker_position, sync_positions, select_balance, select_position,
    account_positions, account_rows.
  unfold mbind, M_bind, mret, M_ret, get, the_db, assert, raise. cbn [db].
  destruct (decide (_ ≠ [])); [|reflexivity].
  destruct (filter _ (filter _ _)) as [|rs rest]; [reflexivity|].
  cbn [fmap list_fmap values_0 mret M_ret db].
  destruct (decide (length _ = 1%nat)); reflexivity.
Qed.

Lemma sync_broker_position_eval abp e d rs rest rd :
  db e = Some d →
  filter (of_strategy e) (account_rows e d) = rs :: rest →
  filter is_default_1_0 (account_rows e d) = [rd] →
  sync_broker_position (Some abp) e =
    sync_positions abp (account_positions e d)
      (BalanceRow.id rs) (BalanceRow.id rd) e.
Proof.
  intros Hdb Hstrat Hdef. rewrite (sync_broker_position_checks _ _ _ Hdb).
  unfold mbind, M_bind, assert. rewrite Hstrat, Hdef. cbn.
  rewrite decide_True; [done|]. intros Hnil. by rewrite Hnil in Hstrat.
Qed.
End sync_position.

Section sync_position_effects.
Context `{PositionUpdate}.

Lemma read_row_eval acc row e :
  read_row acc row e =
    match row_data row with
    | Some pd => Done (Position_update_OPEN acc pd) e
    | None => Raised ValueError e
    end.
Proof.
  unfold read_row, mbind, M_bind. rewrite position_data_of_row_eval.
  by destruct (row_data row).
Qed.

Lemma read_rows_any_engine (rows : list PositionRow.t) acc e e' :
  fold_each rows acc read_row e' =
    match fold_each rows acc read_row e with
    | Done position _ => Done position e'
    | Raised x _ => Raised x e'
    end.
Proof.
  revert acc. induction rows as [|row rows IH]; intros acc; [done|].
  rewrite !fold_each_cons, !read_row_eval.
  destruct (row_data row); [apply IH|done].
Qed.

Lemma get_db_position_set_portfolio balance_id e d o p :
  db e = Some d →
  get_db_position balance_id e = Done o e →
  get_db_position balance_id (set_portfolio p e) = Done o (set_portfolio p e).
Proof.
  intros Hdb. rewrite (get_db_position_eval _ e d Hdb).
  rewrite (get_db_position_eval _ (set_portfolio p e) d) by done.
  destruct (rows_of balance_id d) as [|row rows]; [by intros [= <-]|].
  rewrite (read_rows_any_engine _ _ e (set_portfolio p e)).
  destruct (fold_each _ _ _ e); intros; by simplify_eq.
Qed.

(** X17.  The first position sync of a broker account always returns: every
    broker position becomes a row of the default bucket, in the broker's
    order and whatever its quantity, and the in-memory position table is
    emptied. *)
Theorem sync_broker_position_first_time abp e d rs rest rd :
  db e = Some d →
  filter (of_strategy e) (account_rows e d) = rs :: rest →
  filter is_default_1_0 (account_rows e d) = [rd] →
  account_positions e d = [] →
  ∃ d' ids,
    sync_broker_position (Some abp) e
      = Done () (set_portfolio
                   (mkPortfolio (account_balance (portfolio e)) ∅)
                   (set_db d' e)) ∧
    balance_table d' = balance_table d ∧
    length ids = length abp ∧
    position_table d' =
      position_table d ++ zip_with (position_row (BalanceRow.id rd)) abp ids.
Proof.
  intros Hdb Hstrat Hdef Hnone.
  rewrite (sync_broker_position_eval _ _ _ _ _ _ Hdb Hstrat Hdef), Hnone.
  unfold sync_positions.
  destruct (for_each_insert_position (BalanceRow.id rd) abp e d Hdb)
    as (d'&ids&Hrun&Hbt&Hlen&Hpt).
  exists d', ids. unfold mbind, M_bind. rewrite Hrun. done.
Qed.

(** X18.  A later position sync that returned has rebuilt the default bucket:
    each of its rows holds a positive quantity; the rows of every other
    balance row are where and as they were; the table [balance] is not
    written; and the in-memory position table is what [get_db_position]
    reads for the strategy, the empty table when it reads nothing. *)
Theorem sync_broker_position_subsequent abp e d rs rest rd e1 :
  db e = Some d →
  filter (of_strategy e) (account_rows e d) = rs :: rest →
  filter is_default_1_0 (account_rows e d) = [rd] →
  account_positions e d ≠ [] →
  sync_broker_position (Some abp) e = Done () e1 →
  ∃ d1 o,
    db e1 = Some d1 ∧
    balance_table d1 = balance_table d ∧
    (∀ row, row ∈ position_table d1 →
            PositionRow.balance_id row = BalanceRow.id rd →
            0 < PositionRow.quantity row) ∧
    filter (λ row, PositionRow.balance_id row ≠ BalanceRow.id rd) (position_table d1)
      = filter (λ row, PositionRow.balance_id row ≠ BalanceRow.id rd)
               (position_table d) ∧
    get_db_position (BalanceRow.id rs) e1 = Done o e1 ∧
    position (portfolio e1) = default ∅ o.
Proof.
  intros Hdb Hstrat Hdef Hsome.
  rewrite (sync_broker_position_eval _ _ _ _ _ _ Hdb Hstrat Hdef).
  unfold sync_positions.
  destruct (account_positions e d) as [|row0 rows0] eqn:Hpos; [done|].
  rewrite <-Hpos. clear Hsome.
  unfold mbind at 1, M_bind at 1.
  match goal with |- context [fold_each ?l abp ?body e] =>
    assert (keeps eq (fold_each l abp body)) as Hpure;
    [|destruct (fold_each l abp body e) as [abp' e'|x e'] eqn:Hfold; [|done]]
  end.
  { apply keeps_fold_each; try apply _. intros acc row.
    apply keeps_bind; try apply _; [apply keeps_position_data_of_row; apply _|].
    intros db_pos. apply keeps_deduct; apply _. }
  apply keeps_eq_Done in Hfold; [|done]. subst e'.
  unfold mbind at 1, M_bind at 1.
  unfold delete_position, mbind at 1, M_bind at 1, the_db, put_db. rewrite Hdb.
  unfold mbind at 1, M_bind at 1.
  match goal with |- context [set_db ?d0 e] =>
    destruct (for_each_insert_positive (BalanceRow.id rd) abp' (set_db d0 e) d0 eq_refl)
      as (d1&ids&Hrun&Hbt&Hlen&Hpt)
  end.
  rewrite Hrun. unfold mbind at 1, M_bind at 1.
  destruct (get_db_position (BalanceRow.id rs) _) as [o e2|x e2] eqn:Hget; [|done].
  apply keeps_eq_Done in Hget as He2; [|apply keeps_get_db_position; apply _].
  subst e2. intros [= <-]. exists d1, o. split_and!; [by destruct e|done| | | |done].
  - intros row Hrow Hbid. rewrite Hpt in Hrow. cbn [position_table] in Hrow.
    apply elem_of_app in Hrow as [Hrow|Hrow].
    + apply list_elem_of_filter in Hrow as [Hne _]. by destruct Hne.
    + apply list_elem_of_lookup in Hrow as [i Hi].
      apply lookup_zip_with_Some in Hi as (p&id&->&Hp&_).
      apply list_elem_of_lookup_2, list_elem_of_filter in Hp as [Hp _]. exact Hp.
  - rewrite Hpt. cbn [position_table].
    by rewrite filter_app, others_of_deleted, others_of_inserted, app_nil_r.
  - match goal with |- get_db_position _ (set_portfolio ?p ?e0) = _ =>
      apply (get_db_position_set_portfolio _ e0 d1); [by destruct e|exact Hget]
    end.
Qed.
End sync_position_effects.

(** X21.  The loop over the broker positions keeps their number and order, does
    not change the engine, and leaves every entry of another security or
    direction as it is. *)
Theorem deduct_other_entries db_pos (abp abp' : list PositionData) e e' :
  deduct db_pos abp e = Done abp' e' →
  e' = e ∧
  length abp' = length abp ∧
  ∀ i brk_pos, abp !! i = Some brk_pos →
    (security brk_pos ≠ security db_pos ∨ direction brk_pos ≠ direction db_pos) →
    abp' !! i = Some brk_pos.
Proof.
  rewrite deduct_eval. case_decide; [|done]. intros [= <- <-].
  split; [done|]. split; [by rewrite length_fmap|].
  intros i b Hi Hne. rewrite list_lookup_fmap, Hi. cbn.
  unfold deducted. rewrite decide_False; [done|]. intros [??]. by destruct Hne.
Qed.

Section sync_position_failures.
Context `{PositionUpdate}.

(** X22.  What [sync_broker_position] needs from the table [balance], checked in
    this order and before any write: rows for the broker account
    ([AssertionError] otherwise), a row for the strategy ([IndexError]),
    and exactly one default row of version "1.0" ([AssertionError]). *)
Theorem sync_broker_position_requirements abp e d :
  db e = Some d →
  (account_rows e d = [] →
   sync_broker_position (Some abp) e = Raised AssertionError e) ∧
  (account_rows e d ≠ [] →
   filter (of_strategy e) (account_rows e d) = [] →
   sync_broker_position (Some abp) e = Raised IndexError e) ∧
  (filter (of_strategy e) (account_rows e d) ≠ [] →
   length (filter is_default_1_0 (account_rows e d)) ≠ 1%nat →
   sync_broker_position (Some abp) e = Raised AssertionError e).
Proof.
  intros Hdb. rewrite (sync_broker_position_checks abp e d Hdb).
  unfold mbind, M_bind, assert. split_and!.
  - intros Hnil. by rewrite decide_False by (by intros ?).
  - intros Hrows Hnone. rewrite decide_True by done. by rewrite Hnone.
  - intros Hstrat Hmany. rewrite decide_True.
    2:{ intros Hnil. by rewrite Hnil in Hstrat. }
    destruct (filter (of_strategy e) (account_rows e d)); [done|].
    cbn. by rewrite decide_False by done.
Qed.
End sync_position_failures.

Lemma valid_direction_position_row bid p id :
  valid_direction (position_row bid p id).
Proof.
  unfold valid_direction. cbn. destruct (direction p); cbn;
    repeat first [by left | right].
Qed.

Section sync_position_atomic.
Context `{PositionUpdate}.

Lemma deducted_rows_valid (rows : list PositionRow.t) abp abp' e e' :
  fold_each rows abp
    (λ all_broker_positions row,
       db_pos ← position_data_of_row row;
       deduct db_pos all_broker_positions) e = Done abp' e' →
  Forall valid_direction rows.
Proof.
  revert abp e. induction rows as [|row rows IH]; intros abp e; [by constructor|].
  rewrite fold_each_cons. unfold mbind at 1, M_bind at 1.
  rewrite position_data_of_row_eval.
  destruct (row_data row) as [pd|] eqn:Hpd; [|done].
  destruct (deduct pd abp e) as [abp1 e1|]; [|done].
  intros Hrest. constructor; [|by eapply IH].
  apply row_data_valid. by eexists.
Qed.

Lemma for_each_update_portfolio_position abp e :
  ∃ e', for_each abp update_portfolio_position e = Done () e'.
Proof.
  revert e. induction abp as [|p abp IH]; intros e; [by eexists|].
  rewrite for_each_cons. apply IH.
Qed.

(** X23.  [sync_broker_position] writes only when it goes through: whenever it
    raises, the engine, its portfolio and its ledger are as they were
    before the call. *)
Theorem sync_broker_position_raises_clean o e x e' :
  sync_broker_position o e = Raised x e' → e' = e.
Proof.
  destruct o as [abp|]; [|done]. destruct (db e) as [d|] eqn:Hdb.
  2:{ unfold sync_broker_position, mbind, M_bind, get. rewrite Hdb.
      destruct (for_each_update_portfolio_position abp e) as [e1 ->]. done. }
  rewrite (sync_broker_position_checks _ _ _ Hdb).
  unfold mbind at 1, M_bind at 1, assert.
  destruct (decide (account_rows e d ≠ [])) as [Hrows|]; [|by intros [= _ <-]].
  unfold mret at 1, M_ret at 1. unfold mbind at 1, M_bind at 1.
  destruct (filter (of_strategy e) (account_rows e d)) as [|rs rest] eqn:Hstrat;
    [by intros [= _ <-]|].
  cbn [fmap list_fmap values_0]. unfold mret at 1, M_ret at 1.
  unfold mbind at 1, M_bind at 1, assert.
  destruct (decide (length (filter is_default_1_0 (account_rows e d)) = 1%nat))
    as [Hone|]; [|by intros [= _ <-]].
  unfold mret at 1, M_ret at 1. unfold mbind at 1, M_bind at 1.
  destruct (filter is_default_1_0 (account_rows e d)) as [|rd [|??]] eqn:Hdef;
    try done.
  cbn [fmap list_fmap values_0]. unfold mret at 1, M_ret at 1.
  unfold sync_positions.
  destruct (account_positions e d) as [|row0 rows0] eqn:Hpos.
  { destruct (for_each_insert_position (BalanceRow.id rd) abp e d Hdb)
      as (d'&ids&Hrun&_). unfold mbind, M_bind. by rewrite Hrun. }
  rewrite <-Hpos. unfold mbind at 1, M_bind at 1.
  match goal with |- context [fold_each ?l abp ?body e] =>
    assert (keeps eq (fold_each l abp body)) as Hpure;
    [|destruct (fold_each l abp body e) as [abp' e1|x1 e1] eqn:Hfold]
  end.
  { apply keeps_fold_each; try apply _. intros acc row.
    apply keeps_bind; try apply _; [apply keeps_position_data_of_row; apply _|].
    intros db_pos. apply keeps_deduct; apply _. }
  2:{ apply keeps_eq_Raised in Hfold; [|done]. by intros [= _ <-]. }
  pose proof (deducted_rows_valid _ _ _ _ _ Hfold) as Hvalid.
  apply keeps_eq_Done in Hfold; [|done]. subst e1.
  unfold mbind at 1, M_bind at 1.
  unfold delete_position, mbind at 1, M_bind at 1, the_db, put_db. rewrite Hdb.
  unfold mbind at 1, M_bind at 1.
  match goal with |- context [set_db ?d0 e] =>
    destruct (for_each_insert_positive (BalanceRow.id rd) abp' (set_db d0 e) d0 eq_refl)
      as (d1&ids&Hrun&Hbt&Hlen&Hpt)
  end.
  rewrite Hrun. unfold mbind at 1, M_bind at 1.
  match goal with |- context [get_db_position _ ?e2] =>
    destruct (get_db_position_total (BalanceRow.id rs) e2 d1) as (o&Hget&_);
    [by destruct e| |by rewrite Hget]
  end.
  unfold rows_of. rewrite Hpt. cbn [position_table].
  rewrite filter_app. apply Forall_app. split.
  - apply Forall_forall. intros row [Hrs [Hnd Hin]%list_elem_of_filter]%list_elem_of_filter.
    eapply Forall_forall in Hvalid; [exact Hvalid|].
    apply list_elem_of_filter. split; [done|].
    apply list_elem_of_filter. split; [|done].
    rewrite Hrs. apply list_elem_of_fmap. exists rs. split; [done|].
    assert (rs ∈ filter (of_strategy e) (account_rows e d)) as Hin'
      by (rewrite Hstrat; left).
    by apply list_elem_of_filter in Hin' as [_ ?].
  - apply Forall_forall. intros row [_ Hin]%list_elem_of_filter.
    apply list_elem_of_lookup in Hin as [i Hi].
    apply lookup_zip_with_Some in Hi as (p&id&->&_&_).
    apply valid_direction_position_row.
Qed.
End sync_position_atomic.

Lemma forget_id_inserted bid (ps : list PositionData) (ids : list Z) :
  length ids = length ps →
  forget_id <$> zip_with (position_row bid) ps ids
    = (λ p, position_row bid p 0) <$> ps.
Proof.
  revert ids. induction ps as [|p ps IH]; intros [|id ids] Hlen; try done.
  cbn [zip_with fmap list_fmap]. f_equal. apply IH. by simplify_eq/=.
Qed.

Section more.
Context `{PositionUpdate}.

Lemma for_each_update_foldl abp e :
  for_each abp update_portfolio_position e =
    Done () (set_portfolio
               (mkPortfolio (account_balance (portfolio e))
                  (foldl Position_update_OPEN (position (portfolio e)) abp)) e).
Proof.
  revert e. induction abp as [|p abp IH]; intros e; [by destruct e as [?????[]?]|].
  rewrite for_each_cons. unfold update_portfolio_position at 1.
  unfold mbind, M_bind, get, assign_position. rewrite IH. by destruct e.
Qed.

(** X24.  Without a ledger the broker's positions go into the in-memory table:
    positions of distinct keys not held before are held afterwards as the
    broker gave them, every other entry stays, and the account balance is
    not touched. *)
Theorem sync_broker_position_without_db abp e :
  db e = None →
  NoDup (key_of <$> abp) →
  (∀ p, p ∈ abp → position (portfolio e) !! key_of p = None) →
  ∃ e1,
    sync_broker_position (Some abp) e = Done () e1 ∧
    db e1 = None ∧
    account_balance (portfolio e1) = account_balance (portfolio e) ∧
    (∀ p, p ∈ abp → position (portfolio e1) !! key_of p = Some p) ∧
    (∀ k, k ∉ key_of <$> abp →
          position (portfolio e1) !! k = position (portfolio e) !! k).
Proof.
  intros Hdb Hnd Hfresh. eexists. split.
  { unfold sync_broker_position, mbind, M_bind, get. rewrite Hdb.
    apply for_each_update_foldl. }
  split; [by destruct e|]. split; [by destruct e|].
  change (position (portfolio (set_portfolio ?p e))) with (position p).
  cbn [position].
  pose proof (foldl_update_fresh ((λ pd, (key_of pd, pd)) <$> abp)
                (position (portfolio e))) as Hf.
  rewrite <-!list_fmap_compose in Hf.
  change (snd ∘ _) with (@id PositionData) in Hf.
  change (fst ∘ _) with key_of in Hf. rewrite list_fmap_id in Hf.
  assert (∀ k pd, (k, pd) ∈ (λ pd, (key_of pd, pd)) <$> abp →
            k = (security pd, direction pd) ∧ position (portfolio e) !! k = None)
    as Hl.
  { intros k pd (pd'&Heq&Hin)%list_elem_of_fmap. simplify_eq.
    split; [done|]. by apply Hfresh. }
  assert (NoDup ((λ pd, (key_of pd, pd)) <$> abp).*1) as Hnd'.
  { by rewrite <-list_fmap_compose. }
  split.
  - intros p Hp. rewrite Hf by done.
    assert ((list_to_map ((λ pd, (key_of pd, pd)) <$> abp) : Position)
              !! key_of p = Some p) as ->; [|done].
    apply elem_of_list_to_map; [done|]. apply list_elem_of_fmap. by exists p.
  - intros k Hk. rewrite Hf by done.
    assert ((list_to_map ((λ pd, (key_of pd, pd)) <$> abp) : Position)
              !! k = None) as ->; [|done].
    apply not_elem_of_list_to_map_1. by rewrite <-list_fmap_compose.
Qed.

(** X25.  Persisting the same portfolio a second time rewrites the strategy's
    position rows to the same contents: only primary keys change. *)
Theorem persist_position_twice e d r :
  db e = Some d →
  strategy_rows e (strategy_account e) (strategy_version e) d = [r] →
  Forall valid_direction (rows_of (BalanceRow.id r) d) →
  ∃ e1 e2 d1 d2,
    persist_position e = Done () e1 ∧ db e1 = Some d1 ∧
    persist_position e1 = Done () e2 ∧ db e2 = Some d2 ∧
    forget_id <$> rows_of (BalanceRow.id r) d2
      = forget_id <$> rows_of (BalanceRow.id r) d1 ∧
    forget_id <$> rows_of (BalanceRow.id r) d1
      = (λ p, position_row (BalanceRow.id r) p 0)
          <$> get_all_positions (position (portfolio e)).
Proof.
  intros Hdb Hrow Hv.
  destruct (persist_position_eval e d r Hdb Hrow Hv)
    as (d1&ids1&Hrun1&Hbt1&Hlen1&Hrows1).
  assert (strategy_rows (set_db d1 e) (strategy_account (set_db d1 e))
            (strategy_version (set_db d1 e)) d1 = [r]) as Hrow1.
  { change (strategy_rows (set_db d1 e) (strategy_account (set_db d1 e))
              (strategy_version (set_db d1 e)))
      with (strategy_rows e (strategy_account e) (strategy_version e)).
    unfold strategy_rows in *. by rewrite Hbt1. }
  assert (Forall valid_direction (rows_of (BalanceRow.id r) d1)) as Hv1.
  { rewrite Hrows1. apply Forall_forall. intros row Hin.
    apply list_elem_of_lookup in Hin as [i Hi].
    apply lookup_zip_with_Some in Hi as (p&id&->&_&_).
    apply valid_direction_position_row. }
  destruct (persist_position_eval (set_db d1 e) d1 r eq_refl Hrow1 Hv1)
    as (d2&ids2&Hrun2&Hbt2&Hlen2&Hrows2).
  change (position (portfolio (set_db d1 e))) with (position (portfolio e)) in *.
  exists (set_db d1 e), (set_db d2 (set_db d1 e)), d1, d2.
  split_and!; [done|done|done|done| |].
  - rewrite Hrows1, Hrows2. by rewrite !forget_id_inserted.
  - rewrite Hrows1. by rewrite forget_id_inserted.
Qed.
End more.

(** *** Instances *)

Import Cases.

(** No direction is called "FLAT". *)
Lemma convert_direction_db2qt_FLAT :
  convert_direction_db2qt "FLAT" engine_without_db
    = Raised ValueError engine_without_db.
Proof.
  apply (proj2 (convert_direction_db2qt_spec "FLAT" engine_without_db)).
  intros d. destruct d; discriminate.
Defined.

(** The strategy's single position row is loaded under its key. *)
Lemma get_db_position_distinct_keys_witness :
  ∃ pos,
    @get_db_position overwrite 2 (engine "1.0" ∅ ledger_with_position)
      = Done (Some pos) (engine "1.0" ∅ ledger_with_position) ∧
    size pos = length [long_tencent #8 #40] ∧
    ∀ k pd, pos !! k = Some pd ↔ pd ∈ [long_tencent #8 #40] ∧ k = key_of pd.
Proof.
  apply (@get_db_position_distinct_keys overwrite 2
           (engine "1.0" ∅ ledger_with_position) ledger_with_position
           [long_tencent #8 #40]).
  - reflexivity.
  - change (Forall2
              (λ row pd, position_data_of_row row (engine "1.0" ∅ ledger_with_position)
                         = Done pd (engine "1.0" ∅ ledger_with_position))
              [strategy_position_row] [long_tencent #8 #40]).
    constructor; [reflexivity|constructor].
  - discriminate.
  - apply NoDup_singleton.
Defined.

(** A row with direction "FLAT" makes the load raise. *)
Lemma get_db_position_invalid_direction_witness :
  @get_db_position overwrite 2 (engine "1.0" ∅ broken_ledger)
    = Raised ValueError (engine "1.0" ∅ broken_ledger).
Proof.
  apply (@get_db_position_invalid_direction overwrite 2
           (engine "1.0" ∅ broken_ledger) broken_ledger).
  - reflexivity.
  - change (Exists (λ row, ¬ valid_direction row)
              [strategy_position_row; broken_position_row]).
    apply Exists_cons_tl, Exists_cons_hd. unfold valid_direction. simpl.
    intros Hin.
    repeat (apply elem_of_cons in Hin as [Hin|Hin]; [discriminate|]).
    by apply elem_of_nil in Hin.
Defined.

(** The broker holds 100 cash, the strategy claims 300. *)
Lemma sync_broker_balance_first_time_rejects_witness :
  sync_broker_balance (Some poor) 5 6 (engine "1.0" ∅ empty_ledger)
    = Raised AssertionError (engine "1.0" ∅ empty_ledger).
Proof.
  apply (proj1 (sync_broker_balance_first_time_rejects poor 5%Z 6%Z
                  (engine "1.0" ∅ empty_ledger) empty_ledger eq_refl eq_refl)
               (mkAccountBalance #300 #500 (-1) (-1)) eq_refl).
  left. by_comparison.
Defined.

(** A ledger with the strategy's row only. *)
Lemma sync_broker_balance_no_default_row_witness :
  sync_broker_balance (Some broker_balance) 5 6
      (engine "1.0" ∅ (mkDB [strategy_row "1.0"] [] []))
    = Raised IndexError (engine "1.0" ∅ (mkDB [strategy_row "1.0"] [] [])).
Proof.
  apply (sync_broker_balance_no_default_row broker_balance 5%Z 6%Z
           (engine "1.0" ∅ (mkDB [strategy_row "1.0"] [] []))
           (mkDB [strategy_row "1.0"] [] [])).
  - reflexivity.
  - by_comparison.
  - vm_compute. reflexivity.
Defined.

(** After the first sync of an empty ledger the in-memory balance is the
    strategy's row. *)
Lemma sync_broker_balance_reflects_ledger_witness :
  get_db_balance "strat" "1.0" (engine "1.0" ∅ (bootstrapped "1.0"))
    = Done (Some (mkAccountBalance #300 #500 (-1) (-1)))
           (engine "1.0" ∅ (bootstrapped "1.0")).
Proof.
  apply (proj2 (sync_broker_balance_reflects_ledger broker_balance 5%Z 6%Z
                  (engine "1.0" ∅ empty_ledger)
                  (engine "1.0" ∅ (bootstrapped "1.0"))
                  ltac:(by_evaluation))).
  by eexists.
Defined.

(** The strategy "other" syncs with a ledger bootstrapped by "strat". *)
Lemma sync_broker_balance_second_strategy_witness :
  account_balance (portfolio (other_engine None (bootstrapped "1.0"))) = None ∧
  ∃ d1, db (other_engine None (bootstrapped "1.0")) = Some d1 ∧
        strategy_rows (other_engine (Some spent) (bootstrapped "1.0"))
          "other" "1.0" d1 = [].
Proof.
  apply (sync_broker_balance_second_strategy broker_balance 7%Z 8%Z
           (other_engine (Some spent) (bootstrapped "1.0")) (bootstrapped "1.0")
           (other_engine None (bootstrapped "1.0"))).
  - reflexivity.
  - by_comparison.
  - vm_compute. reflexivity.
  - by_evaluation.
Defined.

(** The broker reports 200 more cash: the default row moves, the
    strategy's row stays. *)
Lemma sync_broker_balance_other_rows_witness :
  ∃ d1,
    db (engine "1.0" ∅
          (mkDB [default_row "1.0" #900 #1500; strategy_row "1.0"] []
                [Update "balance"; Insert "balance"; Insert "balance"]))
      = Some d1 ∧
    position_table d1 = position_table (bootstrapped "1.0") ∧
    ∀ i r, balance_table (bootstrapped "1.0") !! i = Some r →
           ¬ (of_broker_account (engine "1.0" ∅ (bootstrapped "1.0")) r ∧
              is_default r) →
           balance_table d1 !! i = Some r.
Proof.
  apply (sync_broker_balance_other_rows more_cash 7%Z 8%Z
           (engine "1.0" ∅ (bootstrapped "1.0")) (bootstrapped "1.0")).
  - reflexivity.
  - by_comparison.
  - by_evaluation.
Defined.

(** Persisting right after the first sync writes nothing. *)
Lemma persist_account_balance_after_sync_witness :
  persist_account_balance (engine "1.0" ∅ (bootstrapped "1.0"))
    = Done () (engine "1.0" ∅ (bootstrapped "1.0")).
Proof.
  apply (persist_account_balance_after_sync broker_balance 5%Z 6%Z
           (engine "1.0" ∅ empty_ledger)).
  - by eexists.
  - by_evaluation.
Defined.

(** The strategy spent 50 cash; the second persist finds nothing to write. *)
Lemma persist_account_balance_idempotent_witness :
  persist_account_balance
      (engine_with spent strategy_position
         (mkDB [default_row "1.0" #700 #1500; spent_row] [strategy_position_row]
               [Update "balance"]))
    = Done ()
        (engine_with spent strategy_position
           (mkDB [default_row "1.0" #700 #1500; spent_row] [strategy_position_row]
                 [Update "balance"])).
Proof.
  apply (persist_account_balance_idempotent
           (engine_with spent strategy_position ledger_with_position)).
  by_evaluation.
Defined.

(** The strategy spent 50 cash: one update, on its own row. *)
Lemma persist_account_balance_writes_witness :
  ∃ d1,
    persist_account_balance (engine_with spent strategy_position ledger_with_position)
      = Done () (set_db d1 (engine_with spent strategy_position ledger_with_position)) ∧
    writes d1 = Update "balance" :: writes ledger_with_position ∧
    position_table d1 = position_table ledger_with_position ∧
    length (balance_table d1) = length (balance_table ledger_with_position) ∧
    ∀ i r', balance_table ledger_with_position !! i = Some r' →
      ∃ r1, balance_table d1 !! i = Some r1 ∧ same_but_amounts r' r1 ∧
            ∀ f, column f r1 =
                   if decide (of_strategy
                                (engine_with spent strategy_position
                                   ledger_with_position) r' ∧
                              getattr spent f ≠ column f (strategy_row "1.0"))
                   then getattr spent f else column f r'.
Proof.
  apply (persist_account_balance_writes
           (engine_with spent strategy_position ledger_with_position)
           ledger_with_position (strategy_row "1.0") spent).
  - reflexivity.
  - vm_compute. reflexivity.
  - reflexivity.
  - by_comparison.
Defined.

(** The strategy's table of one entry replaces its one row. *)
Lemma persist_position_other_rows_witness :
  ∃ d',
    @persist_position overwrite
        (engine_with spent strategy_position ledger_with_position)
      = Done () (set_db d' (engine_with spent strategy_position ledger_with_position)) ∧
    balance_table d' = balance_table ledger_with_position ∧
    filter (λ row, PositionRow.balance_id row ≠ BalanceRow.id (strategy_row "1.0"))
           (position_table d')
      = filter (λ row, PositionRow.balance_id row ≠ BalanceRow.id (strategy_row "1.0"))
               (position_table ledger_with_position) ∧
    length (rows_of (BalanceRow.id (strategy_row "1.0")) d')
      = size (position (portfolio
                (engine_with spent strategy_position ledger_with_position))).
Proof.
  apply (@persist_position_other_rows overwrite
           (engine_with spent strategy_position ledger_with_position)
           ledger_with_position (strategy_row "1.0")).
  - reflexivity.
  - vm_compute. reflexivity.
  - change (Forall valid_direction [strategy_position_row]).
    constructor; [|constructor]. unfold valid_direction. simpl. left.
Defined.

(** Nothing is persisted into an empty ledger. *)
Lemma persist_step_without_balance_row_witness :
  @persist_step overwrite (engine "1.0" strategy_position empty_ledger)
    = Done () (engine "1.0" strategy_position empty_ledger).
Proof.
  apply (@persist_step_without_balance_row overwrite
           (engine "1.0" strategy_position empty_ledger) empty_ledger);
    reflexivity.
Defined.

(** The first position sync after the bootstrap. *)
Lemma sync_broker_position_first_time_witness :
  ∃ d' ids,
    @sync_broker_position overwrite (Some [long_tencent #10 #100])
        (engine "1.0" strategy_position (bootstrapped "1.0"))
      = Done () (set_portfolio
                   (mkPortfolio
                      (account_balance
                         (portfolio (engine "1.0" strategy_position
                                       (bootstrapped "1.0")))) ∅)
                   (set_db d' (engine "1.0" strategy_position (bootstrapped "1.0")))) ∧
    balance_table d' = balance_table (bootstrapped "1.0") ∧
    length ids = length [long_tencent #10 #100] ∧
    position_table d' =
      position_table (bootstrapped "1.0")
        ++ zip_with (position_row (BalanceRow.id (default_row "1.0" #700 #1500)))
                    [long_tencent #10 #100] ids.
Proof.
  apply (@sync_broker_position_first_time overwrite [long_tencent #10 #100]
           (engine "1.0" strategy_position (bootstrapped "1.0"))
           (bootstrapped "1.0") (strategy_row "1.0") []
           (default_row "1.0" #700 #1500)).
  - reflexivity.
  - vm_compute. reflexivity.
  - vm_compute. reflexivity.
  - reflexivity.
Defined.

(** The broker holds 100 Tencent of which the strategy owns 40. *)
Lemma sync_broker_position_subsequent_witness :
  ∃ d1 o,
    db (engine "1.0" strategy_position
          (mkDB (balances "1.0")
             [strategy_position_row;
              PositionRow.mk 2 1 "HK.00700" "Tencent" "LONG" (#680 / #60) #60 0]
             [Insert "position"; Delete "position"])) = Some d1 ∧
    balance_table d1 = balance_table ledger_with_position ∧
    (∀ row, row ∈ position_table d1 →
            PositionRow.balance_id row = BalanceRow.id (default_row "1.0" #700 #1500) →
            0 < PositionRow.quantity row) ∧
    filter (λ row, PositionRow.balance_id row
                     ≠ BalanceRow.id (default_row "1.0" #700 #1500))
           (position_table d1)
      = filter (λ row, PositionRow.balance_id row
                         ≠ BalanceRow.id (default_row "1.0" #700 #1500))
               (position_table ledger_with_position) ∧
    @get_db_position overwrite (BalanceRow.id (strategy_row "1.0"))
        (engine "1.0" strategy_position
           (mkDB (balances "1.0")
              [strategy_position_row;
               PositionRow.mk 2 1 "HK.00700" "Tencent" "LONG" (#680 / #60) #60 0]
              [Insert "position"; Delete "position"]))
      = Done o
          (engine "1.0" strategy_position
             (mkDB (balances "1.0")
                [strategy_position_row;
                 PositionRow.mk 2 1 "HK.00700" "Tencent" "LONG" (#680 / #60) #60 0]
                [Insert "position"; Delete "position"])) ∧
    position (portfolio
      (engine "1.0" strategy_position
         (mkDB (balances "1.0")
            [strategy_position_row;
             PositionRow.mk 2 1 "HK.00700" "Tencent" "LONG" (#680 / #60) #60 0]
            [Insert "position"; Delete "position"]))) = default ∅ o.
Proof.
  apply (@sync_broker_position_subsequent overwrite [long_tencent #10 #100]
           (engine "1.0" ∅ ledger_with_position) ledger_with_position
           (strategy_row "1.0") [] (default_row "1.0" #700 #1500)).
  - reflexivity.
  - vm_compute. reflexivity.
  - vm_compute. reflexivity.
  - by_comparison.
  - by_evaluation.
Defined.

(** The broker's HSBC is untouched by the deduction of Tencent. *)
Lemma deduct_other_entries_witness :
  engine_without_db = engine_without_db ∧
  length [long_tencent (#680 / #60) #60; long_hsbc]
    = length [long_tencent #10 #100; long_hsbc] ∧
  ∀ i brk_pos, [long_tencent #10 #100; long_hsbc] !! i = Some brk_pos →
    (security brk_pos ≠ security (long_tencent #8 #40) ∨
     direction brk_pos ≠ direction (long_tencent #8 #40)) →
    [long_tencent (#680 / #60) #60; long_hsbc] !! i = Some brk_pos.
Proof.
  apply (deduct_other_entries (long_tencent #8 #40)
           [long_tencent #10 #100; long_hsbc]
           [long_tencent (#680 / #60) #60; long_hsbc]
           engine_without_db engine_without_db).
  by_evaluation.
Defined.

(** The strategy "other" has no balance row in a ledger bootstrapped by
    "strat". *)
Lemma sync_broker_position_requirements_witness :
  @sync_broker_position overwrite (Some [long_tencent #10 #100])
      (other_engine None (bootstrapped "1.0"))
    = Raised IndexError (other_engine None (bootstrapped "1.0")).
Proof.
  apply (proj1 (proj2 (@sync_broker_position_requirements overwrite
                         [long_tencent #10 #100]
                         (other_engine None (bootstrapped "1.0"))
                         (bootstrapped "1.0") eq_refl))).
  - by_comparison.
  - vm_compute. reflexivity.
Defined.

(** The failed look-up of the default row leaves the engine as it was. *)
Lemma sync_broker_position_raises_clean_witness :
  @sync_broker_position overwrite (Some [long_tencent #10 #100])
      (engine "2.0" ∅ (bootstrapped "2.0"))
    = Raised AssertionError (engine "2.0" ∅ (bootstrapped "2.0")) ∧
  engine "2.0" ∅ (bootstrapped "2.0") = engine "2.0" ∅ (bootstrapped "2.0").
Proof.
  split; [by_evaluation|].
  apply (@sync_broker_position_raises_clean overwrite
           (Some [long_tencent #10 #100]) (engine "2.0" ∅ (bootstrapped "2.0"))
           AssertionError).
  by_evaluation.
Defined.

(** Without a ledger the broker's positions enter the in-memory table. *)
Lemma sync_broker_position_without_db_witness :
  ∃ e1,
    @sync_broker_position overwrite (Some [long_tencent #10 #100]) engine_without_db
      = Done () e1 ∧
    db e1 = None ∧
    account_balance (portfolio e1) = account_balance (portfolio engine_without_db) ∧
    (∀ p, p ∈ [long_tencent #10 #100] →
          position (portfolio e1) !! key_of p = Some p) ∧
    (∀ k, k ∉ key_of <$> [long_tencent #10 #100] →
          position (portfolio e1) !! k
            = position (portfolio engine_without_db) !! k).
Proof.
  apply (@sync_broker_position_without_db overwrite [long_tencent #10 #100]
           engine_without_db).
  - reflexivity.
  - apply NoDup_singleton.
  - intros p _. apply lookup_empty.
Defined.

(** Persisting the strategy's one position twice. *)
Lemma persist_position_twice_witness :
  ∃ e1 e2 d1 d2,
    @persist_position overwrite
        (engine_with spent strategy_position ledger_with_position) = Done () e1 ∧
    db e1 = Some d1 ∧
    @persist_position overwrite e1 = Done () e2 ∧ db e2 = Some d2 ∧
    forget_id <$> rows_of (BalanceRow.id (strategy_row "1.0")) d2
      = forget_id <$> rows_of (BalanceRow.id (strategy_row "1.0")) d1 ∧
    forget_id <$> rows_of (BalanceRow.id (strategy_row "1.0")) d1
      = (λ p, position_row (BalanceRow.id (strategy_row "1.0")) p 0)
          <$> get_all_positions
                (position (portfolio
                   (engine_with spent strategy_position ledger_with_position))).
Proof.
  apply (@persist_position_twice overwrite
           (engine_with spent strategy_position ledger_with_position)
           ledger_with_position (strategy_row "1.0")).
  - reflexivity.
  - vm_compute. reflexivity.
  - change (Forall valid_direction [strategy_position_row]).
    constructor; [|constructor]. unfold valid_direction. simpl. left.
Defined.

(** ** The persistence round trip *)

Lemma reloaded_whole_table (pos : Position) :
  map_Forall (λ _ pd, whole_second (update_time pd)) pos →
  reloaded <$> pos = pos.
Proof.
  intros Hall. apply map_eq. intros k. rewrite lookup_fmap.
  destruct (pos !! k) as [pd|] eqn:Hk; [|done]. simpl.
  by rewrite (reloaded_whole pd (Hall k pd Hk)).
Qed.

Lemma persist_position_invalid_direction `{PositionUpdate} e d r :
  db e = Some d →
  strategy_rows e (strategy_account e) (strategy_version e) d = [r] →
  Exists (λ row, ¬ valid_direction row) (rows_of (BalanceRow.id r) d) →
  persist_position e = Raised ValueError e.
Proof.
  intros Hdb Hrow Hbad.
  unfold persist_position. unfold mbind at 1, M_bind at 1, get.
  unfold mbind at 1, M_bind at 1, select_balance, mbind at 1, M_bind at 1, the_db.
  rewrite Hdb. unfold mret at 1, M_ret at 1.
  change (filter _ (balance_table d))
    with (strategy_rows e (strategy_account e) (strategy_version e) d).
  rewrite Hrow. unfold mbind at 1, M_bind at 1, assert.
  rewrite decide_True by done. unfold mret at 1, M_ret at 1.
  unfold mbind at 1, M_bind at 1.
  rewrite (get_db_position_eval _ _ _ Hdb).
  destruct (rows_of (BalanceRow.id r) d) as [|row rows] eqn:Hrows.
  - by apply Exists_nil in Hbad.
  - by rewrite (read_rows_invalid _ _ _ Hbad).
Qed.

(** C10, as amended.  With exactly one balance row for the strategy and an
    in-memory table whose entries sit under their own key: when the
    strategy's position rows in the ledger carry valid directions, the
    persistence step returns and leaves the portfolio alone, [get_db_balance]
    then returns the in-memory account balance, and [get_db_position]
    returns the in-memory positions with each time stamp cut to the whole
    second ([None], which the engine reads as the empty table, for an empty
    table), so the in-memory table itself when its stamps are whole
    seconds; when one of those rows carries an invalid direction the step
    raises [ValueError] once the balance is written. *)
Theorem C10_persist_round_trip `{PositionUpdate} e d r ab :
  db e = Some d →
  strategy_rows e (strategy_account e) (strategy_version e) d = [r] →
  account_balance (portfolio e) = Some ab →
  keyed (position (portfolio e)) →
  (Forall valid_direction (rows_of (BalanceRow.id r) d) →
   ∃ e',
     persist_step e = Done () e' ∧
     portfolio e' = portfolio e ∧
     get_db_balance (strategy_account e') (strategy_version e') e'
       = Done (Some ab) e' ∧
     get_db_position (BalanceRow.id r) e'
       = Done (if decide (position (portfolio e) = ∅) then None
               else Some (reloaded <$> position (portfolio e))) e' ∧
     (map_Forall (λ _ pd, whole_second (update_time pd))
                 (position (portfolio e)) →
      get_db_position (BalanceRow.id r) e'
        = Done (if decide (position (portfolio e) = ∅) then None
                else Some (position (portfolio e))) e')) ∧
  (Exists (λ row, ¬ valid_direction row) (rows_of (BalanceRow.id r) d) →
   persist_step e = Raised ValueError (set_db (stored_balance e ab r d) e)).
Proof.
  intros Hdb Hrow Hab Hkeyed.
  pose proof (persist_account_balance_eval _ _ _ _ Hdb Hrow Hab) as Hbal.
  destruct (strategy_rows_stored e ab r d Hrow) as (r1&Hrow1&Hab1&Hid1).
  set (d1 := stored_balance e ab r d) in *. set (e1 := set_db d1 e) in *.
  assert (db e1 = Some d1) as Hdb1 by reflexivity.
  assert (rows_of (BalanceRow.id r1) d1 = rows_of (BalanceRow.id r) d) as Hsame.
  { unfold rows_of, d1. by rewrite position_table_stored, Hid1. }
  split.
  - intros Hvalid. rewrite <-Hsame in Hvalid.
    destruct (persist_position_eval e1 d1 r1 Hdb1 Hrow1 Hvalid)
      as (d2&ids&Hpos&Hbt&Hlen&Hrows).
    assert (get_db_position (BalanceRow.id r) (set_db d2 e1)
              = Done (if decide (position (portfolio e) = ∅) then None
                      else Some (reloaded <$> position (portfolio e)))
                     (set_db d2 e1)) as Hget.
    { rewrite (get_db_position_eval _ _ d2) by done.
      rewrite <-Hid1, Hrows.
      change (position (portfolio e1)) with (position (portfolio e)) in *.
      destruct (get_all_positions (position (portfolio e))) as [|p ps] eqn:Hps.
      - apply get_all_positions_nil in Hps. by rewrite decide_True.
      - rewrite decide_False.
        2:{ intros Hempty%get_all_positions_nil. by rewrite Hempty in Hps. }
        destruct ids as [|id ids]; [done|].
        rewrite (read_rows_inserted (BalanceRow.id r1) (p :: ps) (id :: ids)) by done.
        cbn [zip_with]. rewrite <-Hps. by rewrite foldl_update_all. }
    exists (set_db d2 e1). split_and!.
    + unfold persist_step, mbind, M_bind. by rewrite Hbal, Hpos.
    + by destruct e.
    + rewrite (get_db_balance_eval _ _ _ d2) by done.
      change (strategy_rows (set_db d2 e1) (strategy_account (set_db d2 e1))
                (strategy_version (set_db d2 e1)) d2)
        with (strategy_rows e (strategy_account e) (strategy_version e) d2).
      unfold strategy_rows in *. rewrite Hbt. fold d1. rewrite Hrow1.
      by rewrite Hab1.
    + exact Hget.
    + intros Hwhole. rewrite Hget. by rewrite (reloaded_whole_table _ Hwhole).
  - intros Hbad. rewrite <-Hsame in Hbad.
    unfold persist_step, mbind, M_bind. rewrite Hbal.
    by rewrite (persist_position_invalid_direction e1 d1 r1 Hdb1 Hrow1 Hbad).
Qed.

(** *** Instances *)

(** C10 for a strategy that spent 50 cash and now holds 50 HSBC, over a
    ledger that has its 40 Tencent: the balance row is updated, the Tencent
    row is replaced, and the reload returns the HSBC position. *)
Lemma C10_witness :
  ∃ e',
    @persist_step overwrite
        (engine_with spent {[ (hsbc, LONG) := hsbc_at_3s ]} ledger_with_position)
      = Done () e' ∧
    portfolio e'
      = portfolio (engine_with spent {[ (hsbc, LONG) := hsbc_at_3s ]}
                     ledger_with_position) ∧
    get_db_balance (strategy_account e') (strategy_version e') e'
      = Done (Some spent) e' ∧
    @get_db_position overwrite (BalanceRow.id (strategy_row "1.0")) e'
      = Done (if decide (position (portfolio
                           (engine_with spent {[ (hsbc, LONG) := hsbc_at_3s ]}
                              ledger_with_position)) = ∅)
              then None
              else Some (reloaded <$> position (portfolio
                           (engine_with spent {[ (hsbc, LONG) := hsbc_at_3s ]}
                              ledger_with_position)))) e' ∧
    (map_Forall (λ _ pd, whole_second (update_time pd))
                (position (portfolio
                   (engine_with spent {[ (hsbc, LONG) := hsbc_at_3s ]}
                      ledger_with_position))) →
     @get_db_position overwrite (BalanceRow.id (strategy_row "1.0")) e'
       = Done (if decide (position (portfolio
                            (engine_with spent {[ (hsbc, LONG) := hsbc_at_3s ]}
                               ledger_with_position)) = ∅)
               then None
               else Some (position (portfolio
                            (engine_with spent {[ (hsbc, LONG) := hsbc_at_3s ]}
                               ledger_with_position)))) e').
Proof.
  apply (proj1 (@C10_persist_round_trip overwrite
           (engine_with spent {[ (hsbc, LONG) := hsbc_at_3s ]} ledger_with_position)
           ledger_with_position (strategy_row "1.0") spent
           eq_refl ltac:(vm_compute; reflexivity) eq_refl
           ltac:(intros k pd Hk; simpl in Hk;
                 apply lookup_singleton_Some in Hk as [<- <-]; reflexivity))).
  change (Forall valid_direction [strategy_position_row]).
  constructor; [|constructor]. unfold valid_direction. simpl. left.
Defined.

(** Against C10 as the specification has it.  A position stamped a second
    and a half is read back stamped one second; and with a position row of
    an invalid direction in the ledger the persistence step raises, the
    balance already written. *)
Lemma C10_counterexample :
  (@persist_step overwrite
       (engine_with spent {[ (tencent, LONG) := ticking ]}
          (mkDB (balances "1.0") [] []))
     = Done ()
         (engine_with spent {[ (tencent, LONG) := ticking ]}
            (mkDB [default_row "1.0" #700 #1500; spent_row]
                  [PositionRow.mk 1 2 "HK.00700" "Tencent" "LONG" #8 #40 1500000]
                  [Insert "position"; Update "balance"])) ∧
   @get_db_position overwrite 2
       (engine_with spent {[ (tencent, LONG) := ticking ]}
          (mkDB [default_row "1.0" #700 #1500; spent_row]
                [PositionRow.mk 1 2 "HK.00700" "Tencent" "LONG" #8 #40 1500000]
                [Insert "position"; Update "balance"]))
     = Done (Some {[ (tencent, LONG) :=
                       mkPositionData tencent LONG #8 #40 1000000 ]})
         (engine_with spent {[ (tencent, LONG) := ticking ]}
            (mkDB [default_row "1.0" #700 #1500; spent_row]
                  [PositionRow.mk 1 2 "HK.00700" "Tencent" "LONG" #8 #40 1500000]
                  [Insert "position"; Update "balance"])) ∧
   ({[ (tencent, LONG) := mkPositionData tencent LONG #8 #40 1000000 ]} : Position)
     ≠ {[ (tencent, LONG) := ticking ]}) ∧
  @persist_step overwrite (engine_with spent strategy_position broken_ledger)
    = Raised ValueError
        (engine_with spent strategy_position
           (mkDB [default_row "1.0" #700 #1500; spent_row]
                 [strategy_position_row; broken_position_row]
                 [Update "balance"])).
Proof.
  split_and!.
  - by_evaluation.
  - by_evaluation.
  - by_comparison.
  - by_evaluation.
Qed.

(** ** The remainders of the default bucket *)

Section remainders.
Context `{PositionUpdate}.

Lemma deduct_rows_eval (rows : list PositionRow.t) (pds : list PositionData)
    abp e :
  Forall2 (λ row db_pos, position_data_of_row row e = Done db_pos e) rows pds →
  fold_each rows abp
    (λ all_broker_positions row,
       db_pos ← position_data_of_row row;
       deduct db_pos all_broker_positions) e =
    match deducted_all pds abp with
    | Some abp' => Done abp' e
    | None => Raised ValueError e
    end.
Proof.
  intros Hrows. revert abp.
  induction Hrows as [|row db_pos rows pds Hrow _ IH]; intros abp; [done|].
  rewrite fold_each_cons. unfold mbind at 1, M_bind at 1.
  rewrite Hrow, deduct_eval. cbn [deducted_all].
  case_decide; [apply IH|done].
Qed.


Lemma valid_rows_decoded (rows : list PositionRow.t) e :
  Forall valid_direction rows →
  ∃ pds, Forall2 (λ row db_pos, position_data_of_row row e = Done db_pos e)
                 rows pds.
Proof.
  induction 1 as [|row rows Hrow _ [pds IH]]; [by exists []|].
  destruct (position_data_of_valid_row row e Hrow) as [pd Hpd].
  exists (pd :: pds). by constructor.
Qed.

Lemma sync_positions_later abp (position_df : list PositionRow.t) sid did e pds :
  position_df ≠ [] →
  Forall2 (λ row db_pos, position_data_of_row row e = Done db_pos e)
    (filter (λ r, PositionRow.balance_id r ≠ did) position_df) pds →
  sync_positions abp position_df sid did e =
    match deducted_all pds abp with
    | None => Raised ValueError e
    | Some abp' =>
      (delete_position (λ r, PositionRow.balance_id r = did);;
       for_each abp' (λ broker_position,
         if decide (0 < quantity broker_position) then
           insert_position (position_row did broker_position)
         else mret ());;
       position ← get_db_position sid;
       assign_position (default ∅ position)) e
    end.
Proof.
  intros Hne Hrows. unfold sync_positions.
  destruct position_df as [|row0 rows0] eqn:Hdf; [done|]. rewrite <-Hdf in *.
  unfold mbind at 1, M_bind at 1.
  rewrite (deduct_rows_eval _ _ _ _ Hrows).
  by destruct (deducted_all pds abp).
Qed.

(** The rows the final reload of [sync_broker_position] reads. *)
Lemma strategy_rows_valid e d rs rest did (ps : list PositionData) ids pt :
  filter (of_strategy e) (account_rows e d) = rs :: rest →
  Forall valid_direction
    (filter (λ r, PositionRow.balance_id r ≠ did) (account_positions e d)) →
  pt = filter (λ r, ¬ PositionRow.balance_id r = did) (position_table d)
         ++ zip_with (position_row did) ps ids →
  Forall valid_direction
    (filter (λ r, PositionRow.balance_id r = BalanceRow.id rs) pt).
Proof.
  intros Hstrat Hvalid ->. rewrite filter_app. apply Forall_app. split.
  - apply Forall_forall.
    intros row [Hrs [Hnd Hin]%list_elem_of_filter]%list_elem_of_filter.
    eapply Forall_forall in Hvalid; [exact Hvalid|].
    apply list_elem_of_filter. split; [done|].
    apply list_elem_of_filter. split; [|done].
    rewrite Hrs. apply list_elem_of_fmap. exists rs. split; [done|].
    assert (rs ∈ filter (of_strategy e) (account_rows e d)) as Hin'
      by (rewrite Hstrat; left).
    by apply list_elem_of_filter in Hin' as [_ ?].
  - apply Forall_forall. intros row [_ Hin]%list_elem_of_filter.
    apply list_elem_of_lookup in Hin as [i Hi].
    apply lookup_zip_with_Some in Hi as (p&id&->&_&_).
    apply valid_direction_position_row.
Qed.


(** C8, as amended.  A broker result of [None] means unavailable: both
    [sync_broker_balance] and [sync_broker_position] return and leave the
    engine, portfolio and ledger, as it was.  An empty list of positions
    changes nothing for an engine without a ledger.  With a ledger that has
    a balance row for the strategy and one default row of version "1.0", it
    is processed as a snapshot that holds nothing: while the broker account
    has no position row nothing is written and the in-memory position table
    is emptied; once it has position rows (of valid directions, outside the
    default bucket), the rows of the default bucket are deleted, the others
    are kept, and the in-memory position table becomes what
    [get_db_position] reads for the strategy. *)
Theorem C8_unavailable_snapshot n1 n2 e :
  sync_broker_balance None n1 n2 e = Done () e ∧
  sync_broker_position None e = Done () e ∧
  (db e = None → sync_broker_position (Some []) e = Done () e) ∧
  (∀ d rs rest rd,
     db e = Some d →
     filter (of_strategy e) (account_rows e d) = rs :: rest →
     filter is_default_1_0 (account_rows e d) = [rd] →
     (account_positions e d = [] →
      sync_broker_position (Some []) e
        = Done () (set_portfolio
                     (mkPortfolio (account_balance (portfolio e)) ∅) e)) ∧
     (account_positions e d ≠ [] →
      Forall valid_direction
        (filter (λ row, PositionRow.balance_id row ≠ BalanceRow.id rd)
                (account_positions e d)) →
      ∃ o,
        get_db_position (BalanceRow.id rs)
            (set_db (without_rows_of (BalanceRow.id rd) d) e)
          = Done o (set_db (without_rows_of (BalanceRow.id rd) d) e) ∧
        sync_broker_position (Some []) e
          = Done () (set_portfolio
                       (mkPortfolio (account_balance (portfolio e)) (default ∅ o))
                       (set_db (without_rows_of (BalanceRow.id rd) d) e)))).
Proof.
  split_and!; [done|done| |].
  { intros Hdb. destruct e as [bn env acct sa sv pf dbo]; simpl in Hdb; by subst dbo. }
  intros d rs rest rd Hdb Hstrat Hdef.
  pose proof (sync_broker_position_eval [] _ _ _ _ _ Hdb Hstrat Hdef) as Heval.
  split.
  - intros Hnone. rewrite Heval. unfold sync_positions. by rewrite Hnone.
  - intros Hsome Hvalid.
    destruct (valid_rows_decoded _ e Hvalid) as [pds Hrows].
    rewrite (sync_positions_later _ _ _ _ _ _ Hsome Hrows) in Heval.
    assert (deducted_all pds [] = Some []) as Hall.
    { clear. induction pds as [|p pds IH]; [done|]. cbn [deducted_all].
      by rewrite decide_True by constructor. }
    rewrite Hall in Heval. rewrite Heval. clear Heval.
    unfold mbind at 1, M_bind at 1.
    unfold delete_position, mbind at 1, M_bind at 1, the_db, put_db. rewrite Hdb.
    fold (without_rows_of (BalanceRow.id rd) d).
    unfold mbind at 1, M_bind at 1. cbn [for_each].
    unfold mret at 1, M_ret at 1. unfold mbind at 1, M_bind at 1.
    set (d0 := without_rows_of (BalanceRow.id rd) d).
    destruct (get_db_position_total (BalanceRow.id rs) (set_db d0 e) d0)
      as (o&Hget&_); [done| |].
    { eapply (strategy_rows_valid e d rs rest (BalanceRow.id rd) [] []);
        [exact Hstrat|exact Hvalid|]. cbn [zip_with]. by rewrite app_nil_r. }
    exists o. split; [done|]. rewrite Hget. by destruct e.
Qed.
End remainders.

(** *** Instances *)


(** C8 with a ledger: an empty list deletes the default bucket's HSBC, keeps
    the strategy's Tencent and loads it as the in-memory position table. *)
Lemma C8_witness :
  @sync_broker_balance None 0 0 (engine "1.0" ∅ ledger_with_both)
    = Done () (engine "1.0" ∅ ledger_with_both) ∧
  @sync_broker_position overwrite None (engine "1.0" ∅ ledger_with_both)
    = Done () (engine "1.0" ∅ ledger_with_both) ∧
  ∃ o,
    @get_db_position overwrite (BalanceRow.id (strategy_row "1.0"))
        (set_db (without_rows_of (BalanceRow.id (default_row "1.0" #700 #1500))
                   ledger_with_both)
                (engine "1.0" ∅ ledger_with_both))
      = Done o
          (set_db (without_rows_of (BalanceRow.id (default_row "1.0" #700 #1500))
                     ledger_with_both)
                  (engine "1.0" ∅ ledger_with_both)) ∧
    @sync_broker_position overwrite (Some []) (engine "1.0" ∅ ledger_with_both)
      = Done ()
          (set_portfolio
             (mkPortfolio
                (account_balance (portfolio (engine "1.0" ∅ ledger_with_both)))
                (default ∅ o))
             (set_db (without_rows_of (BalanceRow.id (default_row "1.0" #700 #1500))
                        ledger_with_both)
                     (engine "1.0" ∅ ledger_with_both))).
Proof.
  destruct (@C8_unavailable_snapshot overwrite 0%Z 0%Z
              (engine "1.0" ∅ ledger_with_both)) as (Hb & Hp & _ & Hempty).
  split; [exact Hb|]. split; [exact Hp|].
  destruct (Hempty ledger_with_both (strategy_row "1.0") []
              (default_row "1.0" #700 #1500) eq_refl
              ltac:(vm_compute; reflexivity) ltac:(vm_compute; reflexivity))
    as [_ Hlater].
  apply Hlater; [by_comparison|].
  change (Forall valid_direction [strategy_position_row]).
  constructor; [|constructor]. unfold valid_direction. simpl. left.
Defined.

(** ** Rounding in the balance reconciler *)

Module Binary64_eval.
Import Binary64.

Lemma binary64_first_time bb n1 n2 e d local :
  db e = Some d → account_balance e = Some local →
  sync_broker_balance_first_time bb n1 n2 e =
    if PrimFloat.leb 0 (PrimFloat.sub (cash bb) (cash local)) then
      if PrimFloat.leb 0 (PrimFloat.sub (power bb) (power local)) then
        Done () (set_db (bootstrap e bb local n1 n2 d) e)
      else Raised AssertionError e
    else Raised AssertionError e.
Proof.
  intros Hdb Hloc.
  destruct e as [bn env acct sa sv ab dbo]; simpl in Hdb, Hloc; subst.
  unfold sync_broker_balance_first_time, select_balance, insert_balance,
    bootstrap, default_row_of, strategy_row_of, next_account_id.
  unfold mbind, M_bind, mret, M_ret, get, the_db, put_db, assert, raise.
  cbn [db account_balance]. rewrite filter_True_id.
  destruct (PrimFloat.leb 0 (PrimFloat.sub (cash bb) (cash local))); [|done].
  destruct (PrimFloat.leb 0 (PrimFloat.sub (power bb) (power local))); [|done].
  cbn. rewrite <-app_assoc. done.
Qed.

Lemma first_time_without_balance bb n1 n2 e d :
  db e = Some d → account_balance e = None →
  sync_broker_balance_first_time bb n1 n2 e = Raised AttributeError e.
Proof.
  intros Hdb Hloc.
  destruct e as [bn env acct sa sv ab dbo]; simpl in Hdb, Hloc; subst.
  done.
Qed.

Lemma binary64_subsequent bb df r0 rest d e :
  db e = Some d →
  filter is_default df = r0 :: rest →
  sync_broker_balance_subsequent bb df e =
    if PrimFloat.leb 0 (PrimFloat.add (column Cash r0) (delta Cash bb df)) then
      if PrimFloat.leb 0 (PrimFloat.add (column Power r0) (delta Power bb df)) then
        Done () (set_db (reconcile Power bb df r0 (reconcile Cash bb df r0 d)) e)
      else Raised AssertionError (set_db (reconcile Cash bb df r0 d) e)
    else Raised AssertionError e.
Proof.
  intros Hdb Hdef. unfold sync_broker_balance_subsequent.
  change (filter _ df) with (filter is_default df). rewrite Hdef.
  destruct e as [bn env acct sa sv pf dbo]; simpl in Hdb; subst dbo.
  unfold reconcile. fold (delta Cash bb df) (delta Power bb df).
  cbn [for_each]. unfold mbind, M_bind, assert, mret, M_ret, raise.
  fold (delta Cash bb df) (delta Power bb df).
  destruct (PrimFloat.leb 0 (PrimFloat.add (column Cash r0) (delta Cash bb df)));
    [|done].
  destruct (PrimFloat.eqb (delta Cash bb df) 0);
    destruct (PrimFloat.leb 0 (PrimFloat.add (column Power r0) (delta Power bb df)));
    destruct (PrimFloat.eqb (delta Power bb df) 0); done.
Qed.

Lemma subsequent_without_default bb df e :
  filter is_default df = [] →
  sync_broker_balance_subsequent bb df e = Raised IndexError e.
Proof.
  intros Hdef. unfold sync_broker_balance_subsequent.
  change (filter _ df) with (filter is_default df). by rewrite Hdef.
Qed.

Lemma binary64_get_db_balance sa sv e d :
  db e = Some d →
  get_db_balance sa sv e =
    match strategy_rows e sa sv d with
    | [] => Done None e
    | [r] => Done (Some (balance_of_row r)) e
    | _ => Raised AssertionError e
    end.
Proof.
  intros Hdb. destruct e as [bn env acct sa' sv' pf dbo]; simpl in Hdb; subst dbo.
  unfold get_db_balance, strategy_rows, select_balance.
  unfold mbind, M_bind, mret, M_ret, get, the_db. cbn [db].
  match goal with |- context [filter ?P ?l] => destruct (filter P l) as [|r [|r' l']] end;
    done.
Qed.

Lemma binary64_sync_broker_balance bb n1 n2 e d :
  db e = Some d →
  sync_broker_balance (Some bb) n1 n2 e =
    match
      match account_rows e d with
      | [] => sync_broker_balance_first_time bb n1 n2 e
      | _ => sync_broker_balance_subsequent bb (account_rows e d) e
      end
    with
    | Done _ e1 =>
      match get_db_balance (strategy_account e) (strategy_version e) e1 with
      | Done v e2 =>
        Done () (mkEngine (gateway_broker_name e2) (trade_mode_name e2)
                   (gateway_broker_account e2) (strategy_account e2)
                   (strategy_version e2) v (db e2))
      | Raised x e2 => Raised x e2
      end
    | Raised x e1 => Raised x e1
    end.
Proof.
  intros Hdb. destruct e as [bn env acct sa sv pf dbo]; simpl in Hdb; subst dbo.
  unfold sync_broker_balance, select_balance, account_rows.
  unfold mbind at 1, M_bind at 1, get. cbn [db].
  unfold mbind at 1, M_bind at 1. unfold mbind at 1, M_bind at 1, the_db. cbn [db].
  unfold mret at 1, M_ret at 1.
  match goal with |- context [filter ?P ?l] => destruct (filter P l) as [|r l'] end.
  - unfold mbind at 1, M_bind at 1.
    destruct (sync_broker_balance_first_time _ _ _ _) as [[] e1|x e1]; [|done].
    unfold mbind, M_bind, assign_account_balance.
    by destruct (get_db_balance _ _ e1).
  - unfold mbind at 1, M_bind at 1.
    destruct (sync_broker_balance_subsequent _ _ _) as [[] e1|x e1]; [|done].
    unfold mbind, M_bind, assign_account_balance.
    by destruct (get_db_balance _ _ e1).
Qed.

End Binary64_eval.

(** *** Comparisons of floats and of the rationals they stand for *)

Lemma Qc_fraction_nonneg (a : Z) (b : positive) : 0 ≤ Q2Qc (Qmake a b) ↔ (0 ≤ a)%Z.
Proof.
  change (0 ≤ Q2Qc (Qmake a b)) with ((0 <= Qred (Qmake a b))%Q).
  rewrite Qred_correct. unfold Qle. simpl. lia.
Qed.

Lemma Qc_fraction_zero (a : Z) (b : positive) : Q2Qc (Qmake a b) = 0 ↔ a = 0%Z.
Proof.
  change (0 : Qc) with (Q2Qc 0). rewrite Q2Qc_eq_iff. unfold Qeq. simpl. lia.
Qed.

Lemma leb_0_value x :
  finite x → PrimFloat.leb 0 x = true ↔ 0 ≤ value x.
Proof.
  unfold finite, value. rewrite leb_spec.
  change (Prim2SF 0) with (S754_zero false).
  destruct (Prim2SF x) as [s|s| |s m e]; try done.
  intros _. destruct e as [|p|p]; rewrite Qc_fraction_nonneg;
    destruct s; simpl; split; (done || lia).
Qed.

Lemma eqb_0_value x :
  finite x → PrimFloat.eqb x 0 = true ↔ value x = 0.
Proof.
  unfold finite, value. rewrite eqb_spec.
  change (Prim2SF 0) with (S754_zero false).
  destruct (Prim2SF x) as [s|s| |s m e]; try done.
  intros _. destruct e as [|p|p]; rewrite Qc_fraction_zero;
    destruct s; simpl; split; (done || lia).
Qed.

(** *** The binary64 call and its exact image *)

Lemma value_0 : value 0 = 0.
Proof. reflexivity. Qed.

Lemma value_minus_1 : value (-1) = -1.
Proof. apply (bool_decide_eq_true_1 _). vm_compute. reflexivity. Qed.

Lemma value_adds acc (l : list float) :
  exact_adds acc l →
  value (foldl PrimFloat.add acc l) = value acc + sum (value <$> l).
Proof.
  revert acc. induction l as [|x l IH]; intros acc; cbn [exact_adds foldl].
  - intros _. change (sum (value <$> [])) with (0 : Qc). by rewrite Qcplus_0_r.
  - intros [[_ Hx] Hl]. rewrite (IH _ Hl), Hx, fmap_cons, sum_cons. ring.
Qed.

Lemma value_sum (l : list float) :
  exact_sum l → value (Binary64.sum l) = sum (value <$> l).
Proof.
  intros Hl. unfold Binary64.sum. rewrite (value_adds _ _ Hl), value_0. ring.
Qed.

Lemma filter_exact_rows (P : BalanceRow.t → Prop) `{∀ r, Decision (P r)}
    (P' : Binary64.BalanceRow.t → Prop) `{∀ r, Decision (P' r)}
    (rows : list Binary64.BalanceRow.t) :
  (∀ r, P (exact_row r) ↔ P' r) →
  filter P (exact_row <$> rows) = exact_row <$> filter P' rows.
Proof.
  intros HP. induction rows as [|r rows IH]; [done|].
  rewrite fmap_cons, !filter_cons, IH.
  destruct (decide (P (exact_row r))) as [Hr|Hr], (decide (P' r)) as [Hr'|Hr'];
    [done| | |done].
  - destruct Hr'. by apply HP.
  - destruct Hr. by apply HP.
Qed.

Lemma account_rows_exact e d :
  account_rows (exact_engine e) (exact_db d)
    = exact_row <$> Binary64.account_rows e d.
Proof. unfold account_rows, Binary64.account_rows. by apply filter_exact_rows. Qed.

Lemma strategy_rows_exact e sa sv d :
  strategy_rows (exact_engine e) sa sv (exact_db d)
    = exact_row <$> Binary64.strategy_rows e sa sv d.
Proof. unfold strategy_rows, Binary64.strategy_rows. by apply filter_exact_rows. Qed.

Lemma is_default_exact (rows : list Binary64.BalanceRow.t) :
  filter is_default (exact_row <$> rows)
    = exact_row <$> filter Binary64.is_default rows.
Proof. by apply filter_exact_rows. Qed.

Lemma column_exact f r : column f (exact_row r) = value (Binary64.column f r).
Proof. by destruct f. Qed.

Lemma getattr_exact f a : getattr (exact_balance a) f = value (Binary64.getattr a f).
Proof. by destruct f. Qed.

Lemma columns_exact f (rows : list Binary64.BalanceRow.t) :
  column f <$> (exact_row <$> rows) = value <$> (Binary64.column f <$> rows).
Proof.
  rewrite <-!list_fmap_compose. apply list_fmap_ext. intros i r _. simpl.
  apply column_exact.
Qed.

Lemma ids_exact (proj : BalanceRow.t → Z) (proj' : Binary64.BalanceRow.t → Z)
    (rows : list Binary64.BalanceRow.t) :
  (∀ r, proj (exact_row r) = proj' r) →
  proj <$> (exact_row <$> rows) = proj' <$> rows.
Proof.
  intros Hp. rewrite <-list_fmap_compose. apply list_fmap_ext. intros i r _.
  apply Hp.
Qed.

Lemma next_account_id_exact (proj : BalanceRow.t → Z)
    (proj' : Binary64.BalanceRow.t → Z) (rows : list Binary64.BalanceRow.t) :
  (∀ r, proj (exact_row r) = proj' r) →
  next_account_id proj (exact_row <$> rows) = Binary64.next_account_id proj' rows.
Proof.
  intros Hp. unfold next_account_id, Binary64.next_account_id.
  destruct rows as [|r rows]; [done|].
  rewrite fmap_cons. by rewrite <-fmap_cons, (ids_exact _ _ _ Hp).
Qed.

Lemma delta_exact f bb (df : list Binary64.BalanceRow.t) :
  exact_sum (Binary64.column f <$> df) →
  exact_sub (Binary64.getattr bb f) (Binary64.sum (Binary64.column f <$> df)) →
  delta f (exact_balance bb) (exact_row <$> df) = value (Binary64.delta f bb df).
Proof.
  intros Hsum [_ Hsub]. unfold delta, Binary64.delta.
  by rewrite Hsub, getattr_exact, columns_exact, (value_sum _ Hsum).
Qed.

Ltac unfold_exact_row :=
  unfold exact_row;
  cbn [Binary64.BalanceRow.id Binary64.BalanceRow.broker_name
       Binary64.BalanceRow.broker_environment Binary64.BalanceRow.broker_account
       Binary64.BalanceRow.broker_account_id Binary64.BalanceRow.strategy_account
       Binary64.BalanceRow.strategy_account_id Binary64.BalanceRow.strategy_version
       Binary64.BalanceRow.strategy_version_desc Binary64.BalanceRow.strategy_status
       Binary64.BalanceRow.cash Binary64.BalanceRow.power
       Binary64.BalanceRow.max_power_short Binary64.BalanceRow.net_cash_power
       Binary64.BalanceRow.update_time Binary64.BalanceRow.remark].

Lemma default_row_image e bb local bb' n1 d :
  cash bb' - value (Binary64.cash local)
    = value (PrimFloat.sub (Binary64.cash bb) (Binary64.cash local)) →
  power bb' - value (Binary64.power local)
    = value (PrimFloat.sub (Binary64.power bb) (Binary64.power local)) →
  exact_row (Binary64.default_row_of e bb local n1 d)
    = default_row_of (exact_engine e) bb' (exact_balance local) n1 (exact_db d).
Proof.
  intros Hc Hp. unfold default_row_of, Binary64.default_row_of.
  unfold_exact_row. rewrite <-Hc, <-Hp, value_minus_1.
  unfold exact_db. cbn [balance_table].
  rewrite !(next_account_id_exact _ _ _ (λ _, eq_refl)).
  rewrite (ids_exact BalanceRow.id Binary64.BalanceRow.id _ (λ _, eq_refl)).
  destruct e. reflexivity.
Qed.

Lemma strategy_row_image e bb local bb' n1 n2 d :
  cash bb' - value (Binary64.cash local)
    = value (PrimFloat.sub (Binary64.cash bb) (Binary64.cash local)) →
  power bb' - value (Binary64.power local)
    = value (PrimFloat.sub (Binary64.power bb) (Binary64.power local)) →
  exact_row (Binary64.strategy_row_of e bb local n1 n2 d)
    = strategy_row_of (exact_engine e) bb' (exact_balance local) n1 n2 (exact_db d).
Proof.
  intros Hc Hp. unfold strategy_row_of, Binary64.strategy_row_of.
  rewrite <-(default_row_image e bb local bb' n1 d Hc Hp).
  unfold_exact_row. rewrite value_minus_1.
  unfold exact_db. cbn [balance_table].
  rewrite !(next_account_id_exact _ _ _ (λ _, eq_refl)).
  rewrite !fmap_app.
  rewrite (ids_exact BalanceRow.id Binary64.BalanceRow.id _ (λ _, eq_refl)).
  destruct e. reflexivity.
Qed.

(** The rows of the first-time branch, whether the subtractions round or
    not: the default row holds what they gave. *)
Lemma bootstrap_image e bb local bb' n1 n2 d :
  cash bb' - value (Binary64.cash local)
    = value (PrimFloat.sub (Binary64.cash bb) (Binary64.cash local)) →
  power bb' - value (Binary64.power local)
    = value (PrimFloat.sub (Binary64.power bb) (Binary64.power local)) →
  exact_db (Binary64.bootstrap e bb local n1 n2 d)
    = bootstrap (exact_engine e) bb' (exact_balance local) n1 n2 (exact_db d).
Proof.
  intros Hc Hp. unfold bootstrap.
  rewrite <-(default_row_image e bb local bb' n1 d Hc Hp).
  rewrite <-(strategy_row_image e bb local bb' n1 n2 d Hc Hp).
  unfold exact_db, Binary64.bootstrap.
  cbn [Binary64.balance_table Binary64.writes balance_table position_table writes].
  by rewrite fmap_app.
Qed.

Lemma bootstrap_exact e bb local n1 n2 d :
  exact_sub (Binary64.cash bb) (Binary64.cash local) →
  exact_sub (Binary64.power bb) (Binary64.power local) →
  exact_db (Binary64.bootstrap e bb local n1 n2 d)
    = bootstrap (exact_engine e) (exact_balance bb) (exact_balance local)
        n1 n2 (exact_db d).
Proof. intros [_ Hc] [_ Hp]. by apply bootstrap_image. Qed.

Lemma amend_exact f i v r :
  exact_row (Binary64.amend f i v r) = amend f i (value v) (exact_row r).
Proof.
  unfold Binary64.amend, amend.
  change (BalanceRow.id (exact_row r)) with (Binary64.BalanceRow.id r).
  case_decide; [|done]. by destruct f.
Qed.

Lemma reconcile_exact f bb (df : list Binary64.BalanceRow.t) r0 d :
  exact_sum (Binary64.column f <$> df) →
  exact_sub (Binary64.getattr bb f) (Binary64.sum (Binary64.column f <$> df)) →
  exact_add (Binary64.column f r0) (Binary64.delta f bb df) →
  exact_db (Binary64.reconcile f bb df r0 d)
    = reconcile f (exact_balance bb) (exact_row <$> df) (exact_row r0)
        (exact_db d).
Proof.
  intros Hsum Hsub [_ Hadd]. unfold Binary64.reconcile, reconcile.
  rewrite (delta_exact _ _ _ Hsum Hsub), column_exact, <-Hadd.
  destruct Hsub as [Hfin _]. fold (Binary64.delta f bb df) in Hfin.
  pose proof (eqb_0_value _ Hfin) as Hzero.
  destruct (PrimFloat.eqb (Binary64.delta f bb df) 0) eqn:Heq; simpl.
  - rewrite decide_False; [done|]. intros Hne. apply Hne. by apply Hzero.
  - rewrite decide_True.
    2:{ intros Hv. apply Hzero in Hv. congruence. }
    unfold exact_db, write_field. cbn [Binary64.balance_table Binary64.writes
      balance_table position_table writes]. f_equal.
    rewrite <-!list_fmap_compose. apply list_fmap_ext. intros i r _. simpl.
    apply amend_exact.
Qed.

Lemma db_exact e d :
  Binary64.db e = Some d → db (exact_engine e) = Some (exact_db d).
Proof. intros Hdb. unfold exact_engine. cbn [db]. by rewrite Hdb. Qed.

Lemma if_leb_0_value {A} x (a b : A) :
  finite x →
  (if decide (0 ≤ value x) then a else b) = if PrimFloat.leb 0 x then a else b.
Proof.
  intros Hfin. pose proof (leb_0_value x Hfin) as Hle.
  destruct (PrimFloat.leb 0 x).
  - rewrite decide_True; [done|]. by apply Hle.
  - rewrite decide_False; [done|]. intros Hv. by apply Hle in Hv.
Qed.

Lemma get_db_balance_exact sa sv e d :
  Binary64.db e = Some d →
  get_db_balance sa sv (exact_engine e) =
    match Binary64.get_db_balance sa sv e with
    | Binary64.Done v e' => Done (exact_balance <$> v) (exact_engine e')
    | Binary64.Raised x e' => Raised x (exact_engine e')
    end.
Proof.
  intros Hdb.
  rewrite (get_db_balance_eval _ _ _ _ (db_exact _ _ Hdb)).
  rewrite (Binary64_eval.binary64_get_db_balance _ _ _ _ Hdb).
  rewrite strategy_rows_exact.
  by destruct (Binary64.strategy_rows e sa sv d) as [|r [|r' l']].
Qed.

(** The reload and the assignment that end [sync_broker_balance]. *)
Lemma reload_exact e d :
  match get_db_balance (strategy_account (exact_engine e))
          (strategy_version (exact_engine e))
          (set_db (exact_db d) (exact_engine e)) with
  | Done v e2 =>
    Done () (set_portfolio (mkPortfolio v (position (portfolio e2))) e2)
  | Raised x e2 => Raised x e2
  end =
  exact_outcome
    match Binary64.get_db_balance (Binary64.strategy_account e)
            (Binary64.strategy_version e) (Binary64.set_db d e) with
    | Binary64.Done v e2 =>
      Binary64.Done ()
        (Binary64.mkEngine (Binary64.gateway_broker_name e2)
           (Binary64.trade_mode_name e2) (Binary64.gateway_broker_account e2)
           (Binary64.strategy_account e2) (Binary64.strategy_version e2) v
           (Binary64.db e2))
    | Binary64.Raised x e2 => Binary64.Raised x e2
    end.
Proof.
  change (set_db (exact_db d) (exact_engine e))
    with (exact_engine (Binary64.set_db d e)).
  change (strategy_account (exact_engine e)) with (Binary64.strategy_account e).
  change (strategy_version (exact_engine e)) with (Binary64.strategy_version e).
  rewrite (get_db_balance_exact _ _ (Binary64.set_db d e) d) by done.
  by destruct (Binary64.get_db_balance _ _ _) as [v e2|x e2].
Qed.

(** A call that does not round is the call in exact arithmetic: run on the
    exact image of the engine, the reconciler of the first part ends as
    the binary64 reconciler does, in the exact image of its engine. *)
Lemma exact_sync_broker_balance bb n1 n2 e :
  exact_call bb e →
  sync_broker_balance (Some (exact_balance bb)) n1 n2 (exact_engine e)
    = exact_outcome (Binary64.sync_broker_balance (Some bb) n1 n2 e).
Proof.
  unfold exact_call. destruct (Binary64.db e) as [d|] eqn:Hdb.
  2:{ intros _. destruct e as [bn env acct sa sv ab dbo]; simpl in Hdb.
      by subst dbo. }
  rewrite (sync_broker_balance_eval _ _ _ _ _ (db_exact _ _ Hdb)).
  rewrite (Binary64_eval.binary64_sync_broker_balance _ _ _ _ _ Hdb).
  rewrite account_rows_exact.
  destruct (Binary64.account_rows e d) as [|r rows] eqn:Hrows.
  - cbn [fmap list_fmap].
    destruct (Binary64.account_balance e) as [local|] eqn:Hloc.
    + intros [Hc Hp].
      rewrite (first_time_eval (exact_balance bb) n1 n2 (exact_engine e)
                 (exact_db d) (exact_balance local) (db_exact _ _ Hdb)).
      2:{ unfold exact_engine. cbn [portfolio account_balance]. by rewrite Hloc. }
      rewrite (Binary64_eval.binary64_first_time _ _ _ _ _ _ Hdb Hloc).
      cbn [cash power exact_balance].
      rewrite <-(proj2 Hc), <-(proj2 Hp).
      rewrite (if_leb_0_value _ _ _ (proj1 Hc)).
      destruct (PrimFloat.leb 0 _); [|done].
      rewrite (if_leb_0_value _ _ _ (proj1 Hp)).
      destruct (PrimFloat.leb 0 _); [|done].
      rewrite <-(bootstrap_exact _ _ _ _ _ _ Hc Hp). apply reload_exact.
    + intros _.
      rewrite (first_time_None _ _ _ _ _ (db_exact _ _ Hdb)).
      2:{ unfold exact_engine. cbn [portfolio account_balance]. by rewrite Hloc. }
      by rewrite (Binary64_eval.first_time_without_balance _ _ _ _ _ Hdb Hloc).
  - set (df := r :: rows) in *.
    change (match exact_row <$> df with
            | [] => sync_broker_balance_first_time (exact_balance bb) n1 n2
                      (exact_engine e)
            | _ :: _ => sync_broker_balance_subsequent (exact_balance bb)
                          (exact_row <$> df) (exact_engine e)
            end)
      with (sync_broker_balance_subsequent (exact_balance bb)
              (exact_row <$> df) (exact_engine e)).
    destruct (filter Binary64.is_default df) as [|r0 rest] eqn:Hdef.
    + intros _.
      rewrite subsequent_no_default by (by rewrite is_default_exact, Hdef).
      by rewrite Binary64_eval.subsequent_without_default.
    + intros Hall.
      apply Forall_cons in Hall as [(Hs1&Hd1&Ha1) Hall].
      apply Forall_cons in Hall as [(Hs2&Hd2&Ha2) _].
      rewrite (subsequent_eval _ _ (exact_row r0) (exact_row <$> rest)
                 (exact_db d) _ (db_exact _ _ Hdb))
        by (by rewrite is_default_exact, Hdef).
      rewrite (Binary64_eval.binary64_subsequent _ _ _ _ _ _ Hdb Hdef).
      rewrite !column_exact.
      rewrite (delta_exact _ _ _ Hs1 Hd1), (delta_exact _ _ _ Hs2 Hd2).
      rewrite <-(proj2 Ha1), <-(proj2 Ha2).
      rewrite (if_leb_0_value _ _ _ (proj1 Ha1)).
      destruct (PrimFloat.leb 0 _); [|done].
      rewrite (if_leb_0_value _ _ _ (proj1 Ha2)).
      rewrite <-(reconcile_exact _ _ _ _ _ Hs1 Hd1 Ha1).
      destruct (PrimFloat.leb 0 _); [|done].
      rewrite <-(reconcile_exact _ _ _ _ _ Hs2 Hd2 Ha2). apply reload_exact.
Qed.

(** *** What a call leaves, rounded or not *)

Lemma leb_0_nonneg x : PrimFloat.leb 0 x = true → 0 ≤ value x.
Proof.
  unfold value. rewrite leb_spec. change (Prim2SF 0) with (S754_zero false).
  destruct (Prim2SF x) as [s|s| |s m e]; try done.
  destruct e as [|p|p]; rewrite Qc_fraction_nonneg; destruct s; simpl;
    (done || lia).
Qed.

Lemma ids_same_header (g : BalanceRow.t → BalanceRow.t) (rows : list BalanceRow.t) :
  (∀ r, same_header r (g r)) →
  BalanceRow.id <$> (g <$> rows) = BalanceRow.id <$> rows.
Proof.
  intros Hg. rewrite <-list_fmap_compose. apply list_fmap_ext. intros i r _.
  simpl. apply Hg.
Qed.

Lemma grouped_same_header e (g : BalanceRow.t → BalanceRow.t) d d' :
  (∀ r, same_header r (g r)) →
  balance_table d' = g <$> balance_table d →
  grouped e d → grouped e d'.
Proof.
  intros Hh Ht Hg r1' r2'. rewrite Ht.
  intros (r1&->&H1)%list_elem_of_fmap (r2&->&H2)%list_elem_of_fmap Hacc.
  rewrite (of_broker_account_header e _ _ (Hh r1)) in Hacc.
  rewrite (of_broker_account_header e _ _ (Hh r2)).
  destruct (Hh r1) as (_&_&_&_&->&_). destruct (Hh r2) as (_&_&_&_&->&_).
  by apply Hg.
Qed.

Lemma reconcile_image f bb (df : list Binary64.BalanceRow.t) r0 d :
  ∃ g, (∀ r, same_header r (g r)) ∧
       balance_table (exact_db (Binary64.reconcile f bb df r0 d))
         = g <$> balance_table (exact_db d).
Proof.
  unfold Binary64.reconcile.
  destruct (negb (PrimFloat.eqb (Binary64.delta f bb df) 0)).
  - eexists (amend f (Binary64.BalanceRow.id r0) _). split.
    + intros r. apply same_header_amend.
    + unfold exact_db. cbn [balance_table Binary64.balance_table].
      rewrite <-!list_fmap_compose. apply list_fmap_ext. intros i r _. simpl.
      apply amend_exact.
  - exists (λ r, r). split; [by intros []|]. by rewrite list_fmap_id.
Qed.

Module Binary64_calls.
Import Binary64.

Lemma binary64_for_each_cons {A} (x : A) xs (body : A → M unit) e :
  for_each (x :: xs) body e =
    match body x e with
    | Done _ e1 => for_each xs body e1
    | Raised x e1 => Raised x e1
    end.
Proof. done. Qed.

Lemma binary64_get_db_balance_Done sa sv e d v e' :
  db e = Some d → get_db_balance sa sv e = Done v e' → e' = e.
Proof.
  intros Hdb. rewrite (Binary64_eval.binary64_get_db_balance sa sv e d Hdb).
  destruct (strategy_rows e sa sv d) as [|r [|r' l']]; intros; by simplify_eq.
Qed.

(** What a call that returned did: the two branches, their assertions
    passed, and the reload that ends the call. *)
Lemma binary64_sync_broker_balance_Done bb n1 n2 e d e1 :
  db e = Some d →
  sync_broker_balance (Some bb) n1 n2 e = Done () e1 →
  ∃ d1 v,
    e1 = mkEngine (gateway_broker_name e) (trade_mode_name e)
           (gateway_broker_account e) (strategy_account e) (strategy_version e)
           v (Some d1) ∧
    get_db_balance (strategy_account e) (strategy_version e) (set_db d1 e)
      = Done v (set_db d1 e) ∧
    ((account_rows e d = [] ∧
      ∃ local, account_balance e = Some local ∧
               PrimFloat.leb 0 (PrimFloat.sub (cash bb) (cash local)) = true ∧
               PrimFloat.leb 0 (PrimFloat.sub (power bb) (power local)) = true ∧
               d1 = bootstrap e bb local n1 n2 d) ∨
     (account_rows e d ≠ [] ∧
      ∃ r0 rest, filter is_default (account_rows e d) = r0 :: rest ∧
                 d1 = reconcile Power bb (account_rows e d) r0
                        (reconcile Cash bb (account_rows e d) r0 d))).
Proof.
  intros Hdb. rewrite (Binary64_eval.binary64_sync_broker_balance _ _ _ _ _ Hdb).
  assert (∀ d' e0, e0 = set_db d' e →
    match get_db_balance (strategy_account e) (strategy_version e) e0 with
    | Done v e2 =>
      Done () (mkEngine (gateway_broker_name e2) (trade_mode_name e2)
                 (gateway_broker_account e2) (strategy_account e2)
                 (strategy_version e2) v (db e2))
    | Raised x e2 => Raised x e2
    end = Done () e1 →
    ∃ v, e1 = mkEngine (gateway_broker_name e) (trade_mode_name e)
                (gateway_broker_account e) (strategy_account e)
                (strategy_version e) v (Some d') ∧
         get_db_balance (strategy_account e) (strategy_version e) (set_db d' e)
           = Done v (set_db d' e)) as Hread.
  { intros d' e0 -> Hrun.
    destruct (get_db_balance _ _ (set_db d' e)) as [v e2|x e2] eqn:Hget; [|done].
    apply (binary64_get_db_balance_Done _ _ _ d') in Hget as He2; [|done].
    subst e2. exists v. split; [by simplify_eq|done]. }
  destruct (account_rows e d) as [|r df] eqn:Hrows.
  - intros Hrun.
    destruct (account_balance e) as [local|] eqn:Hloc.
    + rewrite (Binary64_eval.binary64_first_time _ _ _ _ _ _ Hdb Hloc) in Hrun.
      destruct (PrimFloat.leb 0 (PrimFloat.sub (cash bb) (cash local))) eqn:Hc;
        [|done].
      destruct (PrimFloat.leb 0 (PrimFloat.sub (power bb) (power local))) eqn:Hp;
        [|done].
      destruct (Hread _ _ eq_refl Hrun) as (v&->&Hget).
      eexists _, v. split; [done|]. split; [done|]. left. split; [done|].
      by exists local.
    + by rewrite (Binary64_eval.first_time_without_balance _ _ _ _ _ Hdb Hloc) in Hrun.
  - rewrite <-Hrows. intros Hrun.
    destruct (filter is_default (account_rows e d)) as [|r0 rest] eqn:Hdef.
    + by rewrite Binary64_eval.subsequent_without_default in Hrun.
    + rewrite (Binary64_eval.binary64_subsequent _ _ _ _ _ _ Hdb Hdef) in Hrun.
      destruct (PrimFloat.leb 0 _); [|done].
      destruct (PrimFloat.leb 0 _); [|done].
      destruct (Hread _ _ eq_refl Hrun) as (v&->&Hget).
      eexists _, v. split; [done|]. split; [done|]. right.
      split; [by rewrite Hrows|]. by exists r0, rest.
Qed.

End Binary64_calls.

(** Unique primary keys and [grouped] broker accounts are kept by every
    call that returns, whatever it rounds. *)
Lemma binary64_ledger_wf bb n1 n2 e e1 :
  ledger_wf (exact_engine e) →
  Binary64.sync_broker_balance (Some bb) n1 n2 e = Binary64.Done () e1 →
  ledger_wf (exact_engine e1).
Proof.
  intros (dq&Hdbq&Hnd&Hg) Hrun.
  destruct (Binary64.db e) as [d|] eqn:Hdb.
  2:{ unfold exact_engine in Hdbq. cbn [db] in Hdbq. by rewrite Hdb in Hdbq. }
  rewrite (db_exact _ _ Hdb) in Hdbq. injection Hdbq as <-.
  destruct (Binary64_calls.binary64_sync_broker_balance_Done _ _ _ _ _ _ Hdb Hrun)
    as (d1&v&->&_&Hd1).
  exists (exact_db d1). split; [done|].
  change (grouped (exact_engine (Binary64.mkEngine _ _ _ _ _ v (Some d1))))
    with (grouped (exact_engine e)).
  destruct Hd1 as [(Hrows&local&Hloc&Hc&Hp&->)|(_&r0&rest&_&->)].
  - set (bb' := mkAccountBalance
        (value (PrimFloat.sub (Binary64.cash bb) (Binary64.cash local))
         + value (Binary64.cash local))
        (value (PrimFloat.sub (Binary64.power bb) (Binary64.power local))
         + value (Binary64.power local)) 0 0).
    rewrite (bootstrap_image e bb local bb') by (unfold bb'; simpl; ring).
    assert (account_rows (exact_engine e) (exact_db d) = []) as Hnone
      by (by rewrite account_rows_exact, Hrows).
    split; [|by apply bootstrap_grouped].
    apply (bootstrap_settled (exact_engine e) bb'); [done|done| |].
    + replace (cash bb' - cash (exact_balance local))
        with (value (PrimFloat.sub (Binary64.cash bb) (Binary64.cash local)))
        by (unfold bb'; simpl; ring).
      by apply leb_0_nonneg.
    + replace (power bb' - power (exact_balance local))
        with (value (PrimFloat.sub (Binary64.power bb) (Binary64.power local)))
        by (unfold bb'; simpl; ring).
      by apply leb_0_nonneg.
  - set (df := Binary64.account_rows e d).
    destruct (reconcile_image Cash bb df r0 d) as (g1&Hg1&Ht1).
    destruct (reconcile_image Power bb df r0 (Binary64.reconcile Cash bb df r0 d))
      as (g2&Hg2&Ht2).
    split.
    + by rewrite Ht2, Ht1, !ids_same_header.
    + eapply (grouped_same_header _ g2); [done|exact Ht2|].
      by eapply (grouped_same_header _ g1).
Qed.

(** After a call that did not round, the amounts of the rows sharing the
    [broker_account_id] of the broker account add up to the snapshot. *)
Lemma binary64_conserved bb n1 n2 e e1 :
  ledger_wf (exact_engine e) →
  exact_call bb e →
  Binary64.sync_broker_balance (Some bb) n1 n2 e = Binary64.Done () e1 →
  conserved (exact_balance bb) (exact_engine e1).
Proof.
  intros Hwf Hexact Hrun.
  pose proof (exact_sync_broker_balance bb n1 n2 e Hexact) as Hsim.
  rewrite Hrun in Hsim. by eapply sync_broker_balance_wf.
Qed.

Lemma binary64_writes_reconciled bb (df : list Binary64.BalanceRow.t) r0 d :
  Binary64.writes (Binary64.reconcile Power bb df r0
                     (Binary64.reconcile Cash bb df r0 d)) = Binary64.writes d →
  Binary64.reconcile Power bb df r0 (Binary64.reconcile Cash bb df r0 d) = d.
Proof.
  unfold Binary64.reconcile.
  destruct (negb (PrimFloat.eqb (Binary64.delta Cash bb df) 0));
    destruct (negb (PrimFloat.eqb (Binary64.delta Power bb df) 0));
    cbn [Binary64.writes]; intros Hw; [| | |done];
    apply (f_equal length) in Hw; simpl in Hw; lia.
Qed.

(** C1, as amended.  From a ledger with unique primary keys and [grouped]
    broker accounts (the empty one included), in every sequence of calls of
    [sync_broker_balance] that runs without an error: after each call whose
    additions and subtractions do not round, the amounts of cash and of
    power held by the balance rows sharing the [broker_account_id] of the
    engine's broker account add up to the cash and the power of the
    snapshot of that call.  A call that returns has, the first time,
    appended the default row holding the float broker minus local and the
    strategy row holding local ([Binary64.bootstrap]) and, any later time,
    moved the default row by the float
    [delta = broker.value - sum(rows' value)], for cash and for power, where
    that delta is not zero ([Binary64.reconcile]). *)
Theorem C1_balance_conservation e :
  ledger_wf (exact_engine e) →
  (∀ calls1 bb now calls2 e',
     Binary64.sync_sequence (calls1 ++ (bb, now) :: calls2) e
       = Binary64.Done () e' →
     ∃ e0 e1,
       Binary64.sync_sequence calls1 e = Binary64.Done () e0 ∧
       Binary64.sync_broker_balance (Some bb) now.1 now.2 e0
         = Binary64.Done () e1 ∧
       (exact_call bb e0 → conserved (exact_balance bb) (exact_engine e1))) ∧
  (∀ d bb n1 n2 e1,
     Binary64.db e = Some d →
     Binary64.sync_broker_balance (Some bb) n1 n2 e = Binary64.Done () e1 →
     (Binary64.account_rows e d = [] →
      ∃ local, Binary64.account_balance e = Some local ∧
               Binary64.db e1 = Some (Binary64.bootstrap e bb local n1 n2 d)) ∧
     (Binary64.account_rows e d ≠ [] →
      ∃ r0 rest,
        filter Binary64.is_default (Binary64.account_rows e d) = r0 :: rest ∧
        Binary64.db e1
          = Some (Binary64.reconcile Power bb (Binary64.account_rows e d) r0
                    (Binary64.reconcile Cash bb (Binary64.account_rows e d)
                       r0 d)))).
Proof.
  intros Hwf. split.
  - intros calls1 bb now calls2. unfold Binary64.sync_sequence. revert e Hwf.
    induction calls1 as [|call calls1 IH]; intros e Hwf e'; simpl app;
      rewrite !Binary64_calls.binary64_for_each_cons.
    + cbn [fst snd].
      destruct (Binary64.sync_broker_balance _ _ _ e) as [[] e1|] eqn:Hcall;
        [|done].
      intros _. exists e, e1. split; [done|]. split; [done|].
      intros Hexact. by eapply binary64_conserved.
    + destruct (Binary64.sync_broker_balance _ _ _ e) as [[] e0|] eqn:Hcall;
        [|done].
      apply IH. by eapply binary64_ledger_wf.
  - intros d bb n1 n2 e1 Hdb Hrun.
    destruct (Binary64_calls.binary64_sync_broker_balance_Done _ _ _ _ _ _ Hdb Hrun)
      as (d1&v&->&_&[(Hrows&local&Hloc&_&_&->)|(Hrows&r0&rest&Hdef&->)]).
    + split; [|done]. intros _. by exists local.
    + split; [done|]. intros _. by exists r0, rest.
Qed.

(** C9, as amended.  With a ledger whose primary keys are unique: a call
    of [sync_broker_balance] that succeeded, repeated with the same broker
    snapshot, neither call rounding, returns and leaves the engine as it
    was: per field the delta is zero, so no insert and no update reaches
    the ledger and its write log is unchanged. *)
Theorem C9_sync_balance_idempotent bb n1 n2 n1' n2' e d e1 :
  Binary64.db e = Some d →
  NoDup (Binary64.BalanceRow.id <$> Binary64.balance_table d) →
  Binary64.sync_broker_balance (Some bb) n1 n2 e = Binary64.Done () e1 →
  exact_call bb e →
  exact_call bb e1 →
  Binary64.sync_broker_balance (Some bb) n1' n2' e1 = Binary64.Done () e1 ∧
  Binary64.ledger_writes
      (Binary64.final (Binary64.sync_broker_balance (Some bb) n1' n2' e1))
    = Binary64.ledger_writes e1.
Proof.
  intros Hdb Hnd Hrun Hexact Hexact1.
  pose proof (exact_sync_broker_balance bb n1 n2 e Hexact) as Hsim.
  rewrite Hrun in Hsim. cbn [exact_outcome] in Hsim.
  assert (NoDup (BalanceRow.id <$> balance_table (exact_db d))) as Hndq.
  { unfold exact_db. cbn [balance_table].
    by rewrite (ids_exact BalanceRow.id Binary64.BalanceRow.id _ (λ _, eq_refl)). }
  destruct (sync_broker_balance_twice _ n1 n2 n1' n2' _ _ _
              (db_exact _ _ Hdb) Hndq Hsim) as [Htwice _].
  rewrite (exact_sync_broker_balance bb n1' n2' e1 Hexact1) in Htwice.
  destruct (Binary64_calls.binary64_sync_broker_balance_Done _ _ _ _ _ _ Hdb Hrun)
    as (d1&v&->&Hget&_).
  set (e1 := Binary64.mkEngine _ _ _ _ _ v (Some d1)) in *.
  destruct (Binary64.sync_broker_balance (Some bb) n1' n2' e1)
    as [[] e2|x e2] eqn:Hrun2; [|done].
  cbn [exact_outcome] in Htwice.
  assert (exact_engine e2 = exact_engine e1) as Heq by congruence.
  clear Htwice.
  destruct (Binary64_calls.binary64_sync_broker_balance_Done _ _ _ _ _ e2
              (eq_refl : Binary64.db e1 = Some d1) Hrun2)
    as (d2&v2&->&Hget2&Hd2).
  assert (Binary64.writes d2 = Binary64.writes d1) as Hw.
  { apply (f_equal (λ e, writes <$> db e)) in Heq. by simplify_eq/=. }
  assert (d2 = d1) as ->.
  { destruct Hd2 as [(_&local&_&_&_&->)|(_&r0&rest&_&->)].
    - cbn [Binary64.bootstrap Binary64.writes] in Hw.
      apply (f_equal length) in Hw. simpl in Hw. lia.
    - by apply binary64_writes_reconciled. }
  assert (v2 = v) as ->.
  { rewrite (Binary64_eval.binary64_get_db_balance _ _ (Binary64.set_db d1 e)
               d1 eq_refl) in Hget.
    rewrite (Binary64_eval.binary64_get_db_balance _ _ (Binary64.set_db d1 e1)
               d1 eq_refl) in Hget2.
    change (Binary64.strategy_rows (Binary64.set_db d1 e1)
              (Binary64.strategy_account e1) (Binary64.strategy_version e1) d1)
      with (Binary64.strategy_rows (Binary64.set_db d1 e)
              (Binary64.strategy_account e) (Binary64.strategy_version e) d1)
      in Hget2.
    destruct (Binary64.strategy_rows _ _ _ d1) as [|r [|r' l']];
      by simplify_eq. }
  split; [done|]. done.
Qed.

(** *** Instances *)

(** C1 at two calls on whole amounts: the first sync of an empty ledger,
    then a later sync with more cash at the broker, which moves the default
    row from 700 to 900. *)
Lemma C1_witness :
  Binary64.sync_sequence
      ([(Rounding.whole_broker, (5%Z, 6%Z))] ++ [(Rounding.more_cash, (7%Z, 8%Z))])
      (Rounding.engine Rounding.whole_local Rounding.empty_ledger)
    = Binary64.Done ()
        (Rounding.engine Rounding.whole_local Rounding.whole_ledger_2) ∧
  Binary64.sync_broker_balance (Some Rounding.more_cash) 7 8
      (Rounding.engine Rounding.whole_local Rounding.whole_ledger)
    = Binary64.Done ()
        (Rounding.engine Rounding.whole_local Rounding.whole_ledger_2) ∧
  conserved (exact_balance Rounding.more_cash)
    (exact_engine
       (Rounding.engine Rounding.whole_local Rounding.whole_ledger_2)).
Proof.
  assert (ledger_wf (exact_engine
            (Rounding.engine Rounding.whole_local Rounding.empty_ledger)))
    as Hwf.
  { exists (exact_db Rounding.empty_ledger). split; [reflexivity|].
    split; [constructor|].
    intros r1 r2 Hr1. by apply elem_of_nil in Hr1. }
  assert (Binary64.sync_sequence
            ([(Rounding.whole_broker, (5%Z, 6%Z))] ++ [(Rounding.more_cash, (7%Z, 8%Z))])
            (Rounding.engine Rounding.whole_local Rounding.empty_ledger)
          = Binary64.Done ()
              (Rounding.engine Rounding.whole_local Rounding.whole_ledger_2))
    as Hrun by by_evaluation.
  split; [exact Hrun|].
  destruct (proj1 (C1_balance_conservation _ Hwf)
              [(Rounding.whole_broker, (5%Z, 6%Z))] Rounding.more_cash (7%Z, 8%Z) []
              _ Hrun) as (e0&e1&Hrun0&Hrun1&Hconserved).
  assert (e0 = Rounding.engine Rounding.whole_local Rounding.whole_ledger)
    as ->.
  { assert (Binary64.sync_sequence [(Rounding.whole_broker, (5%Z, 6%Z))]
              (Rounding.engine Rounding.whole_local Rounding.empty_ledger)
            = Binary64.Done ()
                (Rounding.engine Rounding.whole_local Rounding.whole_ledger))
      as Hev by by_evaluation.
    congruence. }
  assert (e1 = Rounding.engine Rounding.whole_local Rounding.whole_ledger_2)
    as ->.
  { assert (Binary64.sync_broker_balance (Some Rounding.more_cash) 7 8
              (Rounding.engine Rounding.whole_local Rounding.whole_ledger)
            = Binary64.Done ()
                (Rounding.engine Rounding.whole_local Rounding.whole_ledger_2))
      as Hev by by_evaluation.
    cbn [fst snd] in Hrun1. congruence. }
  split; [exact Hrun1|].
  apply Hconserved. by_comparison.
Defined.

(** Against C1 as the specification has it, where a subtraction rounds.
    The broker reports 1000.1 cash and the strategy holds 300.7: the first
    sync stores the default row with the binary64 difference
    699.4000000000001, and the two rows add up, in Python's [sum] and
    exactly, to more than the 1000.1 of the snapshot. *)
Lemma C1_counterexample :
  ledger_wf (exact_engine
               (Rounding.engine Rounding.cents_local Rounding.empty_ledger)) ∧
  Binary64.sync_sequence ([] ++ [(Rounding.cents_broker, (5%Z, 6%Z))])
      (Rounding.engine Rounding.cents_local Rounding.empty_ledger)
    = Binary64.Done ()
        (Rounding.engine Rounding.cents_local Rounding.cents_ledger) ∧
  Binary64.sum (Binary64.BalanceRow.cash
                  <$> Binary64.balance_table Rounding.cents_ledger)
    = 1000.1000000000001%float ∧
  Binary64.sum (Binary64.BalanceRow.cash
                  <$> Binary64.balance_table Rounding.cents_ledger)
    ≠ Binary64.cash Rounding.cents_broker ∧
  ¬ conserved (exact_balance Rounding.cents_broker)
      (exact_engine
         (Rounding.engine Rounding.cents_local Rounding.cents_ledger)).
Proof.
  split.
  { exists (exact_db Rounding.empty_ledger). split; [reflexivity|].
    split; [constructor|].
    intros r1 r2 Hr1. by apply elem_of_nil in Hr1. }
  split; [by_evaluation|]. split; [by_evaluation|]. split; [by_comparison|].
  intros (d&r&rest&Hdb&Hrows&Hcash&_).
  injection Hdb as <-.
  assert (r = exact_row (Rounding.default_row (PrimFloat.sub 1000.1 300.7) 1500))
    as ->.
  { revert Hrows.
    assert (filter (of_broker_account
                      (exact_engine
                         (Rounding.engine Rounding.cents_local
                            Rounding.cents_ledger)))
              (balance_table (exact_db Rounding.cents_ledger))
            = exact_row <$> Binary64.balance_table Rounding.cents_ledger)
      as -> by by_evaluation.
    intros Hrows. by injection Hrows. }
  revert Hcash. by_comparison.
Qed.

(** C9 at the first sync of an empty ledger on whole amounts, repeated. *)
Lemma C9_witness :
  Binary64.sync_broker_balance (Some Rounding.whole_broker) 7 8
      (Rounding.engine Rounding.whole_local Rounding.whole_ledger)
    = Binary64.Done ()
        (Rounding.engine Rounding.whole_local Rounding.whole_ledger) ∧
  Binary64.ledger_writes
      (Binary64.final
         (Binary64.sync_broker_balance (Some Rounding.whole_broker) 7 8
            (Rounding.engine Rounding.whole_local Rounding.whole_ledger)))
    = Binary64.ledger_writes
        (Rounding.engine Rounding.whole_local Rounding.whole_ledger).
Proof.
  apply (C9_sync_balance_idempotent Rounding.whole_broker 5 6 7 8
           (Rounding.engine Rounding.whole_local Rounding.empty_ledger)
           Rounding.empty_ledger).
  - reflexivity.
  - constructor.
  - by_evaluation.
  - by_comparison.
  - by_comparison.
Defined.

(** Against C9 as the specification has it, where a subtraction rounds.
    After the first sync with 1000.1 cash at the broker and 300.7 held by
    the strategy, the same snapshot finds the rows adding up to
    1000.1000000000001: the delta is not zero and the second call updates
    the default row, and so does the third, which finds them adding up to
    1000.0999999999999. *)
Lemma C9_counterexample :
  Binary64.sync_broker_balance (Some Rounding.cents_broker) 5 6
      (Rounding.engine Rounding.cents_local Rounding.empty_ledger)
    = Binary64.Done ()
        (Rounding.engine Rounding.cents_local Rounding.cents_ledger) ∧
  Binary64.ledger_writes
      (Binary64.final
         (Binary64.sync_broker_balance (Some Rounding.cents_broker) 7 8
            (Rounding.engine Rounding.cents_local Rounding.cents_ledger)))
    = Update "balance"
        :: Binary64.ledger_writes
             (Rounding.engine Rounding.cents_local Rounding.cents_ledger) ∧
  Binary64.sync_broker_balance (Some Rounding.cents_broker) 7 8
      (Rounding.engine Rounding.cents_local Rounding.cents_ledger)
    ≠ Binary64.Done ()
        (Rounding.engine Rounding.cents_local Rounding.cents_ledger) ∧
  Binary64.ledger_writes
      (Binary64.final
         (Binary64.sync_broker_balance (Some Rounding.cents_broker) 9 10
            (Binary64.final
               (Binary64.sync_broker_balance (Some Rounding.cents_broker) 7 8
                  (Rounding.engine Rounding.cents_local
                     Rounding.cents_ledger)))))
    = Update "balance" :: Update "balance"
        :: Binary64.ledger_writes
             (Rounding.engine Rounding.cents_local Rounding.cents_ledger).
Proof.
  split; [by_evaluation|]. split; [by_evaluation|]. split; [by_comparison|].
  by_evaluation.
Qed.
